(** * Data-Genie: the customer synchronisation and enrichment pipeline

    A shallow embedding of the server side of the repository
    (shared/schema.ts, server/storage.ts, server/shopifyClient.ts,
    server/enrichment.ts, server/syncJob.ts, server/routes.ts), of the page
    list of client/src/components/pagination-controls.tsx, and the
    properties of the pipeline proved about them.

    Conventions.
    - A JavaScript [Date] is its time value, the number of milliseconds since
      the epoch, a [Z]; where the code can make an Invalid Date, an
      [option Z] whose [None] is the Invalid Date.
    - A JavaScript number is a [Js.number]: a rational, NaN or an infinity.
    - A JavaScript string is a [string] of its UTF-16 code units, one
      [ascii] each: the methods of strings are given on the code units
      below 256.
    - A nullable column or property is an [option]; a property of an object
      literal that may also be left out (or be [undefined]) is a [field].
    - Every [await]ed statement of the relational store is one atomic
      function on the in-memory tables [Db]: what the statement does when
      the store takes it. Where the code handles the rejection of a
      statement (a [catch], a [finally]), the store's [rejects] says which
      statements are rejected. *)

From Stdlib Require Import ZArith QArith List String Ascii Bool Lia.
From Stdlib Require Import DecimalString Sorted Permutation.
Import ListNotations.

Local Open Scope string_scope.
Local Open Scope Z_scope.
Local Open Scope list_scope.

(** ** The JavaScript values the code computes with *)

Module Js.

(** An IEEE double as far as the code can tell numbers apart: comparisons
    with 0 and 1 and the test for NaN. *)
Inductive number : Type :=
| NaN
| Num (q : Q)
| PosInf
| NegInf.

Definition zero : number := Num 0%Q.
Definition one : number := Num 1%Q.
Definition of_Z (z : Z) : number := Num (inject_Z z).

(** [a <= b] on numbers; false as soon as one side is NaN. *)
Definition leb (a b : number) : bool :=
  match a, b with
  | NaN, _ | _, NaN => false
  | NegInf, _ => true
  | _, PosInf => true
  | PosInf, _ => false
  | _, NegInf => false
  | Num x, Num y => Qle_bool x y
  end.

(** [Math.min(a, b)] and [Math.max(a, b)]: NaN as soon as one argument is. *)
Definition Math_min (a b : number) : number :=
  match a, b with
  | NaN, _ | _, NaN => NaN
  | _, _ => if leb a b then a else b
  end.

Definition Math_max (a b : number) : number :=
  match a, b with
  | NaN, _ | _, NaN => NaN
  | _, _ => if leb a b then b else a
  end.

(** [a - z] for an integer literal [z]. *)
Definition sub_Z (a : number) (z : Z) : number :=
  match a with
  | Num q => Num (q - inject_Z z)%Q
  | other => other
  end.

(** [n || d] on numbers: 0 and NaN are falsy. *)
Definition number_or (n d : number) : number :=
  match n with
  | NaN => d
  | Num q => if Qeq_bool q 0 then d else n
  | _ => n
  end.

(** What [JSON.parse] returns. *)
#[local] Set Warnings "-register-all".
Inductive json : Type :=
| JNull
| JBool (b : bool)
| JNumber (n : number)
| JString (s : string)
| JArray (items : list json)
| JObject (props : list (string * json)).

(** Reading property [k] of a parsed object: [None] is [undefined]. A key
    given twice keeps its last value, as [JSON.parse] has it. *)
Fixpoint get (k : string) (props : list (string * json)) : option json :=
  match props with
  | [] => None
  | (k', v) :: rest =>
      match get k rest with
      | Some later => Some later
      | None => if String.eqb k k' then Some v else None
      end
  end.

(** [ToBoolean] on a property that was read. *)
Definition ToBoolean (v : option json) : bool :=
  match v with
  | None => false
  | Some JNull => false
  | Some (JBool b) => b
  | Some (JNumber NaN) => false
  | Some (JNumber (Num q)) => negb (Qeq_bool q 0)
  | Some (JNumber _) => true
  | Some (JString s) => negb (String.eqb s "")
  | Some (JArray _) => true
  | Some (JObject _) => true
  end.

(** [v || d]. *)
Definition or_else (v : option json) (d : json) : json :=
  match v with
  | Some x => if ToBoolean v then x else d
  | None => d
  end.

(** The parts of the JavaScript runtime the code calls and this development
    does not re-implement: they are taken as they come.
    [ObjectToNumber] is [ToNumber] on an array or an object, [None] when
    [ToPrimitive] throws a TypeError. [Date_parse] is [Date.parse], the time
    value of [new Date(text)]: [None] is NaN, the Invalid Date.
    [LocalTZA t isUTC] is the offset of the local time zone in milliseconds,
    at the instant [t] when [isUTC], at the local time [t] otherwise. *)
Class Runtime : Type := {
  JSON_parse : string -> option json;
  StringToNumber : string -> number;
  ObjectToNumber : json -> option number;
  parseFloat : string -> number;
  Date_parse : string -> option Z;
  LocalTZA : Z -> bool -> Z
}.

(** [LocalTime(t)] and [UTC(t)] of the language definition. *)
Definition LocalTime {rt : Runtime} (t : Z) : Z := t + LocalTZA t true.

Definition UTC {rt : Runtime} (t : Z) : Z := t - LocalTZA t false.

(** [ToNumber], as [Math.min] applies it to an argument; [None] when it
    throws. *)
Definition ToNumber {rt : Runtime} (v : json) : option number :=
  match v with
  | JNull => Some zero
  | JBool b => Some (if b then one else zero)
  | JNumber n => Some n
  | JString s => Some (StringToNumber s)
  | JArray _ => ObjectToNumber v
  | JObject _ => ObjectToNumber v
  end.

(** *** [parseInt(s)] without a radix *)

(** White space and line terminators among the code units below 256. *)
Definition is_white (c : ascii) : bool :=
  let n := nat_of_ascii c in
  (Nat.eqb n 32 || Nat.eqb n 9 || Nat.eqb n 10 || Nat.eqb n 11
   || Nat.eqb n 12 || Nat.eqb n 13 || Nat.eqb n 160)%bool.

Fixpoint skip_white (s : string) : string :=
  match s with
  | String c rest => if is_white c then skip_white rest else s
  | EmptyString => s
  end.

Definition digit_of (radix : Z) (c : ascii) : option Z :=
  let n := Z.of_nat (nat_of_ascii c) in
  let d :=
    if (48 <=? n) && (n <=? 57) then n - 48
    else if (97 <=? n) && (n <=? 122) then n - 87
    else if (65 <=? n) && (n <=? 90) then n - 55
    else radix in
  if d <? radix then Some d else None.

(** The value of the longest prefix of digits, [acc] so far. *)
Fixpoint digits (radix : Z) (s : string) (acc : option Z) : option Z :=
  match s with
  | EmptyString => acc
  | String c rest =>
      match digit_of radix c with
      | Some d =>
          digits radix rest
            (Some (match acc with Some a => a * radix + d | None => d end))
      | None => acc
      end
  end.

(** [None] is NaN. *)
Definition parseInt (s : string) : option Z :=
  let s := skip_white s in
  let '(negative, s) :=
    match s with
    | String "-" rest => (true, rest)
    | String "+" rest => (false, rest)
    | _ => (false, s)
    end in
  let '(radix, s) :=
    match s with
    | String "0" (String "x" rest) => (16, rest)
    | String "0" (String "X" rest) => (16, rest)
    | _ => (10, s)
    end in
  option_map (fun n => if negative then - n else n) (digits radix s None).

End Js.

(** A property of an object literal: left out (or [undefined]), or given,
    possibly as [null]. *)
Inductive field (A : Type) : Type :=
| Undefined
| Val (v : option A).

Arguments Undefined {A}.
Arguments Val {A} v.

(** [existing?.p] for a nullable column [p]. *)
Definition field_of_existing {R A : Type} (p : R -> option A)
    (existing : option R) : field A :=
  match existing with
  | Some r => Val (p r)
  | None => Undefined
  end.


(** ** The methods of [String] and [Array] the code calls

    A JavaScript string is the sequence of its UTF-16 code units. The
    methods below are given on the strings whose code units are below 256
    (Basic Latin and Latin-1), one [ascii] per code unit. *)

Module Text.

(** White space and line terminators below 256, as [trim] strips them. *)
Definition is_space (c : ascii) : bool :=
  let n := nat_of_ascii c in
  (Nat.eqb n 32 || (Nat.leb 9 n && Nat.leb n 13) || Nat.eqb n 160)%bool.

Fixpoint trimStart (s : string) : string :=
  match s with
  | String c rest => if is_space c then trimStart rest else s
  | EmptyString => s
  end.

Fixpoint trimEnd (s : string) : string :=
  match s with
  | EmptyString => EmptyString
  | String c rest =>
      match trimEnd rest with
      | EmptyString => if is_space c then EmptyString else String c EmptyString
      | kept => String c kept
      end
  end.

(** [s.trim()]. *)
Definition trim (s : string) : string := trimEnd (trimStart s).

(** [s.split(sep)] for a separator of one code unit: the pieces between
    the separators, one piece (the empty one) for the empty string. *)
Fixpoint split (sep : ascii) (s : string) : list string :=
  match s with
  | EmptyString => [EmptyString]
  | String c rest =>
      if Ascii.eqb c sep then EmptyString :: split sep rest
      else
        match split sep rest with
        | piece :: pieces => String c piece :: pieces
        | [] => [String c EmptyString]
        end
  end.

(** [items.join(sep)]. *)
Definition join (sep : string) (items : list string) : string :=
  String.concat sep items.

(** [s.startsWith(prefix)]. *)
Definition startsWith (prefix s : string) : bool := String.prefix prefix s.

(** Whether the code unit [c] occurs in [s]. *)
Fixpoint occurs (c : ascii) (s : string) : bool :=
  match s with
  | EmptyString => false
  | String c' rest => Ascii.eqb c' c || occurs c rest
  end.

(** The code units of [s] that [keep] holds of, in order:
    [s.replace(/[^..]/g, empty)]. *)
Fixpoint keepOnly (keep : ascii -> bool) (s : string) : string :=
  match s with
  | EmptyString => EmptyString
  | String c rest =>
      if keep c then String c (keepOnly keep rest) else keepOnly keep rest
  end.

(** Every code unit replaced by its image: [s.replace(/[..]/g, c)]. *)
Fixpoint mapUnits (f : ascii -> ascii) (s : string) : string :=
  match s with
  | EmptyString => EmptyString
  | String c rest => String (f c) (mapUnits f rest)
  end.

(** [\d]. *)
Definition is_digit (c : ascii) : bool :=
  let n := nat_of_ascii c in (Nat.leb 48 n && Nat.leb n 57)%bool.

Fixpoint all (p : ascii -> bool) (s : string) : bool :=
  match s with
  | EmptyString => true
  | String c rest => p c && all p rest
  end.

(** [s.slice(n)] for [0 <= n]: without its first [n] code units. *)
Fixpoint sliceFrom (n : nat) (s : string) : string :=
  match n, s with
  | O, _ => s
  | S m, String _ rest => sliceFrom m rest
  | S _, EmptyString => EmptyString
  end.

(** [s.slice(-n)] for [0 < n]: its last [n] code units, all of it when it
    has fewer. *)
Definition sliceLast (n : nat) (s : string) : string :=
  sliceFrom (String.length s - n) s.

(** [filter(Boolean)] on strings that may be [null]: the ones that are there
    and not empty. *)
Fixpoint truthy (items : list (option string)) : list string :=
  match items with
  | [] => []
  | Some s :: rest => if String.eqb s "" then truthy rest else s :: truthy rest
  | None :: rest => truthy rest
  end.

(** [a < b] or [a = b] on strings, code unit by code unit: the order of
    [sort()] without a comparator. *)
Definition precedes (a b : string) : bool := String.leb a b.

Fixpoint insertSorted (x : string) (sorted : list string) : list string :=
  match sorted with
  | [] => [x]
  | y :: rest => if precedes x y then x :: sorted else y :: insertSorted x rest
  end.

(** [items.sort()]. *)
Definition sort (items : list string) : list string :=
  fold_right insertSorted [] items.

(** [set.add(x)] on a [Set] kept in insertion order. *)
Definition add (x : string) (set : list string) : list string :=
  if existsb (String.eqb x) set then set else set ++ [x].

End Text.
(** ** shared/schema.ts *)

Definition Gender : Type := string.

Definition genderEnum : list Gender := ["male"; "female"; "unknown"].

Inductive EnrichmentStatus : Type :=
| pending
| complete
| failed.

Definition EnrichmentStatus_eqb (a b : EnrichmentStatus) : bool :=
  match a, b with
  | pending, pending | complete, complete | failed, failed => true
  | _, _ => false
  end.

(** A row of the table [customers] ([typeof customers.$inferSelect]). *)
Module Customer.
Record t : Type := mk {
  id : Z;
  shopifyCustomerId : Z;
  email : option string;
  phone : option string;
  firstName : option string;
  lastName : option string;
  city : option string;
  country : option string;
  province : option string;
  postalCode : option string;
  tags : option string;
  createdAtShopify : option Z;
  updatedAtShopify : option Z;
  lastOrderAt : option Z;
  totalSpent : option Js.number;
  ordersCount : option Z;
  genderInferred : option Gender;
  genderConfidence : option Js.number;
  enrichmentStatus : EnrichmentStatus;
  createdAt : Z;
  updatedAt : Z
}.
End Customer.

(** What a caller hands to an insert ([typeof customers.$inferInsert]): the
    key is required, [id] is generated, every other column may be left
    out. *)
Module InsertCustomer.
Record t : Type := mk {
  shopifyCustomerId : Z;
  email : field string;
  phone : field string;
  firstName : field string;
  lastName : field string;
  city : field string;
  country : field string;
  province : field string;
  postalCode : field string;
  tags : field string;
  createdAtShopify : field Z;
  updatedAtShopify : field Z;
  lastOrderAt : field Z;
  totalSpent : field Js.number;
  ordersCount : field Z;
  genderInferred : field Gender;
  genderConfidence : field Js.number;
  enrichmentStatus : option EnrichmentStatus;
  createdAt : option Z;
  updatedAt : option Z
}.
End InsertCustomer.

Inductive SyncType : Type :=
| Incremental
| Full.

Inductive SyncStatus : Type :=
| running
| completed
| sync_failed.

(** A row of the table [sync_logs]. *)
Module SyncLog.
Record t : Type := mk {
  id : Z;
  syncType : SyncType;
  status : SyncStatus;
  customersProcessed : option Z;
  customersCreated : option Z;
  customersUpdated : option Z;
  errorMessage : option string;
  startedAt : Z;
  completedAt : option Z
}.
End SyncLog.

(** [InsertSyncLog], as [syncCustomers] fills it: the two required columns. *)
Module InsertSyncLog.
Record t : Type := mk {
  syncType : SyncType;
  status : SyncStatus
}.
End InsertSyncLog.

(** [Partial<SyncLog>], as [syncCustomers] fills it. *)
Module SyncLogUpdates.
Record t : Type := mk {
  status : option SyncStatus;
  customersProcessed : option Z;
  customersCreated : option Z;
  customersUpdated : option Z;
  errorMessage : option string;
  completedAt : option Z
}.
End SyncLogUpdates.

Inductive SortBy : Type :=
| ByCreatedAtShopify
| ByLastOrderAt
| ByFirstName
| ByEmail
| ByTotalSpent
| ByOrdersCount.

Inductive SortOrder : Type :=
| Asc
| Desc.

(** shared/regions.ts: [regionOptions]. *)
Inductive Region : Type :=
| North
| South
| East
| West
| Central
| North_East.

(** [CustomerFilter], the type that [customerFilterSchema] infers. [page],
    [pageSize] and the two bounds on the number of orders are integers, as
    [parseInt] gives them to the routes. *)
Module CustomerFilter.
Record t : Type := mk {
  genderInferred : option (list Gender);
  createdFrom : option string;
  createdTo : option string;
  lastOrderFrom : option string;
  lastOrderTo : option string;
  city : option (list string);
  province : option (list string);
  region : option Region;
  tag : option string;
  minTotalSpent : option Js.number;
  maxTotalSpent : option Js.number;
  minOrdersCount : option Z;
  maxOrdersCount : option Z;
  page : Z;
  pageSize : Z;
  sortBy : option SortBy;
  sortOrder : option SortOrder
}.
End CustomerFilter.

Module Pagination.
Record t : Type := mk {
  page : Z;
  pageSize : Z;
  totalCount : Z;
  totalPages : Z
}.
End Pagination.

(** [interface CustomerListResponse]. *)
Module CustomerListResponse.
Record t : Type := mk {
  data : list Customer.t;
  pagination : Pagination.t
}.
End CustomerListResponse.

(** shared/regions.ts: [regionStates[region]]. *)
Definition regionStates (region : Region) : list string :=
  match region with
  | North =>
      ["Delhi"; "Haryana"; "Punjab"; "Himachal Pradesh"; "Jammu & Kashmir";
       "Ladakh"; "Uttarakhand"]
  | South =>
      ["Karnataka"; "Kerala"; "Tamil Nadu"; "Andhra Pradesh"; "Telangana"]
  | East => ["Bihar"; "Jharkhand"; "Odisha"; "West Bengal"]
  | West => ["Maharashtra"; "Gujarat"; "Goa"; "Rajasthan"]
  | Central => ["Madhya Pradesh"; "Chhattisgarh"]
  | North_East =>
      ["Assam"; "Arunachal Pradesh"; "Manipur"; "Meghalaya"; "Mizoram";
       "Nagaland"; "Tripura"; "Sikkim"]
  end.

(** [interface SyncStatus]. [lastSync] is the instant whose ISO 8601 text
    the interface carries: the text of a date is never empty and tells the
    instant. *)
Module SyncStatusReport.
Record t : Type := mk {
  lastSync : option Z;
  isRunning : bool;
  customersCount : Z
}.
End SyncStatusReport.

(** ** server/storage.ts *)

(** The two tables and the identity sequences behind their [id] columns. *)
Module Db.
Record t : Type := mk {
  customers : list Customer.t;
  customers_seq : Z;
  syncLogs : list SyncLog.t;
  syncLogs_seq : Z
}.

Definition empty : t := mk [] 1 [] 1.
End Db.

Module DatabaseStorage.

(** The statements that the code awaits and whose rejection it handles. *)
Inductive statement : Type :=
| UpsertCustomer (customer : InsertCustomer.t)
| GetCustomerByShopifyId (shopifyId : Z)
| GetLatestCustomerUpdatedAt
| CreateSyncLog (log : InsertSyncLog.t)
| UpdateSyncLog (id : Z) (updates : SyncLogUpdates.t)
| GetLatestSyncLog.

(** The range of a column of type [integer]. *)
Definition integer (n : Z) : bool :=
  (-2147483648 <=? n) && (n <=? 2147483647).

(** The rejection of a statement that carries a value out of the range of
    its column. *)
Definition out_of_range (s : statement) : option string :=
  match s with
  | UpsertCustomer customer =>
      match InsertCustomer.ordersCount customer with
      | Val (Some n) =>
          if integer n then None else Some "value out of range for type integer"
      | _ => None
      end
  | _ => None
  end.

Lemma out_of_range_integer (customer : InsertCustomer.t) (n : Z) :
  InsertCustomer.ordersCount customer = Val (Some n) ->
  out_of_range (UpsertCustomer customer) = None ->
  integer n = true.
Proof.
  unfold out_of_range. intros ->. destruct (integer n); [reflexivity | discriminate].
Qed.

(** What the database server and its driver do and this development does
    not re-implement; they are taken as they come.
    - [real n]: what a column of type [real] hands back for the number [n]
      that a statement gave it (a single-precision number, read by the
      driver).
    - [rejects s db]: the message of the error with which the statement [s],
      sent to the store [db], is rejected (a value out of the range of its
      column, a connection that is lost, ...), if it is. Of it this is
      known: an upsert whose [ordersCount] is out of the range of a column
      of type [integer] is rejected.
    - [puts_first a b]: whether ORDER BY started_at DESC puts [a] before
      [b] when both started at the same instant.
    - For the query of [getCustomers]: [new Date(text)] ([None] is the
      invalid date), the operator ILIKE on a text and a pattern, and the
      order in which ORDER BY puts rows, of which only this is known: it
      puts the same rows. *)
Class Database : Type := {
  real : Js.number -> Js.number;
  rejects : statement -> Db.t -> option string;
  rejects_out_of_range :
    forall customer db n,
      InsertCustomer.ordersCount customer = Val (Some n) ->
      rejects (UpsertCustomer customer) db = None ->
      integer n = true;
  puts_first : SyncLog.t -> SyncLog.t -> bool;
  newDate : string -> option Z;
  ilike : string -> string -> bool;
  orderBy : SortBy -> SortOrder -> list Customer.t -> list Customer.t;
  orderBy_permutes :
    forall column direction rows,
      Permutation (orderBy column direction rows) rows
}.

(** The value a column takes from a property of [values(..)] or [set(..)]:
    the ORM skips a property that is [undefined], so the column keeps
    [fallback] (its default on an insert, its stored value on an update). *)
Definition column {A : Type} (f : field A) (fallback : option A) : option A :=
  match f with
  | Undefined => fallback
  | Val v => v
  end.

Definition default {A : Type} (o : option A) (d : A) : A :=
  match o with
  | Some a => a
  | None => d
  end.

(** A property that goes to a column of type [real]. *)
Definition asReal {database : Database} (f : field Js.number) : field Js.number :=
  match f with
  | Undefined => Undefined
  | Val v => Val (option_map real v)
  end.

(** [insert(customers).values(customer)] when no row has the key. *)
Definition insertedRow {database : Database} (customer : InsertCustomer.t)
    (id now : Z) : Customer.t :=
  Customer.mk
    id
    (InsertCustomer.shopifyCustomerId customer)
    (column (InsertCustomer.email customer) None)
    (column (InsertCustomer.phone customer) None)
    (column (InsertCustomer.firstName customer) None)
    (column (InsertCustomer.lastName customer) None)
    (column (InsertCustomer.city customer) None)
    (column (InsertCustomer.country customer) None)
    (column (InsertCustomer.province customer) None)
    (column (InsertCustomer.postalCode customer) None)
    (column (InsertCustomer.tags customer) None)
    (column (InsertCustomer.createdAtShopify customer) None)
    (column (InsertCustomer.updatedAtShopify customer) None)
    (column (InsertCustomer.lastOrderAt customer) None)
    (column (asReal (InsertCustomer.totalSpent customer)) (Some Js.zero))
    (column (InsertCustomer.ordersCount customer) (Some 0))
    (column (InsertCustomer.genderInferred customer) None)
    (column (asReal (InsertCustomer.genderConfidence customer)) None)
    (default (InsertCustomer.enrichmentStatus customer) pending)
    (default (InsertCustomer.createdAt customer) now)
    (default (InsertCustomer.updatedAt customer) now).

(** [onConflictDoUpdate({ target: shopifyCustomerId, set: {...} })] on the
    row [r] that holds the key: the columns of [set], and no other. *)
Definition conflictUpdate {database : Database} (customer : InsertCustomer.t)
    (now : Z) (r : Customer.t) : Customer.t :=
  Customer.mk
    (Customer.id r)
    (Customer.shopifyCustomerId r)
    (column (InsertCustomer.email customer) (Customer.email r))
    (column (InsertCustomer.phone customer) (Customer.phone r))
    (column (InsertCustomer.firstName customer) (Customer.firstName r))
    (column (InsertCustomer.lastName customer) (Customer.lastName r))
    (column (InsertCustomer.city customer) (Customer.city r))
    (column (InsertCustomer.country customer) (Customer.country r))
    (column (InsertCustomer.province customer) (Customer.province r))
    (column (InsertCustomer.postalCode customer) (Customer.postalCode r))
    (column (InsertCustomer.tags customer) (Customer.tags r))
    (Customer.createdAtShopify r)
    (column (InsertCustomer.updatedAtShopify customer) (Customer.updatedAtShopify r))
    (column (InsertCustomer.lastOrderAt customer) (Customer.lastOrderAt r))
    (column (asReal (InsertCustomer.totalSpent customer)) (Customer.totalSpent r))
    (column (InsertCustomer.ordersCount customer) (Customer.ordersCount r))
    (Customer.genderInferred r)
    (Customer.genderConfidence r)
    (Customer.enrichmentStatus r)
    (Customer.createdAt r)
    now.

Definition has_key (k : Z) (r : Customer.t) : bool :=
  Customer.shopifyCustomerId r =? k.

(** The conflict-resolving write on the rows: the row that holds the key is
    updated in place, and a new row is added when none does. The result is
    the rows and the row [returning()] gives back. *)
Fixpoint upsertRows {database : Database} (customer : InsertCustomer.t)
    (id now : Z) (rows : list Customer.t) : list Customer.t * Customer.t :=
  match rows with
  | [] =>
      let r := insertedRow customer id now in
      ([r], r)
  | r :: rest =>
      if has_key (InsertCustomer.shopifyCustomerId customer) r then
        let r' := conflictUpdate customer now r in
        (r' :: rest, r')
      else
        let '(rest', result) := upsertRows customer id now rest in
        (r :: rest', result)
  end.

(** [getCustomerByShopifyId]. *)
Definition getCustomerByShopifyId (shopifyId : Z) (db : Db.t)
    : option Customer.t :=
  find (has_key shopifyId) (Db.customers db).

(** [getCustomerById]. *)
Definition getCustomerById (id : Z) (db : Db.t) : option Customer.t :=
  find (fun r => Customer.id r =? id) (Db.customers db).

(** [upsertCustomer], run at time [now], when the store takes the
    statement. The statement draws its [id] from the identity sequence before
    it looks for a conflict, so the sequence moves on whether or not a row
    is added. *)
Definition upsertCustomer {database : Database} (customer : InsertCustomer.t)
    (now : Z) (db : Db.t) : Customer.t * Db.t :=
  let '(rows, result) :=
    upsertRows customer (Db.customers_seq db) now (Db.customers db) in
  (result,
   Db.mk rows (Db.customers_seq db + 1) (Db.syncLogs db) (Db.syncLogs_seq db)).

(** [update(customers).set(f)] on every row that [sel] selects. *)
Definition updateWhere (sel : Customer.t -> bool) (f : Customer.t -> Customer.t)
    (db : Db.t) : Db.t :=
  Db.mk
    (map (fun r => if sel r then f r else r) (Db.customers db))
    (Db.customers_seq db) (Db.syncLogs db) (Db.syncLogs_seq db).

Definition setEnrichment (g : option Gender) (c : option Js.number)
    (s : EnrichmentStatus) (now : Z) (r : Customer.t) : Customer.t :=
  Customer.mk
    (Customer.id r) (Customer.shopifyCustomerId r) (Customer.email r)
    (Customer.phone r) (Customer.firstName r) (Customer.lastName r)
    (Customer.city r) (Customer.country r) (Customer.province r)
    (Customer.postalCode r) (Customer.tags r) (Customer.createdAtShopify r)
    (Customer.updatedAtShopify r) (Customer.lastOrderAt r)
    (Customer.totalSpent r) (Customer.ordersCount r)
    g c s (Customer.createdAt r) now.

(** [resetAllEnrichments]: every row, and the number of rows. *)
Definition resetAllEnrichments (now : Z) (db : Db.t) : Z * Db.t :=
  (Z.of_nat (List.length (Db.customers db)),
   updateWhere (fun _ => true) (setEnrichment None None pending now) db).

(** [createSyncLog], run at time [now] ([startedAt] defaults to it). *)
Definition createSyncLog (log : InsertSyncLog.t) (now : Z) (db : Db.t)
    : SyncLog.t * Db.t :=
  let row :=
    SyncLog.mk (Db.syncLogs_seq db) (InsertSyncLog.syncType log)
      (InsertSyncLog.status log) (Some 0) (Some 0) (Some 0) None now None in
  (row,
   Db.mk (Db.customers db) (Db.customers_seq db)
     (Db.syncLogs db ++ [row]) (Db.syncLogs_seq db + 1)).

Definition keep {A : Type} (u : option A) (old : option A) : option A :=
  match u with
  | Some v => Some v
  | None => old
  end.

Definition applyUpdates (u : SyncLogUpdates.t) (l : SyncLog.t) : SyncLog.t :=
  SyncLog.mk
    (SyncLog.id l)
    (SyncLog.syncType l)
    (default (SyncLogUpdates.status u) (SyncLog.status l))
    (keep (SyncLogUpdates.customersProcessed u) (SyncLog.customersProcessed l))
    (keep (SyncLogUpdates.customersCreated u) (SyncLog.customersCreated l))
    (keep (SyncLogUpdates.customersUpdated u) (SyncLog.customersUpdated l))
    (keep (SyncLogUpdates.errorMessage u) (SyncLog.errorMessage l))
    (SyncLog.startedAt l)
    (keep (SyncLogUpdates.completedAt u) (SyncLog.completedAt l)).

(** [updateSyncLog]. *)
Definition updateSyncLog (id : Z) (updates : SyncLogUpdates.t) (db : Db.t) : Db.t :=
  Db.mk (Db.customers db) (Db.customers_seq db)
    (map (fun l => if SyncLog.id l =? id then applyUpdates updates l else l)
       (Db.syncLogs db))
    (Db.syncLogs_seq db).

(** The first row of [orderBy(desc(startedAt))]; among rows started at the
    same instant the one that the server puts first. *)
Fixpoint latestLog {database : Database} (logs : list SyncLog.t)
    : option SyncLog.t :=
  match logs with
  | [] => None
  | l :: rest =>
      match latestLog rest with
      | Some m =>
          if SyncLog.startedAt m <? SyncLog.startedAt l then Some l
          else if SyncLog.startedAt l <? SyncLog.startedAt m then Some m
          else if puts_first l m then Some l else Some m
      | None => Some l
      end
  end.

(** [getLatestSyncLog]. *)
Definition getLatestSyncLog {database : Database} (db : Db.t)
    : option SyncLog.t :=
  latestLog (Db.syncLogs db).

Definition later (a b : option Z) : option Z :=
  match a, b with
  | Some x, Some y => Some (Z.max x y)
  | Some x, None => Some x
  | None, _ => b
  end.

(** Modelled from the spec: [getLatestCustomerUpdatedAt], which the sync job
    of the routes' revision calls and whose body is not among the sources:
    "the most recent customer's source-updated timestamp", none when no
    stored customer has one. *)
Definition getLatestCustomerUpdatedAt (db : Db.t) : option Z :=
  fold_right (fun r acc => later (Customer.updatedAtShopify r) acc) None
    (Db.customers db).

(** [upsertCustomers(customerList)]: the customers one by one, each written
    at the instant [clock] gives. [fails] says that the statement for a
    customer raised (it then wrote nothing), which the loop logs and passes
    over. *)
Definition upsertCustomers {database : Database}
    (fails : InsertCustomer.t -> bool)
    (clock : InsertCustomer.t -> Z) (customerList : list InsertCustomer.t)
    (db : Db.t) : Z * Db.t :=
  fold_left
    (fun (acc : Z * Db.t) customer =>
       let '(processed, db) := acc in
       if fails customer then (processed, db)
       else (processed + 1, snd (upsertCustomer customer (clock customer) db)))
    customerList (0, db).

(** *** [getCustomers] *)

(** A text of the filter that is there and not empty. *)
Definition given (text : option string) : option string :=
  match text with
  | Some s => if String.eqb s "" then None else Some s
  | None => None
  end.

(** [or(...values.map((v) => eq(column, v)))]: no row for a column that is
    [NULL]. *)
Definition eqAny (column : option string) (values : list string) : bool :=
  match column with
  | Some c => existsb (String.eqb c) values
  | None => false
  end.

(** [gte(column, value)] and [lte(column, value)] on a timestamp or an
    integer column. *)
Definition gteZ (column : option Z) (value : Z) : bool :=
  match column with
  | Some c => value <=? c
  | None => false
  end.

Definition lteZ (column : option Z) (value : Z) : bool :=
  match column with
  | Some c => c <=? value
  | None => false
  end.

(** [a <= b] on the values of a [real] column: NaN equals itself and is
    above every other value. *)
Definition real_le (a b : Js.number) : bool :=
  match a, b with
  | _, Js.NaN => true
  | Js.NaN, _ => false
  | _, _ => Js.leb a b
  end.

Definition gteReal (column : option Js.number) (value : Js.number) : bool :=
  match column with
  | Some c => real_le value c
  | None => false
  end.

Definition lteReal (column : option Js.number) (value : Js.number) : bool :=
  match column with
  | Some c => real_le c value
  | None => false
  end.

(** The date of a bound of the filter: none for a text that is missing or
    empty. The outer [None]: the text is there and is no date, and the
    query that is given the invalid date rejects. *)
Definition dateBound {database : Database} (text : option string)
    : option (option Z) :=
  match given text with
  | None => Some None
  | Some s =>
      match newDate s with
      | Some d => Some (Some d)
      | None => None
      end
  end.

Definition condition {A : Type} (bound : option A) (holds : A -> Customer.t -> bool)
    : list (Customer.t -> bool) :=
  match bound with
  | Some b => [holds b]
  | None => []
  end.

(** A list of the filter that is there and not empty. *)
Definition someOf {A : Type} (values : option (list A)) : option (list A) :=
  match values with
  | Some (v :: vs) => Some (v :: vs)
  | _ => None
  end.

(** The array [conditions], the four dates being read. *)
Definition conditions {database : Database} (f : CustomerFilter.t)
    (createdFrom createdTo lastOrderFrom lastOrderTo : option Z)
    : list (Customer.t -> bool) :=
  condition (someOf (CustomerFilter.genderInferred f))
    (fun genders r => eqAny (Customer.genderInferred r) genders)
  ++ condition createdFrom (fun d r => gteZ (Customer.createdAtShopify r) d)
  ++ condition createdTo (fun d r => lteZ (Customer.createdAtShopify r) d)
  ++ condition lastOrderFrom (fun d r => gteZ (Customer.lastOrderAt r) d)
  ++ condition lastOrderTo (fun d r => lteZ (Customer.lastOrderAt r) d)
  ++ condition (someOf (CustomerFilter.city f))
       (fun cities r => eqAny (Customer.city r) cities)
  ++ condition
       (someOf (option_map regionStates (CustomerFilter.region f)))
       (fun states r => eqAny (Customer.province r) states)
  ++ condition (someOf (CustomerFilter.province f))
       (fun provinces r => eqAny (Customer.province r) provinces)
  ++ condition (given (CustomerFilter.tag f))
       (fun tag r =>
          match Customer.tags r with
          | Some tags => ilike tags (String.append "%" (String.append tag "%"))
          | None => false
          end)
  ++ condition (CustomerFilter.minTotalSpent f)
       (fun v r => gteReal (Customer.totalSpent r) v)
  ++ condition (CustomerFilter.maxTotalSpent f)
       (fun v r => lteReal (Customer.totalSpent r) v)
  ++ condition (CustomerFilter.minOrdersCount f)
       (fun v r => gteZ (Customer.ordersCount r) v)
  ++ condition (CustomerFilter.maxOrdersCount f)
       (fun v r => lteZ (Customer.ordersCount r) v).

(** [and(...conditions)], and every row without a condition. *)
Definition whereClause (conditions : list (Customer.t -> bool))
    (r : Customer.t) : bool :=
  forallb (fun holds => holds r) conditions.

(** [n || d] on an integer. *)
Definition orZ (n d : Z) : Z := if n =? 0 then d else n.

(** [Math.ceil(totalCount / pageSize)] for a count that is not negative and
    a positive size. *)
Definition ceilDiv (totalCount pageSize : Z) : Z :=
  (totalCount + pageSize - 1) / pageSize.

Definition sortColumn (sortBy : option SortBy) : SortBy :=
  match sortBy with
  | Some column => column
  | None => ByCreatedAtShopify
  end.

Definition sortDirection (sortOrder : option SortOrder) : SortOrder :=
  match sortOrder with
  | Some Asc => Asc
  | _ => Desc
  end.

(** [getCustomers(filter)]. [None]: the call rejects, for a bound that is
    no date or for a LIMIT or an OFFSET that is negative. *)
Definition getCustomers {database : Database} (f : CustomerFilter.t)
    (db : Db.t) : option CustomerListResponse.t :=
  match
    dateBound (CustomerFilter.createdFrom f),
    dateBound (CustomerFilter.createdTo f),
    dateBound (CustomerFilter.lastOrderFrom f),
    dateBound (CustomerFilter.lastOrderTo f)
  with
  | Some createdFrom, Some createdTo, Some lastOrderFrom, Some lastOrderTo =>
      let selected :=
        filter
          (whereClause
             (conditions f createdFrom createdTo lastOrderFrom lastOrderTo))
          (Db.customers db) in
      let totalCount := Z.of_nat (List.length selected) in
      let page := orZ (CustomerFilter.page f) 1 in
      let pageSize := orZ (CustomerFilter.pageSize f) 25 in
      let offset := (page - 1) * pageSize in
      if (pageSize <? 0) || (offset <? 0) then None
      else
        let data :=
          firstn (Z.to_nat pageSize)
            (skipn (Z.to_nat offset)
               (orderBy (sortColumn (CustomerFilter.sortBy f))
                  (sortDirection (CustomerFilter.sortOrder f)) selected)) in
        Some
          (CustomerListResponse.mk data
             (Pagination.mk page pageSize totalCount
                (ceilDiv totalCount pageSize)))
  | _, _, _, _ => None
  end.

(** [getSyncStatus]. *)
Definition getSyncStatus {database : Database} (db : Db.t)
    : SyncStatusReport.t :=
  let latestLog := getLatestSyncLog db in
  SyncStatusReport.mk
    (match latestLog with
     | Some l => SyncLog.completedAt l
     | None => None
     end)
    (match latestLog with
     | Some l => match SyncLog.status l with running => true | _ => false end
     | None => false
     end)
    (Z.of_nat (List.length (Db.customers db))).

(** The rows of [selectDistinct({ tags })] where the column is neither
    [NULL] nor empty, in the order of the table. *)
Definition distinctTagTexts (db : Db.t) : list string :=
  nodup string_dec (Text.truthy (map Customer.tags (Db.customers db))).

(** One turn of [results.forEach]: the tags of a row go into the set. *)
Definition addTags (allTags : list string) (tags : string) : list string :=
  if String.eqb tags "" then allTags
  else
    fold_left
      (fun set tag =>
         let trimmed := Text.trim tag in
         if String.eqb trimmed "" then set else Text.add trimmed set)
      (Text.split "," tags) allTags.

(** [getDistinctTags]. *)
Definition getDistinctTags (db : Db.t) : list string :=
  Text.sort (fold_left addTags (distinctTagTexts db) []).

End DatabaseStorage.

(** ** server/enrichment.ts *)

Module Enrichment.

Record GenderInferenceResult : Type := {
  gender : string;
  confidence : Js.number
}.

(** How [openai.chat.completions.create] and the read of
    [response.choices[0].message.content] end: an exception (transport or
    API error, no choice), or the content, which may be [null]. *)
Inductive completion : Type :=
| Rejected
| Content (content : option string).

Definition unknown_result : GenderInferenceResult :=
  {| gender := "unknown"; confidence := Js.zero |}.

Definition validGenders : list string := ["male"; "female"; "unknown"].

(** [validGenders.includes(v)]. *)
Definition includes (xs : list string) (v : option Js.json) : bool :=
  match v with
  | Some (Js.JString s) => existsb (String.eqb s) xs
  | _ => false
  end.

(** The named properties of a parsed value that can hold some: an array has
    none called [gender] or [confidence]. On [null] the read of
    [result.gender] throws, and on a number, a string or a boolean the
    assignment [result.gender = ..] does (module code is strict). *)
Definition named_props (v : Js.json) : option (list (string * Js.json)) :=
  match v with
  | Js.JObject props => Some props
  | Js.JArray _ => Some []
  | _ => None
  end.

(** [inferGender], from the provider's reply on. The four arguments of the
    source only shape the prompt that is sent; building it cannot throw. *)
Definition inferGender {rt : Js.Runtime} (reply : completion)
    : GenderInferenceResult :=
  match reply with
  | Rejected => unknown_result
  | Content None => unknown_result
  | Content (Some content) =>
      if String.eqb content "" then unknown_result
      else
        match Js.JSON_parse content with
        | None => unknown_result
        | Some result =>
            match named_props result with
            | None => unknown_result
            | Some props =>
                let g :=
                  if includes validGenders (Js.get "gender" props) then
                    match Js.get "gender" props with
                    | Some (Js.JString s) => s
                    | _ => "unknown"
                    end
                  else "unknown" in
                match
                  Js.ToNumber
                    (Js.or_else (Js.get "confidence" props) (Js.JNumber Js.zero))
                with
                | None => unknown_result
                | Some n =>
                    {| gender := g;
                       confidence := Js.Math_max Js.zero (Js.Math_min Js.one n) |}
                end
            end
        end
  end.

Definition is_pending (r : Customer.t) : bool :=
  EnrichmentStatus_eqb (Customer.enrichmentStatus r) pending.

(** The update of the [try] block, on the row whose [id] is given; the
    confidence goes to a column of type [real]. *)
Definition storeResult {database : DatabaseStorage.Database} (id : Z)
    (result : GenderInferenceResult) (now : Z) (db : Db.t) : Db.t :=
  DatabaseStorage.updateWhere (fun r => Customer.id r =? id)
    (DatabaseStorage.setEnrichment (Some (gender result))
       (Some (DatabaseStorage.real (confidence result))) complete now)
    db.

(** The update of the [catch] block: the status alone. *)
Definition markFailed (id : Z) (now : Z) (db : Db.t) : Db.t :=
  DatabaseStorage.updateWhere (fun r => Customer.id r =? id)
    (fun r =>
       DatabaseStorage.setEnrichment (Customer.genderInferred r)
         (Customer.genderConfidence r) failed now r)
    db.

(** One turn of the loop of [enrichPendingCustomers] for the selected
    [customer]. [throws] says that the [try] block raised before its update
    took effect. The write-back to the shop changes nothing here. *)
Definition enrichOne {rt : Js.Runtime}
    {database : DatabaseStorage.Database} (provider : Customer.t -> completion)
    (throws : Customer.t -> bool) (now : Z) (customer : Customer.t)
    (acc : Z * Db.t) : Z * Db.t :=
  let '(enrichedCount, db) := acc in
  if throws customer then
    (enrichedCount, markFailed (Customer.id customer) now db)
  else
    (enrichedCount + 1,
     storeResult (Customer.id customer) (inferGender (provider customer)) now db).

(** [enrichPendingCustomers(batchSize)]. The query that selects the pending
    customers has no ORDER BY: they are taken here in the order of the
    table. *)
Definition enrichPendingCustomers {rt : Js.Runtime}
    {database : DatabaseStorage.Database} (batchSize : nat)
    (provider : Customer.t -> completion) (throws : Customer.t -> bool)
    (now : Z) (db : Db.t) : Z * Db.t :=
  let pendingCustomers := firstn batchSize (filter is_pending (Db.customers db)) in
  fold_left (fun acc customer => enrichOne provider throws now customer acc)
    pendingCustomers (0, db).

(** The loop of [enrichAllPendingCustomers] and of [runEnrichmentLoop],
    entered with [hasMore] true: one call of [enrichPendingCustomers] per
    round, the rounds numbered from [round] and run at the instants that
    [clock] gives, as long as a round has enriched a customer. [rounds]
    bounds the number of rounds; [None]: the loop has not ended within
    them. *)
Fixpoint enrichLoop {rt : Js.Runtime}
    {database : DatabaseStorage.Database} (rounds : nat) (batchSize : nat)
    (provider : Customer.t -> completion) (throws : Customer.t -> bool)
    (clock : nat -> Z) (round : nat) (totalEnriched : Z) (db : Db.t)
    : option (Z * Db.t) :=
  match rounds with
  | O => None
  | S more =>
      let '(enriched, db') :=
        enrichPendingCustomers batchSize provider throws (clock round) db in
      let totalEnriched' := totalEnriched + enriched in
      if 0 <? enriched
      then enrichLoop more batchSize provider throws clock (S round)
             totalEnriched' db'
      else Some (totalEnriched', db')
  end.

(** [enrichAllPendingCustomers(batchSize)]. *)
Definition enrichAllPendingCustomers {rt : Js.Runtime}
    {database : DatabaseStorage.Database} (rounds : nat)
    (batchSize : nat) (provider : Customer.t -> completion)
    (throws : Customer.t -> bool) (clock : nat -> Z) (db : Db.t)
    : option (Z * Db.t) :=
  enrichLoop rounds batchSize provider throws clock 0 0 db.

(** [runEnrichmentLoop()]: batches of 10; it resolves to nothing, the
    total only goes to the log. *)
Definition runEnrichmentLoop {rt : Js.Runtime}
    {database : DatabaseStorage.Database} (rounds : nat)
    (provider : Customer.t -> completion) (throws : Customer.t -> bool)
    (clock : nat -> Z) (db : Db.t) : option Db.t :=
  option_map snd (enrichLoop rounds 10 provider throws clock 0 0 db).

End Enrichment.

(** ** server/shopifyClient.ts *)

Module ShopifyClient.

Module Address.
Record t : Type := mk {
  city : option string;
  country : option string;
  province : option string;
  zip : option string
}.
End Address.

(** A customer as the platform sends it ([interface ShopifyCustomer]). *)
Module ShopifyCustomer.
Record t : Type := mk {
  id : Z;
  email : option string;
  phone : option string;
  first_name : option string;
  last_name : option string;
  created_at : string;
  updated_at : string;
  tags : string;
  orders_count : Z;
  total_spent : string;
  last_order_id : option Z;
  default_address : field Address.t
}.
End ShopifyCustomer.

(** [interface TransformedCustomer]; each of its two dates may be the
    Invalid Date, [None]. *)
Module TransformedCustomer.
Record t : Type := mk {
  shopifyCustomerId : Z;
  email : option string;
  phone : option string;
  firstName : option string;
  lastName : option string;
  city : option string;
  country : option string;
  province : option string;
  postalCode : option string;
  tags : option string;
  ordersCount : Z;
  totalSpent : Js.number;
  createdAtShopify : option Z;
  updatedAtShopify : option Z
}.
End TransformedCustomer.

(** [s || null] on a string that may be [null] or [undefined]. *)
Definition string_or_null (s : option string) : option string :=
  match s with
  | Some x => if String.eqb x "" then None else Some x
  | None => None
  end.

(** [customer.default_address?.p]: [None] covers [undefined] and [null]. *)
Definition address_prop (p : Address.t -> option string)
    (a : field Address.t) : option string :=
  match a with
  | Val (Some addr) => p addr
  | _ => None
  end.

Definition transformCustomer {rt : Js.Runtime} (customer : ShopifyCustomer.t)
    : TransformedCustomer.t :=
  TransformedCustomer.mk
    (ShopifyCustomer.id customer)
    (ShopifyCustomer.email customer)
    (ShopifyCustomer.phone customer)
    (ShopifyCustomer.first_name customer)
    (ShopifyCustomer.last_name customer)
    (string_or_null (address_prop Address.city (ShopifyCustomer.default_address customer)))
    (string_or_null (address_prop Address.country (ShopifyCustomer.default_address customer)))
    (string_or_null (address_prop Address.province (ShopifyCustomer.default_address customer)))
    (string_or_null (address_prop Address.zip (ShopifyCustomer.default_address customer)))
    (string_or_null (Some (ShopifyCustomer.tags customer)))
    (ShopifyCustomer.orders_count customer)
    (Js.number_or (Js.parseFloat (ShopifyCustomer.total_spent customer)) Js.zero)
    (Js.Date_parse (ShopifyCustomer.created_at customer))
    (Js.Date_parse (ShopifyCustomer.updated_at customer)).

(** An HTTP response of the platform, as far as the client reads it:
    [callLimit] holds the two numbers that [Number] reads off the parts of
    the header X-Shopify-Shop-Api-Call-Limit around its slash (NaN for a
    part that is missing), [linkNext] the page_info that the client's
    pattern captures in a Link header with rel next (never empty). *)
Module Response.
Record t : Type := mk {
  status : Z;
  callLimit : option (Js.number * Js.number);
  retryAfter : option string;
  linkNext : option string;
  customers : list ShopifyCustomer.t;
  text : string
}.

(** [response.ok]. *)
Definition ok (r : t) : bool := (200 <=? status r) && (status r <=? 299).
End Response.

(** What one call of [fetch] meets: a response, or a rejection. *)
Inductive reply : Type :=
| NetworkError
| Http (r : Response.t).

Inductive endpoint : Type :=
| CustomersFirst (limit : Z) (updated_at_min : option Z)
| CustomersPage (limit : Z) (page_info : string)
| Path (path : string).

(** What the client does to the outside, in order. A delay of [None]
    milliseconds is [delay(NaN)]. *)
Inductive event : Type :=
| Fetch (e : endpoint)
| Delay (ms : option Z).

(** The errors that the code throws or passes on. [StoreError]: an error
    that comes from below the code, with the message given: a statement of
    the store was rejected, its driver threw, or [toISOString] threw its
    RangeError on the Invalid Date. *)
Inductive error : Type :=
| CredentialsNotConfigured
| FetchFailed
| ApiError (status : Z) (text : string)
| CallbackError (message : string)
| StoreError (message : string).

(** How an [async] function ends. [Pending]: it still awaits a reply that
    the replies at hand do not hold. *)
Inductive outcome (A : Type) : Type :=
| Returned (a : A)
| Thrown (e : error)
| Pending.

Arguments Returned {A} a.
Arguments Thrown {A} e.
Arguments Pending {A}.

Record RateLimitInfo : Type := {
  current : Js.number;
  max : Js.number
}.

Definition initialRateLimitInfo : RateLimitInfo :=
  {| current := Js.zero; max := Js.of_Z 40 |}.

Definition parseRateLimitHeader (header : option (Js.number * Js.number))
    : RateLimitInfo :=
  match header with
  | None => initialRateLimitInfo
  | Some (c, m) =>
      {| current := Js.number_or c Js.zero; max := Js.number_or m (Js.of_Z 40) |}
  end.

(** [lastRateLimitInfo.current >= lastRateLimitInfo.max - 5]. *)
Definition near_limit (info : RateLimitInfo) : bool :=
  Js.leb (Js.sub_Z (max info) 5) (current info).

(** The module's state and surroundings: the replies still to come, the
    variable [lastRateLimitInfo], and what was done so far. *)
Record Client : Type := {
  replies : list reply;
  lastRateLimitInfo : RateLimitInfo;
  trace : list event
}.

Definition start (script : list reply) : Client :=
  {| replies := script; lastRateLimitInfo := initialRateLimitInfo; trace := [] |}.

(** [retryAfter ? parseInt(retryAfter) * 1000 : 5000]. *)
Definition waitTime (retryAfter : option string) : option Z :=
  match retryAfter with
  | None => Some 5000
  | Some s =>
      if String.eqb s "" then Some 5000
      else option_map (fun n => n * 1000) (Js.parseInt s)
  end.

(** [shopifyFetch]: one call of [fetch] per reply, and one more call of
    itself after each 429. *)
Fixpoint shopifyFetch_rec (configured : bool) (e : endpoint)
    (script : list reply) (info : RateLimitInfo) (tr : list event)
    : outcome (list ShopifyCustomer.t) * Client :=
  if negb configured then
    (Thrown CredentialsNotConfigured,
     {| replies := script; lastRateLimitInfo := info; trace := tr |})
  else
    let tr1 := if near_limit info then tr ++ [Delay (Some 2000)] else tr in
    let tr2 := tr1 ++ [Fetch e] in
    match script with
    | [] =>
        (Pending, {| replies := []; lastRateLimitInfo := info; trace := tr2 |})
    | NetworkError :: rest =>
        (Thrown FetchFailed,
         {| replies := rest; lastRateLimitInfo := info; trace := tr2 |})
    | Http response :: rest =>
        let info' := parseRateLimitHeader (Response.callLimit response) in
        if Response.status response =? 429 then
          shopifyFetch_rec configured e rest info'
            (tr2 ++ [Delay (waitTime (Response.retryAfter response))])
        else if negb (Response.ok response) then
          (Thrown (ApiError (Response.status response) (Response.text response)),
           {| replies := rest; lastRateLimitInfo := info'; trace := tr2 |})
        else
          (Returned (Response.customers response),
           {| replies := rest; lastRateLimitInfo := info'; trace := tr2 |})
    end.

Definition shopifyFetch (configured : bool) (e : endpoint) (c : Client)
    : outcome (list ShopifyCustomer.t) * Client :=
  shopifyFetch_rec configured e (replies c) (lastRateLimitInfo c) (trace c).

(** [fetchCustomersPage]: a single page through [shopifyFetch]. *)
Definition fetchCustomersPage {rt : Js.Runtime} (configured : bool)
    (pageInfo : option string) (c : Client)
    : outcome (list TransformedCustomer.t) * Client :=
  let e :=
    match string_or_null pageInfo with
    | Some p => CustomersPage 250 p
    | None => CustomersFirst 250 None
    end in
  match shopifyFetch configured e c with
  | (Returned customers, c') => (Returned (map transformCustomer customers), c')
  | (Thrown err, c') => (Thrown err, c')
  | (Pending, c') => (Pending, c')
  end.

Section FetchAll.

Context {rt : Js.Runtime} {St : Type}.

(** The callback: the state it leaves, and the error it threw if it did. *)
Variable onBatch : list TransformedCustomer.t -> St -> St * option error.

Variable updatedAtMin : option Z.

(** The loop of [fetchAllCustomers], entered with [hasMore] true: one turn
    per reply. *)
Fixpoint fetchAll_loop (pageInfo : option string) (script : list reply)
    (info : RateLimitInfo) (tr : list event) (totalProcessed : Z) (st : St)
    : outcome Z * Client * St :=
  let e :=
    match pageInfo with
    | Some p => CustomersPage 250 p
    | None => CustomersFirst 250 updatedAtMin
    end in
  let tr1 := tr ++ [Fetch e] in
  match script with
  | [] =>
      (Pending, {| replies := []; lastRateLimitInfo := info; trace := tr1 |}, st)
  | NetworkError :: rest =>
      (Thrown FetchFailed,
       {| replies := rest; lastRateLimitInfo := info; trace := tr1 |}, st)
  | Http response :: rest =>
      if negb (Response.ok response) then
        (Thrown (ApiError (Response.status response) (Response.text response)),
         {| replies := rest; lastRateLimitInfo := info; trace := tr1 |}, st)
      else
        let info' := parseRateLimitHeader (Response.callLimit response) in
        let pageInfo' := string_or_null (Response.linkNext response) in
        let transformedCustomers :=
          map transformCustomer (Response.customers response) in
        let '(st', thrown) :=
          match transformedCustomers with
          | [] => (st, None)
          | _ :: _ => onBatch transformedCustomers st
          end in
        match thrown with
        | Some err =>
            (Thrown err,
             {| replies := rest; lastRateLimitInfo := info'; trace := tr1 |}, st')
        | None =>
            let totalProcessed' :=
              totalProcessed + Z.of_nat (List.length transformedCustomers) in
            let hasMore :=
              match pageInfo' with Some _ => true | None => false end
              && (Z.of_nat (List.length (Response.customers response)) =? 250) in
            let tr2 :=
              tr1 ++ [Delay (Some (if near_limit info' then 2000 else 500))] in
            if hasMore then
              fetchAll_loop pageInfo' rest info' tr2 totalProcessed' st'
            else
              (Returned totalProcessed',
               {| replies := rest; lastRateLimitInfo := info'; trace := tr2 |},
               st')
        end
  end.

(** [fetchAllCustomers(updatedAtMin, onBatch)]. *)
Definition fetchAllCustomers (c : Client) (st : St) : outcome Z * Client * St :=
  fetchAll_loop None (replies c) (lastRateLimitInfo c) (trace c) 0 st.

End FetchAll.

(** A callback that only records the batches it is handed. *)
Definition recordBatches (batch : list TransformedCustomer.t)
    (seen : list (list TransformedCustomer.t))
    : list (list TransformedCustomer.t) * option error :=
  (seen ++ [batch], None).

(** *** [verifyWebhookSignature] *)

(** Node's [crypto] module, taken as it comes:
    [createHmac("sha256", key).update(body, "utf8").digest("base64")]. *)
Class Crypto : Type := {
  hmacSha256Base64 : string -> string -> string
}.

(** The number of bytes of [Buffer.from(s)], the UTF-8 encoding of [s]: one
    for a code unit below 128, two for the others below 256. *)
Fixpoint byteLength (s : string) : nat :=
  match s with
  | EmptyString => 0%nat
  | String c rest =>
      ((if Nat.ltb (nat_of_ascii c) 128 then 1 else 2) + byteLength rest)%nat
  end.

(** How [verifyWebhookSignature] ends: it returns a boolean, or
    [crypto.timingSafeEqual] throws its RangeError. *)
Inductive verdict : Type :=
| Verdict (accepted : bool)
| RangeError.

(** [verifyWebhookSignature(body, signature)]; [secret] is the variable
    SHOPIFY_WEBHOOK_SECRET of the environment. *)
Definition verifyWebhookSignature {crypto : Crypto} (secret : option string)
    (body signature : string) : verdict :=
  match secret with
  | None => Verdict false
  | Some key =>
      if String.eqb key "" then Verdict false
      else
        let hash := hmacSha256Base64 key body in
        if Nat.eqb (byteLength hash) (byteLength signature)
        then Verdict (String.eqb hash signature)
        else RangeError
  end.

End ShopifyClient.

(** ** server/syncJob.ts *)

Module SyncJob.

Import ShopifyClient.

(** The environment variables read when the module loads, and the tag
    write-back [applyGenderTag], whose request to the platform
    ([updateCustomerTags]) changes nothing here: only whether it threw
    matters. [INCREMENTAL_SYNC_START_DATE] is [Some None] when the variable
    is set to a text that is no date: the constant is then the Invalid
    Date. *)
Class Config : Type := {
  INCREMENTAL_SYNC_START_DATE : option (option Z);
  SYNC_GENDER_TO_TAGS : bool;
  applyGenderTag : Customer.t -> option error
}.

(** The counters of one run, and what [syncCustomers] resolves to. *)
Record Counters : Type := {
  processed : Z;
  created : Z;
  updated : Z
}.

Definition noCounts : Counters := {| processed := 0; created := 0; updated := 0 |}.

(** [d.setMinutes(d.getMinutes() - 5)]: the minutes are those of local
    time, so the date goes to local time, back by five minutes, and from
    local time to the instant again. *)
Definition minus5Minutes {rt : Js.Runtime} (d : Z) : Z :=
  Js.UTC (Js.LocalTime d - 5 * 60 * 1000).

(** [a || b] on two dates that may be [undefined]. *)
Definition date_or {A : Type} (a b : option A) : option A :=
  match a with
  | Some d => Some d
  | None => b
  end.

(** [latestLog?.completedAt]. *)
Definition completedAt_of (latestLog : option SyncLog.t) : option Z :=
  match latestLog with
  | Some l => SyncLog.completedAt l
  | None => None
  end.

(** How the block that computes [updatedAtMin] ends, up to the line that
    logs the date: with the value of the variable ([inr]), or with the
    message of the error it throws ([inl]), which is the rejection of the
    statement that it awaited, or the RangeError of [toISOString] on the
    Invalid Date. [db] is the store as the block finds it. [startDate] is a
    date: the route that passes one answers 400 to a text that is none. *)
Definition updatedAtMin {rt : Js.Runtime} {cfg : Config}
    {database : DatabaseStorage.Database} (incremental : bool)
    (startDate : option Z) (db : Db.t) : string + option Z :=
  if incremental then
    match date_or (option_map Some startDate) INCREMENTAL_SYNC_START_DATE with
    | Some (Some baseDate) => inr (Some (minus5Minutes baseDate))
    | Some None => inl "Invalid time value"
    | None =>
        match DatabaseStorage.rejects DatabaseStorage.GetLatestSyncLog db with
        | Some rejection => inl rejection
        | None =>
            inr (option_map minus5Minutes
                   (completedAt_of (DatabaseStorage.getLatestSyncLog db)))
        end
    end
  else inr None.

(** [existing?.enrichmentStatus || "pending"]. *)
Definition status_or_pending (existing : option Customer.t) : EnrichmentStatus :=
  match existing with
  | Some r => Customer.enrichmentStatus r
  | None => pending
  end.

(** The object [insertData] of [onBatch], as the driver of the store encodes
    it. [None]: one of its two dates is the Invalid Date, which the driver
    cannot encode ([toISOString] throws a RangeError), so that
    [upsertCustomer] throws before a statement is sent. *)
Definition insertData (customer : TransformedCustomer.t)
    (existing : option Customer.t) : option InsertCustomer.t :=
  match
    TransformedCustomer.createdAtShopify customer,
    TransformedCustomer.updatedAtShopify customer
  with
  | Some createdAtShopify, Some updatedAtShopify =>
      Some
        (InsertCustomer.mk
           (TransformedCustomer.shopifyCustomerId customer)
           (Val (TransformedCustomer.email customer))
           (Val (TransformedCustomer.phone customer))
           (Val (TransformedCustomer.firstName customer))
           (Val (TransformedCustomer.lastName customer))
           (Val (TransformedCustomer.city customer))
           (Val (TransformedCustomer.country customer))
           (Val (TransformedCustomer.province customer))
           (Val (TransformedCustomer.postalCode customer))
           (Val (TransformedCustomer.tags customer))
           (Val (Some createdAtShopify))
           (Val (Some updatedAtShopify))
           Undefined
           (Val (Some (TransformedCustomer.totalSpent customer)))
           (Val (Some (TransformedCustomer.ordersCount customer)))
           (field_of_existing Customer.genderInferred existing)
           (field_of_existing Customer.genderConfidence existing)
           (Some (status_or_pending existing))
           None
           None)
  | _, _ => None
  end.

(** The RangeError of [toISOString] on the Invalid Date. *)
Definition invalidTime : error := StoreError "Invalid time value".

(** [g && g !== "unknown"] on a stored gender. *)
Definition known_gender (g : option Gender) : bool :=
  match g with
  | Some s => negb (String.eqb s "") && negb (String.eqb s "unknown")
  | None => false
  end.

Definition count (existing : option Customer.t) (n : Counters) : Counters :=
  match existing with
  | Some _ =>
      {| processed := processed n + 1; created := created n;
         updated := updated n + 1 |}
  | None =>
      {| processed := processed n + 1; created := created n + 1;
         updated := updated n |}
  end.

(** One turn of the loop of [onBatch], the row being written at [now]: the
    store and the counters it leaves, and the error with which it threw, if
    it did. *)
Definition syncOne {cfg : Config} {database : DatabaseStorage.Database}
    (now : Z) (customer : TransformedCustomer.t)
    (st : Db.t * Counters) : (Db.t * Counters) * option error :=
  let '(db, n) := st in
  let shopifyId := TransformedCustomer.shopifyCustomerId customer in
  match
    DatabaseStorage.rejects (DatabaseStorage.GetCustomerByShopifyId shopifyId) db
  with
  | Some rejection => ((db, n), Some (StoreError rejection))
  | None =>
      let existing := DatabaseStorage.getCustomerByShopifyId shopifyId db in
      match insertData customer existing with
      | None => ((db, n), Some invalidTime)
      | Some payload =>
          match
            DatabaseStorage.rejects (DatabaseStorage.UpsertCustomer payload) db
          with
          | Some rejection => ((db, n), Some (StoreError rejection))
          | None =>
              let '(upserted, db') :=
                DatabaseStorage.upsertCustomer payload now db in
              let thrown :=
                if SYNC_GENDER_TO_TAGS
                   && known_gender (Customer.genderInferred upserted)
                then applyGenderTag upserted
                else None in
              match thrown with
              | Some err => ((db', n), Some err)
              | None => ((db', count existing n), None)
              end
          end
      end
  end.

(** [onBatch]; [clock] gives the instant at which a customer's row is
    written. *)
Fixpoint onBatch {cfg : Config} {database : DatabaseStorage.Database}
    (clock : TransformedCustomer.t -> Z)
    (customers : list TransformedCustomer.t) (st : Db.t * Counters)
    : (Db.t * Counters) * option error :=
  match customers with
  | [] => (st, None)
  | customer :: rest =>
      match syncOne (clock customer) customer st with
      | (st', None) => onBatch clock rest st'
      | (st', Some err) => (st', Some err)
      end
  end.

(** [error.message]. *)
Definition message (e : error) : string :=
  match e with
  | CredentialsNotConfigured => "Shopify credentials not configured"
  | FetchFailed => "fetch failed"
  | ApiError status text =>
      String.append "Shopify API error "
        (String.append (NilZero.string_of_int (Z.to_int status))
           (String.append ": " text))
  | CallbackError m => m
  | StoreError m => m
  end.

Definition completedUpdates (n : Counters) (now : Z) : SyncLogUpdates.t :=
  SyncLogUpdates.mk (Some completed) (Some (processed n)) (Some (created n))
    (Some (updated n)) None (Some now).

Definition failedUpdates (errorMessage : string) (now : Z) : SyncLogUpdates.t :=
  SyncLogUpdates.mk (Some sync_failed) None None None (Some errorMessage) (Some now).

Definition syncTypeOf (incremental : bool) : SyncType :=
  if incremental then Incremental else Full.

Definition runningLog (incremental : bool) : InsertSyncLog.t :=
  InsertSyncLog.mk (syncTypeOf incremental) running.

(** What the two revisions of [syncCustomers] share: all but the block that
    computes [updatedAtMin], here [since], and the callback [onBatch]. *)
Section SyncRun.

Context {rt : Js.Runtime} {database : DatabaseStorage.Database}.

Variable since : Db.t -> string + option Z.

Variable onBatch :
  list TransformedCustomer.t -> Db.t * Counters -> (Db.t * Counters) * option error.

(** The [catch] block, entered with the log created, and [finally]: the
    update that marks the log failed, and the error that goes to the caller;
    when that update is rejected, its error goes to the caller and the log
    stays as it was. *)
Definition failWith (syncLog : SyncLog.t) (err : error) (settledAt : Z)
    (client : Client) (db : Db.t) : outcome Counters * bool * Client * Db.t :=
  let updates := failedUpdates (message err) settledAt in
  match
    DatabaseStorage.rejects
      (DatabaseStorage.UpdateSyncLog (SyncLog.id syncLog) updates) db
  with
  | Some rejection => (Thrown (StoreError rejection), false, client, db)
  | None =>
      (Thrown err, false, client,
       DatabaseStorage.updateSyncLog (SyncLog.id syncLog) updates db)
  end.

(** The body of [syncCustomers], for a run that nothing else interleaves
    with: the log is created at [startedAt], and the update that settles it
    carries the instant [settledAt]. The result is how the call ends, the
    flag [isSyncing] it leaves, the client and the store. When
    [createSyncLog] is rejected, [syncLog] is still [undefined] in the
    [catch] block, which then updates no log. The enrichment sweep that a
    completed run schedules runs after it has returned. *)
Definition syncWith (incremental : bool) (startedAt settledAt : Z)
    (isSyncing : bool) (client : Client) (db : Db.t)
    : outcome Counters * bool * Client * Db.t :=
  if isSyncing then (Returned noCounts, isSyncing, client, db)
  else
    match
      DatabaseStorage.rejects
        (DatabaseStorage.CreateSyncLog (runningLog incremental)) db
    with
    | Some rejection => (Thrown (StoreError rejection), false, client, db)
    | None =>
        let '(syncLog, db1) :=
          DatabaseStorage.createSyncLog (runningLog incremental) startedAt db in
        match since db1 with
        | inl rejection =>
            failWith syncLog (StoreError rejection) settledAt client db1
        | inr updatedAtMin =>
            let '(ended, client', (db2, n)) :=
              fetchAllCustomers onBatch updatedAtMin client (db1, noCounts) in
            match ended with
            | Returned _ =>
                let updates := completedUpdates n settledAt in
                match
                  DatabaseStorage.rejects
                    (DatabaseStorage.UpdateSyncLog (SyncLog.id syncLog) updates)
                    db2
                with
                | Some rejection =>
                    failWith syncLog (StoreError rejection) settledAt client' db2
                | None =>
                    (Returned n, false, client',
                     DatabaseStorage.updateSyncLog (SyncLog.id syncLog) updates db2)
                end
            | Thrown err => failWith syncLog err settledAt client' db2
            | Pending => (Pending, true, client', db2)
            end
        end
    end.

End SyncRun.

(** [syncCustomers({ incremental, startDate })]. *)
Definition syncCustomers {rt : Js.Runtime} {cfg : Config}
    {database : DatabaseStorage.Database}
    (incremental : bool) (startDate : option Z)
    (clock : TransformedCustomer.t -> Z) (startedAt settledAt : Z)
    (isSyncing : bool) (client : Client) (db : Db.t)
    : outcome Counters * bool * Client * Db.t :=
  syncWith (updatedAtMin incremental startDate) (onBatch clock)
    incremental startedAt settledAt isSyncing client db.

(** *** Calls of [syncCustomers] that interleave

    Between two [await]s a call runs alone; at an [await] any other call or
    handler of the process may run. A call in flight stands at one of
    three places. *)
Inductive place : Type :=
| CreatingLog (incremental : bool) (startDate : option Z)
| InTry (syncLog : SyncLog.t) (n : Counters)
| Settled (ended : outcome Counters).

(** The process: the module variable [isSyncing], the store, and the calls
    of [syncCustomers] that have not returned. *)
Record Process : Type := {
  isSyncing : bool;
  db : Db.t;
  calls : list place
}.

(** A call of [syncCustomers] up to its first [await]: with the flag set it
    returns at once, and it sets the flag otherwise. *)
Definition enter (incremental : bool) (startDate : option Z) (p : Process)
    : Process * option Counters :=
  if isSyncing p then (p, Some noCounts)
  else
    ({| isSyncing := true; db := db p;
        calls := calls p ++ [CreatingLog incremental startDate] |},
     None).

(** What a call and the rest of the process can do between two [await]s,
    the update that settles a log being taken by the store. A call whose
    [createSyncLog] is rejected goes to its [finally] without a log; a call
    in its [try] block can fail with any error, be it of the platform, of
    the callback or of the store. *)
Inductive step {cfg : Config} {database : DatabaseStorage.Database}
    : Process -> Process -> Prop :=
| step_enter : forall incremental startDate p,
    step p (fst (enter incremental startDate p))
| step_log_created : forall p before after incremental startDate now,
    calls p = before ++ CreatingLog incremental startDate :: after ->
    step p
      {| isSyncing := isSyncing p;
         db := snd (DatabaseStorage.createSyncLog (runningLog incremental) now (db p));
         calls :=
           before
           ++ InTry (fst (DatabaseStorage.createSyncLog (runningLog incremental) now (db p)))
                noCounts
           :: after |}
| step_log_rejected : forall p before after incremental startDate err,
    calls p = before ++ CreatingLog incremental startDate :: after ->
    step p
      {| isSyncing := isSyncing p; db := db p;
         calls := before ++ Settled (Thrown err) :: after |}
| step_customer : forall p before after syncLog n now customer db' n',
    calls p = before ++ InTry syncLog n :: after ->
    syncOne now customer (db p, n) = ((db', n'), None) ->
    step p
      {| isSyncing := isSyncing p; db := db';
         calls := before ++ InTry syncLog n' :: after |}
| step_completed : forall p before after syncLog n now,
    calls p = before ++ InTry syncLog n :: after ->
    step p
      {| isSyncing := isSyncing p;
         db := DatabaseStorage.updateSyncLog (SyncLog.id syncLog)
                 (completedUpdates n now) (db p);
         calls := before ++ Settled (Returned n) :: after |}
| step_failed : forall p before after syncLog n now err,
    calls p = before ++ InTry syncLog n :: after ->
    step p
      {| isSyncing := isSyncing p;
         db := DatabaseStorage.updateSyncLog (SyncLog.id syncLog)
                 (failedUpdates (message err) now) (db p);
         calls := before ++ Settled (Thrown err) :: after |}
| step_finally : forall p before after ended,
    calls p = before ++ Settled ended :: after ->
    step p {| isSyncing := false; db := db p; calls := before ++ after |}
| step_other : forall p db',
    Db.syncLogs db' = Db.syncLogs (db p) ->
    Db.syncLogs_seq db' = Db.syncLogs_seq (db p) ->
    step p {| isSyncing := isSyncing p; db := db'; calls := calls p |}.

(** The [catch] block of a call whose log is created, when the store
    rejects the update that marks the log failed: the call goes to its
    [finally] with the error of that update, and the log stays as it
    was. *)
Inductive unsettled : Process -> Process -> Prop :=
| unsettled_call : forall p before after syncLog n err,
    calls p = before ++ InTry syncLog n :: after ->
    unsettled p
      {| isSyncing := isSyncing p; db := db p;
         calls := before ++ Settled (Thrown err) :: after |}.

(** [runs k p q]: the process goes from [p] to [q], the store rejecting
    [k] times the update that settles a log. *)
Inductive runs {cfg : Config} {database : DatabaseStorage.Database}
    : nat -> Process -> Process -> Prop :=
| runs_refl : forall p, runs 0 p p
| runs_step : forall k p q r, runs k p q -> step q r -> runs k p r
| runs_unsettled : forall k p q r, runs k p q -> unsettled q r -> runs (S k) p r.

Definition is_running (l : SyncLog.t) : bool :=
  match SyncLog.status l with
  | running => true
  | _ => false
  end.

(** The Sync Logs in state running. *)
Definition runningLogs (d : Db.t) : list SyncLog.t :=
  filter is_running (Db.syncLogs d).

(** A process as it starts: the flag is clear and no call is in flight. *)
Definition idle (p : Process) : Prop :=
  isSyncing p = false /\ calls p = [].

End SyncJob.

(** ** server/syncJob.ts, the revision that infers while it syncs

    The revision that the routes' revision is written against: the window
    also looks at the stored customers, and [onBatch] asks for an inference
    for a customer that is new or not yet complete. *)

Module SyncJobInference.

Import ShopifyClient.

(** How the block that computes [updatedAtMin] ends, as in [SyncJob].
    [getLatestCustomerUpdatedAt] is the method of the store that this
    revision calls; its body is not among the sources, so it is taken as it
    comes. *)
Definition updatedAtMin {rt : Js.Runtime} {cfg : SyncJob.Config}
    {database : DatabaseStorage.Database}
    (getLatestCustomerUpdatedAt : Db.t -> option Z) (incremental : bool)
    (startDate : option Z) (db : Db.t) : string + option Z :=
  if incremental then
    match
      SyncJob.date_or (option_map Some startDate)
        SyncJob.INCREMENTAL_SYNC_START_DATE
    with
    | Some (Some baseDate) => inr (Some (SyncJob.minus5Minutes baseDate))
    | Some None => inl "Invalid time value"
    | None =>
        match
          DatabaseStorage.rejects DatabaseStorage.GetLatestCustomerUpdatedAt db
        with
        | Some rejection => inl rejection
        | None =>
            match getLatestCustomerUpdatedAt db with
            | Some latestCustomerDate =>
                inr (Some (SyncJob.minus5Minutes latestCustomerDate))
            | None =>
                match
                  DatabaseStorage.rejects DatabaseStorage.GetLatestSyncLog db
                with
                | Some rejection => inl rejection
                | None =>
                    inr (option_map SyncJob.minus5Minutes
                           (SyncJob.completedAt_of
                              (DatabaseStorage.getLatestSyncLog db)))
                end
            end
        end
    end
  else inr None.

(** [!existing || existing.enrichmentStatus !== "complete"]. *)
Definition shouldInfer (existing : option Customer.t) : bool :=
  match existing with
  | Some r => negb (EnrichmentStatus_eqb (Customer.enrichmentStatus r) complete)
  | None => true
  end.

(** [(genderInference?.gender || "unknown") !== "unknown"]. *)
Definition shouldPersistInference
    (genderInference : option Enrichment.GenderInferenceResult) : bool :=
  match genderInference with
  | Some r =>
      negb (String.eqb (Enrichment.gender r) "")
      && negb (String.eqb (Enrichment.gender r) "unknown")
  | None => false
  end.

(** The object [insertData], as the driver encodes it; [None] as in
    [SyncJob.insertData]. *)
Definition insertData (customer : TransformedCustomer.t)
    (existing : option Customer.t)
    (genderInference : option Enrichment.GenderInferenceResult)
    : option InsertCustomer.t :=
  let persist := shouldPersistInference genderInference in
  match
    TransformedCustomer.createdAtShopify customer,
    TransformedCustomer.updatedAtShopify customer
  with
  | Some createdAtShopify, Some updatedAtShopify =>
      Some
        (InsertCustomer.mk
           (TransformedCustomer.shopifyCustomerId customer)
           (Val (TransformedCustomer.email customer))
           (Val (TransformedCustomer.phone customer))
           (Val (TransformedCustomer.firstName customer))
           (Val (TransformedCustomer.lastName customer))
           (Val (TransformedCustomer.city customer))
           (Val (TransformedCustomer.country customer))
           (Val (TransformedCustomer.province customer))
           (Val (TransformedCustomer.postalCode customer))
           (Val (TransformedCustomer.tags customer))
           (Val (Some createdAtShopify))
           (Val (Some updatedAtShopify))
           Undefined
           (Val (Some (TransformedCustomer.totalSpent customer)))
           (Val (Some (TransformedCustomer.ordersCount customer)))
           (if persist
            then match genderInference with
                 | Some r => Val (Some (Enrichment.gender r))
                 | None => Undefined
                 end
            else field_of_existing Customer.genderInferred existing)
           (if persist
            then match genderInference with
                 | Some r => Val (Some (Enrichment.confidence r))
                 | None => Undefined
                 end
            else field_of_existing Customer.genderConfidence existing)
           (Some (if persist then complete else SyncJob.status_or_pending existing))
           None
           None)
  | _, _ => None
  end.

(** One turn of the loop of [onBatch]; [provider] is the reply the
    inference gets for the customer. *)
Definition syncOne {rt : Js.Runtime} {database : DatabaseStorage.Database}
    (provider : TransformedCustomer.t -> Enrichment.completion) (now : Z)
    (customer : TransformedCustomer.t) (st : Db.t * SyncJob.Counters)
    : (Db.t * SyncJob.Counters) * option error :=
  let '(db, n) := st in
  let shopifyId := TransformedCustomer.shopifyCustomerId customer in
  match
    DatabaseStorage.rejects (DatabaseStorage.GetCustomerByShopifyId shopifyId) db
  with
  | Some rejection => ((db, n), Some (StoreError rejection))
  | None =>
      let existing := DatabaseStorage.getCustomerByShopifyId shopifyId db in
      let genderInference :=
        if shouldInfer existing
        then Some (Enrichment.inferGender (provider customer))
        else None in
      match insertData customer existing genderInference with
      | None => ((db, n), Some SyncJob.invalidTime)
      | Some payload =>
          match
            DatabaseStorage.rejects (DatabaseStorage.UpsertCustomer payload) db
          with
          | Some rejection => ((db, n), Some (StoreError rejection))
          | None =>
              let '(_, db') := DatabaseStorage.upsertCustomer payload now db in
              ((db', SyncJob.count existing n), None)
          end
      end
  end.

Fixpoint onBatch {rt : Js.Runtime} {database : DatabaseStorage.Database}
    (provider : TransformedCustomer.t -> Enrichment.completion)
    (clock : TransformedCustomer.t -> Z)
    (customers : list TransformedCustomer.t) (st : Db.t * SyncJob.Counters)
    : (Db.t * SyncJob.Counters) * option error :=
  match customers with
  | [] => (st, None)
  | customer :: rest =>
      match syncOne provider (clock customer) customer st with
      | (st', None) => onBatch provider clock rest st'
      | (st', Some err) => (st', Some err)
      end
  end.

(** [syncCustomers({ incremental, startDate })] of this revision. *)
Definition syncCustomers {rt : Js.Runtime} {cfg : SyncJob.Config}
    {database : DatabaseStorage.Database}
    (getLatestCustomerUpdatedAt : Db.t -> option Z)
    (provider : TransformedCustomer.t -> Enrichment.completion)
    (incremental : bool) (startDate : option Z)
    (clock : TransformedCustomer.t -> Z) (startedAt settledAt : Z)
    (isSyncing : bool) (client : Client) (db : Db.t)
    : outcome SyncJob.Counters * bool * Client * Db.t :=
  SyncJob.syncWith
    (updatedAtMin getLatestCustomerUpdatedAt incremental startDate)
    (onBatch provider clock)
    incremental startedAt settledAt isSyncing client db.

End SyncJobInference.

(** ** server/syncJob.ts: the gender tag written back to the platform *)

Module GenderTags.

(** [`gender:${customer.genderInferred}`]. *)
Definition genderTag (genderInferred : string) : string :=
  String.append "gender:" genderInferred.

(** [customer.tags ? customer.tags.split(",").map(t => t.trim()) : []]. *)
Definition existingTags (tags : option string) : list string :=
  match tags with
  | Some t => if String.eqb t "" then [] else map Text.trim (Text.split "," t)
  | None => []
  end.

Definition otherTags (tags : option string) : list string :=
  filter (fun t => negb (Text.startsWith "gender:" t)) (existingTags tags).

Definition newTags (genderInferred : string) (tags : option string) : string :=
  Text.join ", " (otherTags tags ++ [genderTag genderInferred]).

(** [customer.tags !== newTags]. *)
Definition differs (tags : option string) (newTags : string) : bool :=
  match tags with
  | Some t => negb (String.eqb t newTags)
  | None => true
  end.

(** [applyGenderTag(customer)]: the call
    [updateCustomerTags(shopifyCustomerId, newTags)] that it makes, if it
    makes one. *)
Definition applyGenderTag (customer : Customer.t) : option (Z * string) :=
  match Customer.genderInferred customer with
  | None => None
  | Some genderInferred =>
      if String.eqb genderInferred "" || String.eqb genderInferred "unknown"
      then None
      else
        let tags := newTags genderInferred (Customer.tags customer) in
        if differs (Customer.tags customer) tags
        then Some (Customer.shopifyCustomerId customer, tags)
        else None
  end.

(** The row [customer] once the platform's tags are the ones given. *)
Definition withTags (tags : option string) (customer : Customer.t) : Customer.t :=
  Customer.mk
    (Customer.id customer) (Customer.shopifyCustomerId customer)
    (Customer.email customer) (Customer.phone customer)
    (Customer.firstName customer) (Customer.lastName customer)
    (Customer.city customer) (Customer.country customer)
    (Customer.province customer) (Customer.postalCode customer)
    tags
    (Customer.createdAtShopify customer) (Customer.updatedAtShopify customer)
    (Customer.lastOrderAt customer) (Customer.totalSpent customer)
    (Customer.ordersCount customer) (Customer.genderInferred customer)
    (Customer.genderConfidence customer) (Customer.enrichmentStatus customer)
    (Customer.createdAt customer) (Customer.updatedAt customer).

(** The filter of [syncGenderTagsToShopify]: the first 10000 customers
    inferred male or female. *)
Definition bulkFilter : CustomerFilter.t :=
  CustomerFilter.mk (Some ["male"; "female"]) None None None None None None
    None None None None None None 1 10000 None None.

(** One turn of the loop of [syncGenderTagsToShopify]: the count and the
    calls of [updateCustomerTags] made so far. [rejects] says that the
    call threw, which the loop logs and passes over. *)
Definition tagOne (rejects : Z * string -> bool)
    (acc : Z * list (Z * string)) (customer : Customer.t)
    : Z * list (Z * string) :=
  let '(updatedCount, requests) := acc in
  match applyGenderTag customer with
  | None => (updatedCount + 1, requests)
  | Some request =>
      if rejects request then (updatedCount, requests ++ [request])
      else (updatedCount + 1, requests ++ [request])
  end.

(** [syncGenderTagsToShopify()]: the count it returns and the calls of
    [updateCustomerTags] it makes, in order; [None] when [getCustomers]
    rejects. *)
Definition syncGenderTagsToShopify {database : DatabaseStorage.Database}
    (rejects : Z * string -> bool) (db : Db.t)
    : option (Z * list (Z * string)) :=
  match DatabaseStorage.getCustomers bulkFilter db with
  | Some result =>
      Some (fold_left (tagOne rejects) (CustomerListResponse.data result) (0, []))
  | None => None
  end.

End GenderTags.

(** ** server/routes.ts: the webhook receivers *)

Module Routes.

Module WebhookAddress.
Record t : Type := mk {
  city : field string;
  country : field string;
  province : field string;
  zip : field string
}.
End WebhookAddress.

(** The body of a customer webhook ([req.body], untyped in the source): the
    properties the handlers read. *)
Module WebhookBody.
Record t : Type := mk {
  id : Z;
  email : field string;
  phone : field string;
  first_name : field string;
  last_name : field string;
  default_address : field WebhookAddress.t;
  tags : field string;
  orders_count : field Z;
  total_spent : field string;
  created_at : string;
  updated_at : string
}.
End WebhookBody.

(** [customer.default_address?.p]. *)
Definition address_prop (p : WebhookAddress.t -> field string)
    (a : field WebhookAddress.t) : field string :=
  match a with
  | Val (Some addr) => p addr
  | _ => Undefined
  end.

(** [customer.orders_count || 0]. *)
Definition orders_or_0 (n : field Z) : Z :=
  match n with
  | Val (Some z) => z
  | _ => 0
  end.

(** [parseFloat(customer.total_spent) || 0]; without a string to read,
    [parseFloat] gives NaN. *)
Definition spent_or_0 {rt : Js.Runtime} (s : field string) : Js.number :=
  match s with
  | Val (Some x) => Js.number_or (Js.parseFloat x) Js.zero
  | _ => Js.zero
  end.

(** The object that the handler of /webhooks/customers/create upserts, as
    the driver of the store encodes it. [None]: one of its two dates is the
    Invalid Date, which the driver cannot encode ([toISOString] throws a
    RangeError), so that [upsertCustomer] throws before a statement is
    sent. *)
Definition createPayload {rt : Js.Runtime} (customer : WebhookBody.t)
    : option InsertCustomer.t :=
  match
    Js.Date_parse (WebhookBody.created_at customer),
    Js.Date_parse (WebhookBody.updated_at customer)
  with
  | Some createdAtShopify, Some updatedAtShopify =>
      Some
        (InsertCustomer.mk
           (WebhookBody.id customer)
           (WebhookBody.email customer)
           (WebhookBody.phone customer)
           (WebhookBody.first_name customer)
           (WebhookBody.last_name customer)
           (address_prop WebhookAddress.city (WebhookBody.default_address customer))
           (address_prop WebhookAddress.country (WebhookBody.default_address customer))
           (address_prop WebhookAddress.province (WebhookBody.default_address customer))
           (address_prop WebhookAddress.zip (WebhookBody.default_address customer))
           (WebhookBody.tags customer)
           (Val (Some createdAtShopify))
           (Val (Some updatedAtShopify))
           Undefined
           (Val (Some (spent_or_0 (WebhookBody.total_spent customer))))
           (Val (Some (orders_or_0 (WebhookBody.orders_count customer))))
           Undefined
           Undefined
           (Some pending)
           None
           None)
  | _, _ => None
  end.

(** The object that the handler of /webhooks/customers/update upserts, with
    the row it read before; [None] as in [createPayload]. *)
Definition updatePayload {rt : Js.Runtime} (customer : WebhookBody.t)
    (existing : option Customer.t) : option InsertCustomer.t :=
  match
    Js.Date_parse (WebhookBody.created_at customer),
    Js.Date_parse (WebhookBody.updated_at customer)
  with
  | Some createdAtShopify, Some updatedAtShopify =>
      Some
        (InsertCustomer.mk
           (WebhookBody.id customer)
           (WebhookBody.email customer)
           (WebhookBody.phone customer)
           (WebhookBody.first_name customer)
           (WebhookBody.last_name customer)
           (address_prop WebhookAddress.city (WebhookBody.default_address customer))
           (address_prop WebhookAddress.country (WebhookBody.default_address customer))
           (address_prop WebhookAddress.province (WebhookBody.default_address customer))
           (address_prop WebhookAddress.zip (WebhookBody.default_address customer))
           (WebhookBody.tags customer)
           (Val (Some createdAtShopify))
           (Val (Some updatedAtShopify))
           Undefined
           (Val (Some (spent_or_0 (WebhookBody.total_spent customer))))
           (Val (Some (orders_or_0 (WebhookBody.orders_count customer))))
           (field_of_existing Customer.genderInferred existing)
           (field_of_existing Customer.genderConfidence existing)
           (Some (SyncJob.status_or_pending existing))
           None
           None)
  | _, _ => None
  end.

(** The [try] block of a webhook handler from its call of [upsertCustomer]
    on, and the [catch] block: 200 once the row is written; 500, and
    nothing written, when the payload cannot be encoded or the store
    rejects the statement. *)
Definition upsertOr500 {database : DatabaseStorage.Database}
    (payload : option InsertCustomer.t) (now : Z) (db : Db.t) : Z * Db.t :=
  match payload with
  | None => (500, db)
  | Some customer =>
      match
        DatabaseStorage.rejects (DatabaseStorage.UpsertCustomer customer) db
      with
      | Some _ => (500, db)
      | None => (200, snd (DatabaseStorage.upsertCustomer customer now db))
      end
  end.

(** POST /webhooks/customers/create. [verified] says that the request
    carries a signature and that [verifyWebhookSignature] accepts it. The
    result is the status of the response and the store. *)
Definition customersCreate {rt : Js.Runtime}
    {database : DatabaseStorage.Database} (verified : bool)
    (customer : WebhookBody.t) (now : Z) (db : Db.t) : Z * Db.t :=
  if negb verified then (401, db)
  else upsertOr500 (createPayload customer) now db.

(** POST /webhooks/customers/update, when nothing runs between its read
    and its write. A read that the store rejects goes to the [catch] block
    too. *)
Definition customersUpdate {rt : Js.Runtime}
    {database : DatabaseStorage.Database} (verified : bool)
    (customer : WebhookBody.t) (now : Z) (db : Db.t) : Z * Db.t :=
  if negb verified then (401, db)
  else
    match
      DatabaseStorage.rejects
        (DatabaseStorage.GetCustomerByShopifyId (WebhookBody.id customer)) db
    with
    | Some _ => (500, db)
    | None =>
        let existing :=
          DatabaseStorage.getCustomerByShopifyId (WebhookBody.id customer) db in
        upsertOr500 (updatePayload customer existing) now db
    end.

(** *** The signature that the webhook handlers ask for *)

(** [!signature || !verifyWebhookSignature(req.rawBody, signature)], negated:
    whether the handler goes on. [signature] is the header
    x-shopify-hmac-sha256. [None]: [verifyWebhookSignature] threw, and the
    handler with it, before its [try] block and before any response. *)
Definition signatureCheck {crypto : ShopifyClient.Crypto}
    (secret signature : option string) (rawBody : string) : option bool :=
  match signature with
  | None => Some false
  | Some given =>
      if String.eqb given "" then Some false
      else
        match ShopifyClient.verifyWebhookSignature secret rawBody given with
        | ShopifyClient.Verdict accepted => Some accepted
        | ShopifyClient.RangeError => None
        end
  end.

(** POST /webhooks/customers/create from the request on: the status of the
    response that the handler sends, if it sends one, and the store. *)
Definition postCustomersCreate {rt : Js.Runtime}
    {database : DatabaseStorage.Database} {crypto : ShopifyClient.Crypto}
    (secret signature : option string) (rawBody : string)
    (customer : WebhookBody.t) (now : Z) (db : Db.t) : option Z * Db.t :=
  match signatureCheck secret signature rawBody with
  | Some verified =>
      let '(status, db') := customersCreate verified customer now db in
      (Some status, db')
  | None => (None, db)
  end.

(** POST /webhooks/customers/update from the request on. *)
Definition postCustomersUpdate {rt : Js.Runtime}
    {database : DatabaseStorage.Database} {crypto : ShopifyClient.Crypto}
    (secret signature : option string) (rawBody : string)
    (customer : WebhookBody.t) (now : Z) (db : Db.t) : option Z * Db.t :=
  match signatureCheck secret signature rawBody with
  | Some verified =>
      let '(status, db') := customersUpdate verified customer now db in
      (Some status, db')
  | None => (None, db)
  end.

(** *** GET /api/customers/export, format interakt *)

Module InteraktPhone.
Record t : Type := mk {
  full : string;
  local : string
}.
End InteraktPhone.

(** [phoneForInterakt(phone)]. *)
Definition phoneForInterakt (phone : option string) : InteraktPhone.t :=
  let digits :=
    Text.keepOnly Text.is_digit
      (match phone with Some p => p | None => EmptyString end) in
  if String.eqb digits "" then InteraktPhone.mk EmptyString EmptyString
  else
    let local :=
      if Text.startsWith "91" digits then Text.sliceFrom 2 digits
      else if Nat.ltb 10 (String.length digits) then Text.sliceLast 10 digits
      else digits in
    let full :=
      if String.eqb local "" then EmptyString else String.append "91" local in
    InteraktPhone.mk full local.

End Routes.

(** ** Everything that writes customer rows

    The statements that write the table [customers], one awaited statement
    at a time, in any order: a handler that reads a row before it writes
    holds what it read while other statements run. A statement that the
    store rejects writes nothing. *)

Module Writers.

Record State : Type := {
  db : Db.t;
  held : list (option Customer.t)
}.

Definition initial : State := {| db := Db.empty; held := [] |}.

Definition write (d : Db.t) (s : State) : State :=
  {| db := d; held := held s |}.

Inductive step {rt : Js.Runtime} {database : DatabaseStorage.Database}
    : State -> State -> Prop :=
| read_existing : forall s shopifyId,
    step s
      {| db := db s;
         held := DatabaseStorage.getCustomerByShopifyId shopifyId (db s) :: held s |}
| sync_upsert : forall s customer existing payload now,
    In existing (held s) ->
    SyncJob.insertData customer existing = Some payload ->
    step s (write (snd (DatabaseStorage.upsertCustomer payload now (db s))) s)
| sync_upsert_inferred : forall s customer existing reply payload now,
    In existing (held s) ->
    SyncJobInference.insertData customer existing
      (if SyncJobInference.shouldInfer existing
       then Some (Enrichment.inferGender reply) else None)
    = Some payload ->
    step s (write (snd (DatabaseStorage.upsertCustomer payload now (db s))) s)
| webhook_create : forall s customer now,
    step s (write (snd (Routes.customersCreate true customer now (db s))) s)
| webhook_update : forall s customer existing payload now,
    In existing (held s) ->
    Routes.updatePayload customer existing = Some payload ->
    step s (write (snd (DatabaseStorage.upsertCustomer payload now (db s))) s)
| enrich_stored : forall s id reply now,
    step s (write (Enrichment.storeResult id (Enrichment.inferGender reply) now (db s)) s)
| enrich_failed : forall s id now,
    step s (write (Enrichment.markFailed id now (db s)) s)
| enrichment_reset : forall s now,
    step s (write (snd (DatabaseStorage.resetAllEnrichments now (db s))) s).

Inductive reachable {rt : Js.Runtime} {database : DatabaseStorage.Database}
    : State -> Prop :=
| reach_initial : reachable initial
| reach_step : forall s s', reachable s -> step s s' -> reachable s'.

(** [enrichmentStatus = complete] implies a gender and a confidence. *)
Definition row_ok (r : Customer.t) : Prop :=
  Customer.enrichmentStatus r = complete ->
  Customer.genderInferred r <> None /\ Customer.genderConfidence r <> None.

Definition held_ok (e : option Customer.t) : Prop :=
  match e with
  | Some r => row_ok r
  | None => True
  end.

Definition invariant (s : State) : Prop :=
  Forall row_ok (Db.customers (db s)) /\ Forall held_ok (held s).

End Writers.

(** ** client/src/components/pagination-controls.tsx *)

Module PaginationControls.

(** An entry of the list of visible pages: a page number or ["..."]. *)
Inductive entry : Type :=
| PageNumber (n : Z)
| Ellipsis.

(** [pages.includes(i)] for a number [i]. *)
Definition includes (pages : list entry) (i : Z) : bool :=
  existsb
    (fun e => match e with PageNumber n => n =? i | Ellipsis => false end)
    pages.

(** [if (!pages.includes(i)) pages.push(i)]. *)
Definition pushNew (pages : list entry) (i : Z) : list entry :=
  if includes pages i then pages else pages ++ [PageNumber i].

(** The loop [for (let i = start; i <= end; i++)], [count] turns from [i]
    on. *)
Fixpoint pushRange (count : nat) (i : Z) (pages : list entry) : list entry :=
  match count with
  | O => pages
  | S more => pushRange more (i + 1) (pushNew pages i)
  end.

(** [Array.from({ length }, (_, i) => i + 1)], from [first] on. *)
Fixpoint numbersFrom (length : nat) (first : Z) : list entry :=
  match length with
  | O => []
  | S more => PageNumber first :: numbersFrom more (first + 1)
  end.

(** [getVisiblePages()], for the [page] and the [totalPages] of the
    component. *)
Definition getVisiblePages (page totalPages : Z) : list entry :=
  if totalPages <=? 5 then numbersFrom (Z.to_nat totalPages) 1
  else
    let pages := [PageNumber 1] in
    let pages := if 3 <? page then pages ++ [Ellipsis] else pages in
    let start := Z.max 2 (page - 1) in
    let end_ := Z.min (totalPages - 1) (page + 1) in
    let pages := pushRange (Z.to_nat (end_ - start + 1)) start pages in
    let pages := if page <? totalPages - 2 then pages ++ [Ellipsis] else pages in
    pushNew pages totalPages.

(** [startItem] and [endItem], the two numbers of "Showing .. - .. of". *)
Definition startItem (page pageSize : Z) : Z := (page - 1) * pageSize + 1.

Definition endItem (page pageSize totalCount : Z) : Z :=
  Z.min (page * pageSize) totalCount.

(** The numbers among the entries, in order. *)
Fixpoint numbers (pages : list entry) : list Z :=
  match pages with
  | [] => []
  | PageNumber n :: rest => n :: numbers rest
  | Ellipsis :: rest => numbers rest
  end.

End PaginationControls.

(** ** Notions the properties are stated with *)

Module Notions.

Import ShopifyClient.

(** A column that took its value from the property [f] of a [set]: the
    value given, or the stored one when the property was left out. *)
Definition takes {A : Type} (f : field A) (stored result : option A) : Prop :=
  match f with
  | Val v => result = v
  | Undefined => result = stored
  end.

(** The row [r] with only its column [updatedAt] changed. *)
Definition withUpdatedAt (now : Z) (r : Customer.t) : Customer.t :=
  DatabaseStorage.setEnrichment (Customer.genderInferred r)
    (Customer.genderConfidence r) (Customer.enrichmentStatus r) now r.

(** [upsertCustomer(customer)] called once at each of the instants
    [times], in order. *)
Fixpoint upsertAt {database : DatabaseStorage.Database}
    (customer : InsertCustomer.t) (times : list Z) (db : Db.t) : Db.t :=
  match times with
  | [] => db
  | now :: later => upsertAt customer later (snd (DatabaseStorage.upsertCustomer customer now db))
  end.

Definition keys (rows : list Customer.t) : list Z :=
  map Customer.shopifyCustomerId rows.

(** The unique constraint on [shopify_customer_id]. *)
Definition unique_keys (db : Db.t) : Prop := NoDup (keys (Db.customers db)).

(** The rows stored for an external id. *)
Definition rowsOf (shopifyId : Z) (db : Db.t) : list Customer.t :=
  filter (DatabaseStorage.has_key shopifyId) (Db.customers db).

(** The three enrichment columns of a row. *)
Definition enrichment (r : Customer.t)
    : option Gender * option Js.number * EnrichmentStatus :=
  (Customer.genderInferred r, Customer.genderConfidence r,
   Customer.enrichmentStatus r).

(** A number in [0, 1]. *)
Definition in_unit (n : Js.number) : Prop :=
  match n with
  | Js.Num q => (0 <= q /\ q <= 1)%Q
  | _ => False
  end.

(** The number of [0, 1] nearest to [q]. *)
Definition clamp01 (q : Q) : Q :=
  if Qle_bool 1 q then 1%Q else if Qle_bool q 0 then 0%Q else q.

(** A parsed reply whose gender is none of the accepted three and whose
    confidence is 0.8. *)
Definition otherGenderReply : Js.json :=
  Js.JObject
    [("gender", Js.JString "other"); ("confidence", Js.JNumber (Js.Num (4 # 5)))].

(** The reply of the scenario: male, with a confidence of 1.7. *)
Definition overconfidentReply : Js.json :=
  Js.JObject
    [("gender", Js.JString "male"); ("confidence", Js.JNumber (Js.Num (17 # 10)))].

(** The configured start date when it is a date. *)
Definition configured {cfg : SyncJob.Config} : option Z :=
  match SyncJob.INCREMENTAL_SYNC_START_DATE with
  | Some (Some d) => Some d
  | _ => None
  end.

(** The first of the candidates that is there. *)
Fixpoint first_some {A : Type} (candidates : list (option A)) : option A :=
  match candidates with
  | [] => None
  | Some a :: _ => Some a
  | None :: rest => first_some rest
  end.

(** The records of a reply, none for a reply that carries no page. *)
Definition records (r : reply) : list ShopifyCustomer.t :=
  match r with
  | Http response => Response.customers response
  | NetworkError => []
  end.

Definition has_cursor (response : Response.t) : bool :=
  match string_or_null (Response.linkNext response) with
  | Some _ => true
  | None => false
  end.

(** A page after which the loop of [fetchAllCustomers] goes on: a success
    with a next-page cursor and exactly 250 records. *)
Definition continues (r : reply) : bool :=
  match r with
  | Http response =>
      Response.ok response && has_cursor response
      && (Z.of_nat (List.length (Response.customers response)) =? 250)
  | NetworkError => false
  end.

(** A page at which it stops: a success that lacks the cursor or does not
    hold exactly 250 records. *)
Definition final (r : reply) : bool :=
  match r with
  | Http response =>
      Response.ok response
      && negb (has_cursor response
               && (Z.of_nat (List.length (Response.customers response)) =? 250))
  | NetworkError => false
  end.

(** The number of records on the pages. *)
Definition total (pages : list reply) : Z :=
  fold_right (fun r acc => Z.of_nat (List.length (records r)) + acc) 0 pages.

(** The batches that the pages make: one per page that holds a record. *)
Fixpoint batches {rt : Js.Runtime} (pages : list reply)
    : list (list TransformedCustomer.t) :=
  match pages with
  | [] => []
  | r :: rest =>
      match records r with
      | [] => batches rest
      | _ :: _ => map transformCustomer (records r) :: batches rest
      end
  end.

(** The log of a call in its [try] block is stored and running. *)
Definition own_log (syncLog : SyncLog.t) (d : Db.t) : Prop :=
  exists l,
    In l (Db.syncLogs d) /\ SyncLog.id l = SyncLog.id syncLog
    /\ SyncJob.is_running l = true.

(** A call that is in its [try] block, its log created and not settled. *)
Definition in_try (call : SyncJob.place) : bool :=
  match call with
  | SyncJob.InTry _ _ => true
  | _ => false
  end.

(** What holds of a process at all times: at most one call of
    [syncCustomers] is in flight; the flag is set exactly while one is; and
    of the logs that are running, all but [left] belong to that call while
    it is inside its [try] block. *)
Definition single_flight (left : nat) (p : SyncJob.Process) : Prop :=
  match SyncJob.calls p with
  | [] =>
      SyncJob.isSyncing p = false
      /\ (List.length (SyncJob.runningLogs (SyncJob.db p)) <= left)%nat
  | [SyncJob.InTry syncLog _] =>
      SyncJob.isSyncing p = true
      /\ own_log syncLog (SyncJob.db p)
      /\ (List.length (SyncJob.runningLogs (SyncJob.db p)) <= S left)%nat
  | [_] =>
      SyncJob.isSyncing p = true
      /\ (List.length (SyncJob.runningLogs (SyncJob.db p)) <= left)%nat
  | _ :: _ :: _ => False
  end.

(** A process that has just started on the store [d]. *)
Definition boot (d : Db.t) : SyncJob.Process :=
  {| SyncJob.isSyncing := false; SyncJob.db := d; SyncJob.calls := [] |}.

(** A process that has just started on an empty store. *)
Definition bootProcess : SyncJob.Process := boot Db.empty.

(** The same process once a first call has created its log and a second
    call has come and gone. *)
Definition busyProcess : SyncJob.Process :=
  {| SyncJob.isSyncing := true;
     SyncJob.db :=
       snd (DatabaseStorage.createSyncLog (SyncJob.runningLog true) 100 Db.empty);
     SyncJob.calls :=
       [SyncJob.InTry
          (fst (DatabaseStorage.createSyncLog (SyncJob.runningLog true) 100 Db.empty))
          SyncJob.noCounts] |}.

(** A payload whose enrichment properties, were it inserted, make a row
    that has a gender and a confidence when its status is complete. *)
Definition payload_ok (c : InsertCustomer.t) : Prop :=
  DatabaseStorage.default (InsertCustomer.enrichmentStatus c) pending = complete ->
  DatabaseStorage.column (InsertCustomer.genderInferred c) None <> None
  /\ DatabaseStorage.column (InsertCustomer.genderConfidence c) None <> None.

(** What the recording callback holds after a page. *)
Definition seen_after {rt : Js.Runtime} (response : Response.t)
    (seen : list (list TransformedCustomer.t)) : list (list TransformedCustomer.t) :=
  match Response.customers response with
  | [] => seen
  | _ :: _ => seen ++ [map transformCustomer (Response.customers response)]
  end.

(** A successful page with the given records and cursor. *)
Definition page (customers : list ShopifyCustomer.t) (next : option string)
    : reply :=
  Http (Response.mk 200 None None next customers "").

(** A rate-limit rejection with the given Retry-After header. *)
Definition rateLimited (retryAfter : option string) : reply :=
  Http (Response.mk 429 None retryAfter None [] "Too Many Requests").

Definition sampleCustomer (id : Z) : ShopifyCustomer.t :=
  ShopifyCustomer.mk id (Some "ada@example.com") None (Some "Ada") (Some "L")
    "2025-12-08T00:00:00Z" "2025-12-09T00:00:00Z" "vip" 2 "10.50" None Undefined.

(** A rate-limit rejection that also reports the call limit as used up. *)
Definition atLimit (retryAfter : option string) : Response.t :=
  Response.mk 429 (Some (Js.of_Z 40, Js.of_Z 40)) retryAfter None []
    "Too Many Requests".

(** What [shopifyFetch] does to the outside while the platform answers a
    request [e] with the responses [limited], all of status 429, from the
    rate-limit state [info] on: before each request the pause of two
    seconds when the last response left the calls near their limit, the
    request, and the wait that its response asks for. *)
Fixpoint retried (e : endpoint) (info : RateLimitInfo)
    (limited : list Response.t) : list event :=
  match limited with
  | [] => []
  | response :: rest =>
      (if near_limit info then [Delay (Some 2000)] else [])
      ++ Fetch e
      :: Delay (waitTime (Response.retryAfter response))
      :: retried e (parseRateLimitHeader (Response.callLimit response)) rest
  end.

(** The rate-limit state after these responses: the one that the last of
    them reports. *)
Definition infoAfter (info : RateLimitInfo) (limited : list Response.t)
    : RateLimitInfo :=
  match rev limited with
  | [] => info
  | response :: _ => parseRateLimitHeader (Response.callLimit response)
  end.

(** A runtime to compute examples with: no text is JSON or a number, every
    text is the date 0, and local time is universal time. *)
Definition plainRuntime : Js.Runtime :=
  {| Js.JSON_parse := fun _ => None;
     Js.StringToNumber := fun _ => Js.NaN;
     Js.ObjectToNumber := fun _ => Some Js.NaN;
     Js.parseFloat := fun _ => Js.NaN;
     Js.Date_parse := fun _ => Some 0;
     Js.LocalTZA := fun _ _ => 0 |}.

(** A runtime whose [JSON.parse] knows one text. *)
Definition runtimeParsing (text : string) (value : Js.json) : Js.Runtime :=
  {| Js.JSON_parse := fun s => if String.eqb s text then Some value else None;
     Js.StringToNumber := fun _ => Js.NaN;
     Js.ObjectToNumber := fun _ => Some Js.NaN;
     Js.parseFloat := fun _ => Js.NaN;
     Js.Date_parse := fun _ => Some 0;
     Js.LocalTZA := fun _ _ => 0 |}.

(** A database to compute examples with: a column of type real hands back
    the number it was given, no statement is rejected but for a value out
    of the range of its column, no text is a date,
    no text is like a pattern, and ORDER BY leaves the rows in the order of
    the table. *)
Definition plainDatabase : DatabaseStorage.Database :=
  {| DatabaseStorage.real := fun n => n;
     DatabaseStorage.rejects := fun s _ => DatabaseStorage.out_of_range s;
     DatabaseStorage.rejects_out_of_range := fun customer _ n =>
       DatabaseStorage.out_of_range_integer customer n;
     DatabaseStorage.puts_first := fun _ _ => false;
     DatabaseStorage.newDate := fun _ => None;
     DatabaseStorage.ilike := fun _ _ => false;
     DatabaseStorage.orderBy := fun _ _ rows => rows;
     DatabaseStorage.orderBy_permutes := fun _ _ rows => Permutation_refl rows |}.

Definition plainConfig : SyncJob.Config :=
  {| SyncJob.INCREMENTAL_SYNC_START_DATE := None;
     SyncJob.SYNC_GENDER_TO_TAGS := false;
     SyncJob.applyGenderTag := fun _ => None |}.

(** A stored customer whose enrichment is complete. *)
Definition enrichedRow : Customer.t :=
  Customer.mk 1 7001 (Some "ada@example.com") None (Some "Ada") (Some "L")
    None None None None (Some "vip") (Some 1000) (Some 2000) None
    (Some Js.zero) (Some 0) (Some "female") (Some (Js.Num (9 # 10))) complete
    50 60.

Definition enrichedDb : Db.t := Db.mk [enrichedRow] 2 [] 1.

(** A payload for the same external id that supplies other enrichment
    values and another source creation time. *)
Definition resetPayload : InsertCustomer.t :=
  InsertCustomer.mk 7001 (Val (Some "ada@new.example")) (Val None)
    (Val (Some "Ada")) (Val (Some "Lovelace")) Undefined Undefined Undefined
    Undefined (Val (Some "vip, new")) (Val (Some 1500)) (Val (Some 3000))
    Undefined (Val (Some Js.one)) (Val (Some 3)) (Val None) (Val None)
    (Some pending) None None.

Definition sampleTransformed : TransformedCustomer.t :=
  TransformedCustomer.mk 7001 (Some "ada@new.example") None (Some "Ada")
    (Some "Lovelace") None None None None (Some "vip") 3 Js.one (Some 1000)
    (Some 3000).

Definition sampleBody : Routes.WebhookBody.t :=
  Routes.WebhookBody.mk 7001 (Val (Some "ada@new.example")) Undefined
    (Val (Some "Ada")) (Val None) Undefined (Val (Some "vip")) (Val (Some 3))
    (Val (Some "12.00")) "2025-12-08T00:00:00Z" "2025-12-10T00:00:00Z".

(** The customers numbered [first], [first + 1], ..., [count] of them. *)
Definition customersFrom (first : Z) (count : nat) : list ShopifyCustomer.t :=
  map (fun i => sampleCustomer (first + Z.of_nat i)) (seq 0 count).

(** A source of 540 customers in pages of 250, 250 and 40. *)
Definition threePages : list reply :=
  [page (customersFrom 1 250) (Some "page-2");
   page (customersFrom 251 250) (Some "page-3");
   page (customersFrom 501 40) None].

(** A run of [syncCustomers] on that source and an empty store, started at
    instant 100 and settled at instant 200. *)
Definition threePageRun
    : outcome SyncJob.Counters * bool * Client * Db.t :=
  SyncJob.syncCustomers (rt := plainRuntime) (cfg := plainConfig)
    (database := plainDatabase)
    true None (fun _ => 150) 100 200 false (start threePages) Db.empty.

(** The store after a customer-created webhook and the enrichment of the
    row it made. *)
Definition enrichedByWebhook : Writers.State :=
  let created :=
    Writers.write
      (snd (Routes.customersCreate (rt := plainRuntime)
              (database := plainDatabase) true sampleBody 10
              (Writers.db Writers.initial)))
      Writers.initial in
  Writers.write
    (Enrichment.storeResult (database := plainDatabase) 1
       (Enrichment.inferGender (rt := plainRuntime) Enrichment.Rejected) 20
       (Writers.db created))
    created.

(** The Sync Log of a run that returned [n]: created with the id [id] at
    [startedAt], completed at [settledAt]. *)
Definition completedLog (incremental : bool) (id startedAt settledAt : Z)
    (n : SyncJob.Counters) : SyncLog.t :=
  SyncLog.mk id (SyncJob.syncTypeOf incremental) completed
    (Some (SyncJob.processed n)) (Some (SyncJob.created n))
    (Some (SyncJob.updated n)) None startedAt (Some settledAt).

(** The Sync Log of a run that threw [err]: its three counters are the
    zeros it was created with. *)
Definition failedLog (incremental : bool) (id startedAt settledAt : Z)
    (err : error) : SyncLog.t :=
  SyncLog.mk id (SyncJob.syncTypeOf incremental) sync_failed
    (Some 0) (Some 0) (Some 0) (Some (SyncJob.message err)) startedAt
    (Some settledAt).

(** The Sync Log of a run that has not ended. *)
Definition startedLog (incremental : bool) (id startedAt : Z) : SyncLog.t :=
  SyncLog.mk id (SyncJob.syncTypeOf incremental) running
    (Some 0) (Some 0) (Some 0) None startedAt None.

(** What a run of [syncCustomers] has counted and written so far: every
    customer processed was created or updated, and the rows added to the
    [before] there were are the customers created. *)
Definition accounted (before : nat) (st : Db.t * SyncJob.Counters) : Prop :=
  SyncJob.processed (snd st) = SyncJob.created (snd st) + SyncJob.updated (snd st)
  /\ 0 <= SyncJob.created (snd st)
  /\ 0 <= SyncJob.updated (snd st)
  /\ Z.of_nat (List.length (Db.customers (fst st)))
     = Z.of_nat before + SyncJob.created (snd st).

(** The store of the enriched customer after a first run that started at
    instant 100 and completed at instant 200. *)
Definition loggedDb : Db.t :=
  Db.mk [enrichedRow] 2
    [SyncLog.mk 1 Incremental completed (Some 1) (Some 1) (Some 0) None 100
       (Some 200)]
    2.

(** An answer of the platform that is an error. *)
Definition serverError : reply :=
  Http (Response.mk 500 None None None [] "Internal Server Error").

(** A run on that store, started at instant 300 and settled at instant
    400, which the platform answers with that error. *)
Definition failedRun : outcome SyncJob.Counters * bool * Client * Db.t :=
  SyncJob.syncCustomers (rt := plainRuntime) (cfg := plainConfig)
    (database := plainDatabase)
    true None (fun _ => 350) 300 400 false (start [serverError]) loggedDb.

(** The primary key of [customers]. *)
Definition unique_ids (db : Db.t) : Prop :=
  NoDup (map Customer.id (Db.customers db)).

(** The customers that wait for their enrichment. *)
Definition pendingCustomers (db : Db.t) : list Customer.t :=
  filter Enrichment.is_pending (Db.customers db).

(** The row [r] with the result of the inference for it stored at [now]. *)
Definition completedRow {rt : Js.Runtime}
    {database : DatabaseStorage.Database}
    (provider : Customer.t -> Enrichment.completion) (now : Z) (r : Customer.t)
    : Customer.t :=
  DatabaseStorage.setEnrichment
    (Some (Enrichment.gender (Enrichment.inferGender (provider r))))
    (Some (DatabaseStorage.real
             (Enrichment.confidence (Enrichment.inferGender (provider r)))))
    complete now r.

(** What one turn of the loop of [enrichPendingCustomers], for the selected
    customer [s] at [now], makes of a row [r]. *)
Definition afterTurn {rt : Js.Runtime} {database : DatabaseStorage.Database}
    (provider : Customer.t -> Enrichment.completion)
    (throws : Customer.t -> bool) (now : Z) (s r : Customer.t) : Customer.t :=
  if Customer.id r =? Customer.id s then
    if throws s then
      DatabaseStorage.setEnrichment (Customer.genderInferred r)
        (Customer.genderConfidence r) failed now r
    else
      DatabaseStorage.setEnrichment
        (Some (Enrichment.gender (Enrichment.inferGender (provider s))))
        (Some (DatabaseStorage.real
                 (Enrichment.confidence (Enrichment.inferGender (provider s)))))
        complete now r
  else r.

(** What the turns for the selected customers make of a row, in order. *)
Fixpoint afterTurns {rt : Js.Runtime} {database : DatabaseStorage.Database}
    (provider : Customer.t -> Enrichment.completion)
    (throws : Customer.t -> bool) (now : Z) (selected : list Customer.t)
    (r : Customer.t) : Customer.t :=
  match selected with
  | [] => r
  | s :: rest =>
      afterTurns provider throws now rest (afterTurn provider throws now s r)
  end.

(** Whether a selected customer has the id of the row. *)
Definition selects (selected : list Customer.t) (r : Customer.t) : bool :=
  existsb (fun s => Customer.id r =? Customer.id s) selected.

(** The customers of a selection whose turn did not throw. *)
Definition enrichedOf (throws : Customer.t -> bool) (selected : list Customer.t)
    : Z :=
  Z.of_nat (List.length (filter (fun s => negb (throws s)) selected)).

(** What the enrichment makes of a row [r]: [r] itself when it is not
    pending, and else [r] with the result of the inference for it. *)
Definition enrichedFrom {rt : Js.Runtime}
    {database : DatabaseStorage.Database}
    (provider : Customer.t -> Enrichment.completion) (r r' : Customer.t) : Prop :=
  if Enrichment.is_pending r
  then exists now, r' = completedRow provider now r
  else r' = r.

(** A stored customer that waits for its enrichment. *)
Definition pendingRow (id shopifyId : Z) : Customer.t :=
  Customer.mk id shopifyId (Some "grace@example.com") (Some "+91 98765 43210")
    (Some "Grace") None None None None None (Some " vip ,wholesale") (Some 1000)
    (Some 2000) None (Some Js.zero) (Some 0) None None pending 50 60.

(** The enriched customer and two that are pending. *)
Definition pendingDb : Db.t :=
  Db.mk [enrichedRow; pendingRow 2 7002; pendingRow 3 7003] 4 [] 1.

(** A digest to compute examples with: the key, a bang and the body. *)
Definition plainCrypto : Crypto :=
  {| hmacSha256Base64 := fun key body =>
       String.append key (String "!" body) |}.

(** A text that is missing rather than empty. *)
Definition not_blank (text : option string) : Prop := text <> Some EmptyString.

(** A row as the sync writes it: its address, postal code and tags are
    missing rather than empty. *)
Definition cleaned (r : Customer.t) : Prop :=
  not_blank (Customer.city r) /\ not_blank (Customer.country r)
  /\ not_blank (Customer.province r) /\ not_blank (Customer.postalCode r)
  /\ not_blank (Customer.tags r).

(** The customers inferred female who have an order, two on a page. *)
Definition femaleFilter : CustomerFilter.t :=
  CustomerFilter.mk (Some ["female"]) None None None None None None None None
    None None (Some 0) None 1 2 None None.

(** The request for a page of customers: the first page, with the lower
    bound of the window, or the page of a cursor. *)
Definition request (since : option Z) (pageInfo : option string) : endpoint :=
  match pageInfo with
  | Some p => CustomersPage 250 p
  | None => CustomersFirst 250 since
  end.

(** A request for the first page of customers. *)
Definition first_request (e : event) : bool :=
  match e with
  | Fetch (CustomersFirst _ _) => true
  | _ => false
  end.

(** A store without customers whose one sync log tells of a run that
    started at instant 100 and completed at instant 200. *)
Definition loggedOnly : Db.t :=
  Db.mk [] 1
    [SyncLog.mk 1 Incremental completed (Some 0) (Some 0) (Some 0) None 100
       (Some 200)]
    2.

(** 26 March 2023, 01:00 universal time, when the clocks of central Europe
    go from 02:00 to 03:00. *)
Definition springForward : Z := 1679792400000.

(** The runtime [plainRuntime] in that time zone: local time is one hour
    ahead of universal time before that instant and two hours after; a
    local time that the clocks skip is read with the offset before. *)
Definition centralEurope : Js.Runtime :=
  {| Js.JSON_parse := fun _ => None;
     Js.StringToNumber := fun _ => Js.NaN;
     Js.ObjectToNumber := fun _ => Some Js.NaN;
     Js.parseFloat := fun _ => Js.NaN;
     Js.Date_parse := fun _ => Some 0;
     Js.LocalTZA := fun t isUTC =>
       if isUTC
       then if t <? springForward then 3600000 else 7200000
       else if t <? springForward + 7200000 then 3600000 else 7200000 |}.

(** A database that is [plainDatabase] but for this: it rejects every
    update of a sync log. *)
Definition noLogUpdates : DatabaseStorage.Database :=
  {| DatabaseStorage.real := fun n => n;
     DatabaseStorage.rejects := fun s _ =>
       match s with
       | DatabaseStorage.UpdateSyncLog _ _ => Some "permission denied"
       | _ => DatabaseStorage.out_of_range s
       end;
     DatabaseStorage.rejects_out_of_range := fun customer _ n =>
       DatabaseStorage.out_of_range_integer customer n;
     DatabaseStorage.puts_first := fun _ _ => false;
     DatabaseStorage.newDate := fun _ => None;
     DatabaseStorage.ilike := fun _ _ => false;
     DatabaseStorage.orderBy := fun _ _ rows => rows;
     DatabaseStorage.orderBy_permutes := fun _ _ rows => Permutation_refl rows |}.

(** A run on an empty store with that database, started at instant 100,
    which the platform answers with an error: the update that would mark
    its log failed is rejected. *)
Definition unsettledRun : outcome SyncJob.Counters * bool * Client * Db.t :=
  SyncJob.syncCustomers (rt := plainRuntime) (cfg := plainConfig)
    (database := noLogUpdates)
    true None (fun _ => 150) 100 200 false (start [serverError]) Db.empty.

(** The next run, started at instant 300 on the store that the first run
    left, while it waits for the platform. *)
Definition nextRun : outcome SyncJob.Counters * bool * Client * Db.t :=
  SyncJob.syncCustomers (rt := plainRuntime) (cfg := plainConfig)
    (database := noLogUpdates)
    true None (fun _ => 350) 300 400 false (start []) (snd unsettledRun).

(** A list of visible pages that tells no lie: it starts and ends with a
    number, a number that follows a number is the next page, and an
    ellipsis stands between two numbers with a page between them. *)
Fixpoint faithful (pages : list PaginationControls.entry) : bool :=
  match pages with
  | [] => true
  | PaginationControls.Ellipsis :: _ => false
  | PaginationControls.PageNumber a :: rest =>
      match rest with
      | [] => true
      | PaginationControls.PageNumber b :: _ => (b =? a + 1) && faithful rest
      | PaginationControls.Ellipsis :: rest' =>
          match rest' with
          | PaginationControls.PageNumber b :: _ => (a + 2 <=? b) && faithful rest'
          | _ => false
          end
      end
  end.

(** An item of a tag list: it holds no comma and has no white space around
    it. *)
Definition tag_item (item : string) : Prop :=
  Text.occurs "," item = false /\ Text.trim item = item.

End Notions.

(** * Properties *)

(** ** The conflict-resolving write *)

Section UpsertFacts.

Import DatabaseStorage Notions.

Context {database : Database}.

Variable customer : InsertCustomer.t.

Local Abbreviation k := (InsertCustomer.shopifyCustomerId customer).

Lemma has_key_conflictUpdate (shopifyId now : Z) (r : Customer.t) :
  has_key shopifyId (conflictUpdate customer now r) = has_key shopifyId r.
Proof. reflexivity. Qed.

Lemma has_key_insertedRow (id now : Z) :
  has_key k (insertedRow customer id now) = true.
Proof. unfold has_key. simpl. apply Z.eqb_refl. Qed.

Lemma upsertRows_result (id now : Z) (rows : list Customer.t) :
  snd (upsertRows customer id now rows) =
  match find (has_key k) rows with
  | Some r => conflictUpdate customer now r
  | None => insertedRow customer id now
  end.
Proof.
  induction rows as [|r rest IH]; simpl; [reflexivity|].
  destruct (has_key k r); simpl; [reflexivity|].
  destruct (upsertRows customer id now rest) as [rest' result]. exact IH.
Qed.

Lemma upsertRows_find_same (id now : Z) (rows : list Customer.t) :
  find (has_key k) (fst (upsertRows customer id now rows)) =
  Some (snd (upsertRows customer id now rows)).
Proof.
  induction rows as [|r rest IH]; simpl.
  - rewrite has_key_insertedRow. reflexivity.
  - destruct (has_key k r) eqn:E; simpl.
    + rewrite has_key_conflictUpdate, E. reflexivity.
    + destruct (upsertRows customer id now rest) as [rest' result].
      simpl in *. rewrite E. exact IH.
Qed.

Lemma upsertRows_find_other (shopifyId id now : Z) (rows : list Customer.t) :
  shopifyId <> k ->
  find (has_key shopifyId) (fst (upsertRows customer id now rows)) =
  find (has_key shopifyId) rows.
Proof.
  intros Hne. induction rows as [|r rest IH]; simpl.
  - unfold has_key at 1. simpl.
    destruct (Z.eqb_spec k shopifyId); [congruence | reflexivity].
  - destruct (has_key k r) eqn:E; simpl.
    + rewrite has_key_conflictUpdate.
      destruct (has_key shopifyId r) eqn:E'; [|reflexivity].
      unfold has_key in E, E'.
      apply Z.eqb_eq in E. apply Z.eqb_eq in E'. congruence.
    + destruct (upsertRows customer id now rest) as [rest' result].
      simpl in *. rewrite IH. reflexivity.
Qed.

Lemma upsertRows_keys (id now : Z) (rows : list Customer.t) :
  keys (fst (upsertRows customer id now rows)) =
  match find (has_key k) rows with
  | Some _ => keys rows
  | None => keys rows ++ [k]
  end.
Proof.
  induction rows as [|r rest IH]; simpl; [reflexivity|].
  destruct (has_key k r) eqn:E; simpl; [reflexivity|].
  destruct (upsertRows customer id now rest) as [rest' result].
  simpl in *. rewrite IH. destruct (find (has_key k) rest); reflexivity.
Qed.

Lemma upsertCustomer_rows (now : Z) (db : Db.t) :
  Db.customers (snd (upsertCustomer customer now db)) =
  fst (upsertRows customer (Db.customers_seq db) now (Db.customers db)).
Proof.
  unfold upsertCustomer.
  destruct (upsertRows customer (Db.customers_seq db) now (Db.customers db)).
  reflexivity.
Qed.

Lemma upsertCustomer_result (now : Z) (db : Db.t) :
  fst (upsertCustomer customer now db) =
  match getCustomerByShopifyId k db with
  | Some r => conflictUpdate customer now r
  | None => insertedRow customer (Db.customers_seq db) now
  end.
Proof.
  unfold upsertCustomer, getCustomerByShopifyId.
  rewrite <- upsertRows_result.
  destruct (upsertRows customer (Db.customers_seq db) now (Db.customers db)).
  reflexivity.
Qed.

Lemma upsertCustomer_get_same (now : Z) (db : Db.t) :
  getCustomerByShopifyId k (snd (upsertCustomer customer now db)) =
  Some (fst (upsertCustomer customer now db)).
Proof.
  unfold getCustomerByShopifyId. rewrite upsertCustomer_rows.
  rewrite upsertRows_find_same. f_equal.
  rewrite upsertRows_result. symmetry. apply upsertCustomer_result.
Qed.

Lemma upsertCustomer_get_other (shopifyId now : Z) (db : Db.t) :
  shopifyId <> k ->
  getCustomerByShopifyId shopifyId (snd (upsertCustomer customer now db)) =
  getCustomerByShopifyId shopifyId db.
Proof.
  intros Hne. unfold getCustomerByShopifyId. rewrite upsertCustomer_rows.
  apply upsertRows_find_other. exact Hne.
Qed.

Lemma upsertCustomer_logs (now : Z) (db : Db.t) :
  Db.syncLogs (snd (upsertCustomer customer now db)) = Db.syncLogs db
  /\ Db.syncLogs_seq (snd (upsertCustomer customer now db)) = Db.syncLogs_seq db.
Proof.
  unfold upsertCustomer.
  destruct (upsertRows customer (Db.customers_seq db) now (Db.customers db)).
  split; reflexivity.
Qed.

(** Whatever is upserted, a row that is stored keeps its enrichment
    columns. *)
Lemma upsertCustomer_keeps_enrichment (shopifyId now : Z) (db : Db.t)
    (r : Customer.t) :
  getCustomerByShopifyId shopifyId db = Some r ->
  exists r',
    getCustomerByShopifyId shopifyId (snd (upsertCustomer customer now db)) = Some r'
    /\ enrichment r' = enrichment r.
Proof.
  intros Hget. destruct (Z.eq_dec shopifyId k) as [->|Hne].
  - rewrite upsertCustomer_get_same, upsertCustomer_result, Hget.
    eexists. split; reflexivity.
  - rewrite upsertCustomer_get_other by exact Hne.
    exists r. split; [exact Hget | reflexivity].
Qed.

Lemma find_none_not_in (rows : list Customer.t) :
  find (has_key k) rows = None -> ~ In k (keys rows).
Proof.
  induction rows as [|r rest IH]; simpl; [tauto|].
  destruct (has_key k r) eqn:E; [discriminate|].
  intros Hnone [Heq|Hin]; [|exact (IH Hnone Hin)].
  unfold has_key in E. rewrite Heq, Z.eqb_refl in E. discriminate.
Qed.

Lemma upsertCustomer_unique (now : Z) (db : Db.t) :
  unique_keys db -> unique_keys (snd (upsertCustomer customer now db)).
Proof.
  unfold unique_keys. intros Hu. rewrite upsertCustomer_rows, upsertRows_keys.
  destruct (find (has_key k) (Db.customers db)) eqn:E; [exact Hu|].
  apply NoDup_app; [exact Hu | repeat constructor; simpl; tauto |].
  intros x Hx [<-|[]]. exact (find_none_not_in _ E Hx).
Qed.

End UpsertFacts.

Section RowFacts.

Import DatabaseStorage Notions.

Context {database : Database}.

Lemma filter_none_of_not_in (shopifyId : Z) (rows : list Customer.t) :
  ~ In shopifyId (keys rows) -> filter (has_key shopifyId) rows = [].
Proof.
  induction rows as [|r rest IH]; simpl; [reflexivity|].
  intros Hnot. destruct (has_key shopifyId r) eqn:E.
  - exfalso. apply Hnot. left. unfold has_key in E. apply Z.eqb_eq in E. exact E.
  - apply IH. tauto.
Qed.

(** Under the unique constraint the row that a lookup finds is the only row
    of its key. *)
Lemma unique_rowsOf (shopifyId : Z) (db : Db.t) (r : Customer.t) :
  unique_keys db ->
  getCustomerByShopifyId shopifyId db = Some r ->
  rowsOf shopifyId db = [r].
Proof.
  unfold unique_keys, getCustomerByShopifyId, rowsOf.
  induction (Db.customers db) as [|x rest IH]; simpl; [discriminate|].
  intros Hu Hfind. inversion Hu as [|? ? Hnot Hrest]; subst.
  destruct (has_key shopifyId x) eqn:E.
  - injection Hfind as ->. f_equal. apply filter_none_of_not_in.
    unfold has_key in E. apply Z.eqb_eq in E. rewrite <- E. exact Hnot.
  - apply IH; assumption.
Qed.

Lemma column_idem {A : Type} (f : field A) (x : option A) :
  column f (column f x) = column f x.
Proof. destruct f; reflexivity. Qed.

(** A second conflict update with the same payload changes [updatedAt]
    alone. *)
Lemma conflictUpdate_again (customer : InsertCustomer.t) (now now' : Z)
    (r : Customer.t) :
  conflictUpdate customer now' (conflictUpdate customer now r) =
  withUpdatedAt now' (conflictUpdate customer now r).
Proof.
  unfold conflictUpdate, withUpdatedAt, setEnrichment. simpl.
  rewrite !column_idem. reflexivity.
Qed.

Lemma conflictUpdate_inserted (customer : InsertCustomer.t) (id now now' : Z) :
  conflictUpdate customer now' (insertedRow customer id now) =
  withUpdatedAt now' (insertedRow customer id now).
Proof.
  unfold conflictUpdate, insertedRow, withUpdatedAt, setEnrichment. simpl.
  rewrite !column_idem. reflexivity.
Qed.

Lemma conflictUpdate_touched (customer : InsertCustomer.t) (now now' : Z)
    (r : Customer.t) :
  conflictUpdate customer now' (withUpdatedAt now r) =
  conflictUpdate customer now' r.
Proof. reflexivity. Qed.

Lemma withUpdatedAt_twice (now now' : Z) (r : Customer.t) :
  withUpdatedAt now' (withUpdatedAt now r) = withUpdatedAt now' r.
Proof. reflexivity. Qed.

End RowFacts.

(** ** What an upsert of a known external id does *)

Section UpsertClaims.

Import DatabaseStorage Notions.

Context {database : Database}.

(** C3, as amended. When [upsertCustomer] is called with an external id that
    is stored and the store takes the statement, the row it returns is the
    row stored for that id afterwards; each column the [set] clause lists
    (email, phone, first and last name, city, country, province, postal
    code, tags, [updatedAtShopify], [lastOrderAt], [totalSpent],
    [ordersCount]) holds the value supplied, [totalSpent] as its column of
    type real holds it and [ordersCount] within the range of its column of
    type integer, or its stored value where the call left the property
    out; [updatedAt] is the time of the call; and
    [createdAtShopify] and the three enrichment columns keep their stored
    values whatever the call supplied. *)
Theorem upsertCustomer_on_stored_id :
  forall (customer : InsertCustomer.t) (now : Z) (db : Db.t) (r : Customer.t),
    getCustomerByShopifyId (InsertCustomer.shopifyCustomerId customer) db = Some r ->
    rejects (UpsertCustomer customer) db = None ->
    let result := fst (upsertCustomer customer now db) in
    getCustomerByShopifyId (InsertCustomer.shopifyCustomerId customer)
      (snd (upsertCustomer customer now db)) = Some result
    /\ takes (InsertCustomer.email customer) (Customer.email r) (Customer.email result)
    /\ takes (InsertCustomer.phone customer) (Customer.phone r) (Customer.phone result)
    /\ takes (InsertCustomer.firstName customer) (Customer.firstName r) (Customer.firstName result)
    /\ takes (InsertCustomer.lastName customer) (Customer.lastName r) (Customer.lastName result)
    /\ takes (InsertCustomer.city customer) (Customer.city r) (Customer.city result)
    /\ takes (InsertCustomer.country customer) (Customer.country r) (Customer.country result)
    /\ takes (InsertCustomer.province customer) (Customer.province r) (Customer.province result)
    /\ takes (InsertCustomer.postalCode customer) (Customer.postalCode r) (Customer.postalCode result)
    /\ takes (InsertCustomer.tags customer) (Customer.tags r) (Customer.tags result)
    /\ takes (InsertCustomer.updatedAtShopify customer) (Customer.updatedAtShopify r)
         (Customer.updatedAtShopify result)
    /\ takes (InsertCustomer.lastOrderAt customer) (Customer.lastOrderAt r)
         (Customer.lastOrderAt result)
    /\ takes (asReal (InsertCustomer.totalSpent customer)) (Customer.totalSpent r)
         (Customer.totalSpent result)
    /\ takes (InsertCustomer.ordersCount customer) (Customer.ordersCount r)
         (Customer.ordersCount result)
    /\ (forall n, InsertCustomer.ordersCount customer = Val (Some n) ->
                  -2147483648 <= n <= 2147483647)
    /\ Customer.updatedAt result = now
    /\ Customer.createdAtShopify result = Customer.createdAtShopify r
    /\ Customer.genderInferred result = Customer.genderInferred r
    /\ Customer.genderConfidence result = Customer.genderConfidence r
    /\ Customer.enrichmentStatus result = Customer.enrichmentStatus r.
Proof.
  intros customer now db r Hget Htaken result.
  assert (Hres : result = conflictUpdate customer now r).
  { unfold result. rewrite upsertCustomer_result, Hget. reflexivity. }
  assert (Hrange : forall n, InsertCustomer.ordersCount customer = Val (Some n) ->
                             -2147483648 <= n <= 2147483647).
  { intros n Hn.
    pose proof (rejects_out_of_range customer db n Hn Htaken) as Hin.
    unfold integer in Hin. apply andb_prop in Hin. destruct Hin as [Hlow Hhigh].
    apply Z.leb_le in Hlow, Hhigh. split; assumption. }
  split; [apply upsertCustomer_get_same|].
  rewrite Hres. unfold conflictUpdate, takes, column, asReal. simpl.
  repeat split;
    match goal with
    | |- match ?f with _ => _ end => destruct f; reflexivity
    | |- _ <= _ => eapply Hrange; eassumption
    | |- _ => reflexivity
    end.
Qed.

End UpsertClaims.

Section UpsertExamples.

Import DatabaseStorage Notions.

Local Existing Instance plainDatabase.

(** On the stored customer 7001 and a payload that supplies a new email and
    status pending, with the database [plainDatabase], which takes the
    statement. *)
Lemma upsertCustomer_on_stored_id_witness :
  getCustomerByShopifyId 7001 enrichedDb = Some enrichedRow
  /\ rejects (UpsertCustomer resetPayload) enrichedDb = None
  /\ Customer.email (fst (upsertCustomer resetPayload 100 enrichedDb))
     = Some "ada@new.example"
  /\ Customer.enrichmentStatus (fst (upsertCustomer resetPayload 100 enrichedDb))
     = complete.
Proof.
  split; [reflexivity|]. split; [reflexivity|].
  pose proof (upsertCustomer_on_stored_id resetPayload 100 enrichedDb enrichedRow
                eq_refl eq_refl) as H.
  cbv zeta in H. split; [apply H | apply (proj2 H)].
Defined.

(** C3, as stated, fails: the stored customer is complete with a gender and
    a confidence, the call supplies status pending, a null gender, a null
    confidence and another source creation time, and the resulting row
    holds none of the four. *)
Lemma upsertCustomer_keeps_stored_enrichment :
  getCustomerByShopifyId (InsertCustomer.shopifyCustomerId resetPayload) enrichedDb
  = Some enrichedRow
  /\ InsertCustomer.enrichmentStatus resetPayload = Some pending
  /\ Customer.enrichmentStatus (fst (upsertCustomer resetPayload 100 enrichedDb))
     = complete
  /\ InsertCustomer.genderInferred resetPayload = Val None
  /\ Customer.genderInferred (fst (upsertCustomer resetPayload 100 enrichedDb))
     = Some "female"
  /\ InsertCustomer.genderConfidence resetPayload = Val None
  /\ Customer.genderConfidence (fst (upsertCustomer resetPayload 100 enrichedDb))
     = Some (Js.Num (9 # 10))
  /\ InsertCustomer.createdAtShopify resetPayload = Val (Some 1500)
  /\ Customer.createdAtShopify (fst (upsertCustomer resetPayload 100 enrichedDb))
     = Some 1000.
Proof. repeat split. Qed.

End UpsertExamples.

(** *** Repeating an upsert *)

Section UpsertRepeated.

Import DatabaseStorage Notions.

Context {database : Database}.

(** A row on which a conflict update with [customer] changes [updatedAt]
    alone. *)
Local Abbreviation settled customer r :=
  (forall now, conflictUpdate customer now r = withUpdatedAt now r).

Lemma first_upsert_settled (customer : InsertCustomer.t) (now : Z) (db : Db.t) :
  settled customer (fst (upsertCustomer customer now db)).
Proof.
  intros now'. rewrite upsertCustomer_result.
  destruct (getCustomerByShopifyId _ db).
  - apply conflictUpdate_again.
  - apply conflictUpdate_inserted.
Qed.

Lemma upsert_stored_length (customer : InsertCustomer.t) (now : Z) (db : Db.t)
    (r : Customer.t) :
  getCustomerByShopifyId (InsertCustomer.shopifyCustomerId customer) db = Some r ->
  List.length (Db.customers (snd (upsertCustomer customer now db)))
  = List.length (Db.customers db).
Proof.
  intros Hget.
  rewrite <- (length_map Customer.shopifyCustomerId (Db.customers db)).
  rewrite <- (length_map Customer.shopifyCustomerId).
  rewrite upsertCustomer_rows.
  change (map Customer.shopifyCustomerId) with keys.
  rewrite upsertRows_keys. unfold getCustomerByShopifyId in Hget.
  rewrite Hget. reflexivity.
Qed.

Lemma last_after (x : Z) (l : list Z) (d : Z) : last (x :: l) d = last l x.
Proof.
  assert (Hd : forall (l' : list Z) (y d1 d2 : Z),
             last (y :: l') d1 = last (y :: l') d2).
  { induction l' as [|z l' IH]; intros y d1 d2; [reflexivity|].
    change (last (z :: l') d1 = last (z :: l') d2). apply IH. }
  destruct l as [|y l]; [reflexivity|].
  change (last (y :: l) d = last (y :: l) x). apply Hd.
Qed.

Lemma upsertAt_settled (customer : InsertCustomer.t) (later : list Z) :
  forall (now : Z) (db : Db.t) (r : Customer.t),
    settled customer r ->
    getCustomerByShopifyId (InsertCustomer.shopifyCustomerId customer) db = Some r ->
    getCustomerByShopifyId (InsertCustomer.shopifyCustomerId customer)
      (upsertAt customer (now :: later) db)
    = Some (withUpdatedAt (last later now) r)
    /\ List.length (Db.customers (upsertAt customer (now :: later) db))
       = List.length (Db.customers db).
Proof.
  induction later as [|next later IH]; intros now db r Hs Hget.
  - simpl. rewrite upsertCustomer_get_same, upsertCustomer_result, Hget, Hs.
    split; [reflexivity | eapply upsert_stored_length; exact Hget].
  - change (upsertAt customer (now :: next :: later) db)
      with (upsertAt customer (next :: later)
              (snd (upsertCustomer customer now db))).
    assert (Hget' :
      getCustomerByShopifyId (InsertCustomer.shopifyCustomerId customer)
        (snd (upsertCustomer customer now db)) = Some (withUpdatedAt now r)).
    { rewrite upsertCustomer_get_same, upsertCustomer_result, Hget, Hs.
      reflexivity. }
    assert (Hs' : settled customer (withUpdatedAt now r)).
    { intros now'. rewrite conflictUpdate_touched, withUpdatedAt_twice. apply Hs. }
    destruct (IH next _ _ Hs' Hget') as [Hrow Hlen].
    rewrite Hrow, Hlen, withUpdatedAt_twice.
    split.
    + rewrite (last_after next later now). reflexivity.
    + eapply upsert_stored_length; exact Hget.
Qed.

Lemma upsertAt_unique (customer : InsertCustomer.t) (times : list Z) :
  forall db, unique_keys db -> unique_keys (upsertAt customer times db).
Proof.
  induction times as [|now later IH]; intros db Hu; simpl; [exact Hu|].
  apply IH, upsertCustomer_unique, Hu.
Qed.

Lemma upsertAt_get_other (customer : InsertCustomer.t) (other : Z)
    (times : list Z) :
  other <> InsertCustomer.shopifyCustomerId customer ->
  forall db,
    getCustomerByShopifyId other (upsertAt customer times db)
    = getCustomerByShopifyId other db.
Proof.
  intros Hne. induction times as [|now later IH]; intros db; simpl; [reflexivity|].
  rewrite IH. apply upsertCustomer_get_other. exact Hne.
Qed.


End UpsertRepeated.

Section UpsertRepeatedExamples.

Import DatabaseStorage Notions.

Local Existing Instance plainDatabase.



End UpsertRepeatedExamples.

(** ** A stored enrichment survives a re-sync and a repeated webhook *)

Section EnrichmentKept.

Import DatabaseStorage Notions ShopifyClient.

Context {rt : Js.Runtime} {cfg : SyncJob.Config} {database : Database}.

(** The store that a turn of [onBatch] leaves: the store it found when it
    threw before its write, and else the store that the upsert of its
    payload leaves. *)
Lemma syncOne_store (now : Z) (customer : TransformedCustomer.t)
    (db : Db.t) (n : SyncJob.Counters) :
  fst (fst (SyncJob.syncOne now customer (db, n))) = db
  \/ exists payload,
       SyncJob.insertData customer
         (getCustomerByShopifyId
            (TransformedCustomer.shopifyCustomerId customer) db) = Some payload
       /\ rejects (UpsertCustomer payload) db = None
       /\ fst (fst (SyncJob.syncOne now customer (db, n)))
          = snd (upsertCustomer payload now db).
Proof.
  unfold SyncJob.syncOne.
  destruct (rejects (GetCustomerByShopifyId _) db); [left; reflexivity|].
  destruct (SyncJob.insertData customer _) as [payload|] eqn:Epayload;
    [|left; reflexivity].
  destruct (rejects (UpsertCustomer payload) db) eqn:Etaken; [left; reflexivity|].
  right. exists payload. split; [reflexivity|]. split; [exact Etaken|].
  destruct (upsertCustomer payload now db) as [upserted db'].
  destruct (if (SyncJob.SYNC_GENDER_TO_TAGS
                && SyncJob.known_gender (Customer.genderInferred upserted))%bool
            then SyncJob.applyGenderTag upserted else None); reflexivity.
Qed.

Lemma syncOne_inference_store
    (provider : TransformedCustomer.t -> Enrichment.completion) (now : Z)
    (customer : TransformedCustomer.t) (db : Db.t) (n : SyncJob.Counters) :
  fst (fst (SyncJobInference.syncOne provider now customer (db, n))) = db
  \/ exists payload,
       rejects (UpsertCustomer payload) db = None
       /\ SyncJobInference.syncOne provider now customer (db, n) =
          ((snd (upsertCustomer payload now db),
            SyncJob.count
              (getCustomerByShopifyId
                 (TransformedCustomer.shopifyCustomerId customer) db) n),
           None).
Proof.
  unfold SyncJobInference.syncOne.
  destruct (rejects (GetCustomerByShopifyId _) db); [left; reflexivity|].
  destruct (SyncJobInference.insertData customer _ _) as [payload|];
    [|left; reflexivity].
  destruct (rejects (UpsertCustomer payload) db) eqn:Etaken; [left; reflexivity|].
  right. exists payload. split; [exact Etaken|].
  destruct (upsertCustomer payload now db) as [upserted db'] eqn:E.
  reflexivity.
Qed.

(** The rows whose enrichment columns are those of [r], under the external
    id of [r]. *)
Local Abbreviation keeps shopifyId r db :=
  (exists r', getCustomerByShopifyId shopifyId db = Some r'
              /\ enrichment r' = enrichment r).

Lemma keeps_upsert (payload : InsertCustomer.t) (now shopifyId : Z)
    (r : Customer.t) (db : Db.t) :
  keeps shopifyId r db ->
  keeps shopifyId r (snd (upsertCustomer payload now db)).
Proof.
  intros (r1 & Hget1 & He1).
  destruct (upsertCustomer_keeps_enrichment payload shopifyId now db r1 Hget1)
    as (r2 & Hget2 & He2).
  exists r2. split; [exact Hget2 | congruence].
Qed.

Lemma keeps_same_rows (shopifyId : Z) (r : Customer.t) (db db' : Db.t) :
  Db.customers db' = Db.customers db ->
  keeps shopifyId r db -> keeps shopifyId r db'.
Proof.
  unfold getCustomerByShopifyId. intros ->. exact (fun H => H).
Qed.

(** Both revisions of [onBatch] leave the enrichment columns of every
    stored row as they were. *)
Lemma onBatch_keeps_enrichment (clock : TransformedCustomer.t -> Z)
    (shopifyId : Z) (r : Customer.t) (customers : list TransformedCustomer.t) :
  forall (db : Db.t) (n : SyncJob.Counters),
    keeps shopifyId r db ->
    keeps shopifyId r (fst (fst (SyncJob.onBatch clock customers (db, n)))).
Proof.
  induction customers as [|customer rest IH]; intros db n Hkeeps; [exact Hkeeps|].
  cbn [SyncJob.onBatch].
  pose proof (syncOne_store (clock customer) customer db n) as Hdb.
  destruct (SyncJob.syncOne (clock customer) customer (db, n))
    as [[db' n'] thrown].
  cbn [fst] in Hdb.
  assert (Hkeeps' : keeps shopifyId r db').
  { destruct Hdb as [->|(payload & _ & _ & ->)];
      [exact Hkeeps | apply keeps_upsert, Hkeeps]. }
  destruct thrown as [err|]; [exact Hkeeps' | apply IH, Hkeeps'].
Qed.

Lemma onBatch_inference_keeps_enrichment
    (provider : TransformedCustomer.t -> Enrichment.completion)
    (clock : TransformedCustomer.t -> Z) (shopifyId : Z) (r : Customer.t)
    (customers : list TransformedCustomer.t) :
  forall (db : Db.t) (n : SyncJob.Counters),
    keeps shopifyId r db ->
    keeps shopifyId r
      (fst (fst (SyncJobInference.onBatch provider clock customers (db, n)))).
Proof.
  induction customers as [|customer rest IH]; intros db n Hkeeps; [exact Hkeeps|].
  cbn [SyncJobInference.onBatch].
  pose proof (syncOne_inference_store provider (clock customer) customer db n)
    as Hdb.
  destruct (SyncJobInference.syncOne provider (clock customer) customer (db, n))
    as [[db' n'] thrown].
  cbn [fst] in Hdb.
  assert (Hkeeps' : keeps shopifyId r db').
  { destruct Hdb as [->|(payload & _ & E)]; [exact Hkeeps|].
    injection E as -> _ _. apply keeps_upsert, Hkeeps. }
  destruct thrown as [err|]; [exact Hkeeps' | apply IH, Hkeeps'].
Qed.

(** What holds of the state of the callback before the loop of
    [fetchAllCustomers] holds after it, however the loop ends, when every
    call of the callback keeps it. *)
Lemma fetchAll_loop_keeps {St : Type}
    (callback : list TransformedCustomer.t -> St -> St * option error)
    (since : option Z) (P : St -> Prop) :
  (forall batch st, P st -> P (fst (callback batch st))) ->
  forall script pageInfo info tr n st,
    P st ->
    P (snd (fetchAll_loop callback since pageInfo script info tr n st)).
Proof.
  intros Hkeeps. induction script as [|reply rest IH];
    intros pageInfo info tr n st Hst; [exact Hst|].
  cbn [fetchAll_loop]. destruct reply as [|response]; [exact Hst|].
  destruct (negb (Response.ok response)); [exact Hst|].
  destruct (map transformCustomer (Response.customers response)) as [|x xs].
  - destruct (_ && _)%bool; [apply IH, Hst | exact Hst].
  - pose proof (Hkeeps (x :: xs) st Hst) as Hst'.
    destruct (callback (x :: xs) st) as [st' thrown]. simpl in Hst'.
    destruct thrown; [exact Hst'|].
    destruct (_ && _)%bool; [apply IH, Hst' | exact Hst'].
Qed.

(** What a run of [syncCustomers] keeps of the stored customers: a property
    of the rows that every call of the callback keeps holds after the run,
    however it ends, since the statements on the sync logs leave the
    customers alone. *)
Lemma syncWith_keeps (since : Db.t -> string + option Z)
    (callback : list TransformedCustomer.t -> Db.t * SyncJob.Counters ->
                (Db.t * SyncJob.Counters) * option error)
    (P : list Customer.t -> Prop) :
  (forall batch st,
      P (Db.customers (fst st)) ->
      P (Db.customers (fst (fst (callback batch st))))) ->
  forall incremental startedAt settledAt flag client db,
    P (Db.customers db) ->
    P (Db.customers
         (snd (SyncJob.syncWith since callback incremental startedAt settledAt
                 flag client db))).
Proof.
  intros Hkeeps incremental startedAt settledAt flag client db Hdb.
  assert (Hfail : forall syncLog err c d,
             P (Db.customers d) ->
             P (Db.customers (snd (SyncJob.failWith syncLog err settledAt c d)))).
  { intros syncLog err c d Hd. unfold SyncJob.failWith.
    destruct (rejects _ d); exact Hd. }
  unfold SyncJob.syncWith.
  destruct flag; [exact Hdb|].
  destruct (rejects (CreateSyncLog _) db); [exact Hdb|].
  destruct (createSyncLog (SyncJob.runningLog incremental) startedAt db)
    as [syncLog db1] eqn:Ecreate.
  assert (Hdb1 : P (Db.customers db1)).
  { apply (f_equal snd) in Ecreate. simpl in Ecreate. subst db1. exact Hdb. }
  destruct (since db1) as [rejection|updatedAtMin]; [apply Hfail, Hdb1|].
  pose proof (fetchAll_loop_keeps callback updatedAtMin
                (fun st => P (Db.customers (fst st))) Hkeeps
                (replies client) None (lastRateLimitInfo client) (trace client)
                0 (db1, SyncJob.noCounts) Hdb1) as Hend.
  unfold fetchAllCustomers.
  destruct (fetchAll_loop callback updatedAtMin None (replies client)
              (lastRateLimitInfo client) (trace client) 0
              (db1, SyncJob.noCounts)) as [[ended client'] [db2 n]].
  cbn [snd fst] in Hend.
  destruct ended as [total|err|]; [| apply Hfail, Hend | exact Hend].
  destruct (rejects (UpdateSyncLog _ _) db2); [apply Hfail, Hend | exact Hend].
Qed.

(** A whole run of [syncCustomers] leaves the enrichment columns of every
    stored row as they were, however it ends. *)
Lemma syncCustomers_keeps_enrichment (incremental : bool)
    (startDate : option Z) (clock : TransformedCustomer.t -> Z)
    (startedAt settledAt : Z) (flag : bool) (client : Client) (db : Db.t)
    (shopifyId : Z) (r : Customer.t) :
  getCustomerByShopifyId shopifyId db = Some r ->
  exists r',
    getCustomerByShopifyId shopifyId
      (snd (SyncJob.syncCustomers incremental startDate clock startedAt
              settledAt flag client db)) = Some r'
    /\ enrichment r' = enrichment r.
Proof.
  intros Hget.
  apply (syncWith_keeps (SyncJob.updatedAtMin incremental startDate)
           (SyncJob.onBatch clock)
           (fun rows => exists r', find (has_key shopifyId) rows = Some r'
                                   /\ enrichment r' = enrichment r)).
  - intros batch [d n] Hd.
    exact (onBatch_keeps_enrichment clock shopifyId r batch d n Hd).
  - exists r. split; [exact Hget | reflexivity].
Qed.

(** C2. A stored customer whose enrichment is complete keeps its inferred
    gender, its confidence and the status complete through every batch that
    a sync processes, whether or not the batch holds its external id; this
    holds for [onBatch] of server/syncJob.ts and for the revision that
    infers while it syncs, whatever the provider would answer; and it holds
    through a whole run of [syncCustomers], whatever the source replies. *)
Theorem resync_keeps_complete_enrichment :
  forall (provider : TransformedCustomer.t -> Enrichment.completion)
         (clock : TransformedCustomer.t -> Z)
         (customers : list TransformedCustomer.t)
         (db : Db.t) (n : SyncJob.Counters) (shopifyId : Z) (r : Customer.t),
    getCustomerByShopifyId shopifyId db = Some r ->
    Customer.enrichmentStatus r = complete ->
    (forall incremental startDate startedAt settledAt client,
       exists r',
         getCustomerByShopifyId shopifyId
           (snd (SyncJob.syncCustomers incremental startDate clock startedAt
                   settledAt false client db)) = Some r'
         /\ Customer.genderInferred r' = Customer.genderInferred r
         /\ Customer.genderConfidence r' = Customer.genderConfidence r
         /\ Customer.enrichmentStatus r' = complete)
    /\
    (exists r',
       getCustomerByShopifyId shopifyId
         (fst (fst (SyncJob.onBatch clock customers (db, n)))) = Some r'
       /\ Customer.genderInferred r' = Customer.genderInferred r
       /\ Customer.genderConfidence r' = Customer.genderConfidence r
       /\ Customer.enrichmentStatus r' = complete)
    /\ (exists r',
          getCustomerByShopifyId shopifyId
            (fst (fst (SyncJobInference.onBatch provider clock customers (db, n))))
          = Some r'
          /\ Customer.genderInferred r' = Customer.genderInferred r
          /\ Customer.genderConfidence r' = Customer.genderConfidence r
          /\ Customer.enrichmentStatus r' = complete).
Proof.
  intros provider clock customers db n shopifyId r Hget Hc.
  assert (Hstart : keeps shopifyId r db).
  { exists r. split; [exact Hget | reflexivity]. }
  split; [|split].
  - intros incremental startDate startedAt settledAt client.
    destruct (syncCustomers_keeps_enrichment incremental startDate clock
                startedAt settledAt false client db shopifyId r Hget)
      as (r' & Hget' & He).
    exists r'. unfold enrichment in He. injection He as Hg Hconf Hs.
    repeat split; congruence.
  - destruct (onBatch_keeps_enrichment clock shopifyId r customers db n Hstart)
      as (r' & Hget' & He).
    exists r'. unfold enrichment in He. injection He as Hg Hconf Hs.
    repeat split; congruence.
  - destruct (onBatch_inference_keeps_enrichment provider clock shopifyId r
                customers db n Hstart) as (r' & Hget' & He).
    exists r'. unfold enrichment in He. injection He as Hg Hconf Hs.
    repeat split; congruence.
Qed.

(** What the handler of /webhooks/customers/create hands to the store says
    pending and names no gender. *)
Lemma createPayload_enrichment (customer : Routes.WebhookBody.t)
    (payload : InsertCustomer.t) :
  Routes.createPayload customer = Some payload ->
  InsertCustomer.shopifyCustomerId payload = Routes.WebhookBody.id customer
  /\ InsertCustomer.enrichmentStatus payload = Some pending
  /\ InsertCustomer.genderInferred payload = Undefined
  /\ InsertCustomer.genderConfidence payload = Undefined.
Proof.
  unfold Routes.createPayload.
  destruct (Js.Date_parse (Routes.WebhookBody.created_at customer));
    [|discriminate].
  destruct (Js.Date_parse (Routes.WebhookBody.updated_at customer));
    [|discriminate].
  intros E. injection E as <-. repeat split.
Qed.

(** How the [try] block of a webhook handler ends. *)
Lemma upsertOr500_cases (payload : option InsertCustomer.t) (now : Z) (db : Db.t) :
  (exists customer,
      payload = Some customer /\ rejects (UpsertCustomer customer) db = None
      /\ Routes.upsertOr500 payload now db
         = (200, snd (upsertCustomer customer now db)))
  \/ ((payload = None
       \/ exists customer,
            payload = Some customer
            /\ rejects (UpsertCustomer customer) db <> None)
      /\ Routes.upsertOr500 payload now db = (500, db)).
Proof.
  unfold Routes.upsertOr500. destruct payload as [customer|].
  - destruct (rejects (UpsertCustomer customer) db) eqn:E.
    + right. split; [|reflexivity]. right. exists customer.
      split; [reflexivity | congruence].
    + left. exists customer. repeat split. exact E.
  - right. split; [left|]; reflexivity.
Qed.

(** C10. A verified customer-created webhook for an external id that is
    stored leaves the stored gender, confidence and status as they were,
    although its payload says pending and names no gender and the handler
    does not read the stored row. This holds however the handler ends: it
    answers 200 when its payload can be encoded and the store takes the
    upsert, and 500 otherwise, and then it leaves the store as it was. *)
Theorem webhook_create_keeps_enrichment :
  forall (customer : Routes.WebhookBody.t) (now : Z) (db : Db.t)
         (r : Customer.t),
    getCustomerByShopifyId (Routes.WebhookBody.id customer) db = Some r ->
    (forall payload,
        Routes.createPayload customer = Some payload ->
        InsertCustomer.enrichmentStatus payload = Some pending
        /\ InsertCustomer.genderInferred payload = Undefined
        /\ InsertCustomer.genderConfidence payload = Undefined)
    /\ (fst (Routes.customersCreate true customer now db) = 200
        /\ (exists payload,
              Routes.createPayload customer = Some payload
              /\ rejects (UpsertCustomer payload) db = None)
        \/ fst (Routes.customersCreate true customer now db) = 500
           /\ snd (Routes.customersCreate true customer now db) = db)
    /\ exists r',
         getCustomerByShopifyId (Routes.WebhookBody.id customer)
           (snd (Routes.customersCreate true customer now db)) = Some r'
         /\ Customer.genderInferred r' = Customer.genderInferred r
         /\ Customer.genderConfidence r' = Customer.genderConfidence r
         /\ Customer.enrichmentStatus r' = Customer.enrichmentStatus r.
Proof.
  intros customer now db r Hget. split; [|split].
  - intros payload E. apply (createPayload_enrichment customer payload E).
  - unfold Routes.customersCreate. cbn [negb].
    destruct (upsertOr500_cases (Routes.createPayload customer) now db)
      as [(payload & E & Htaken & ->)|[_ ->]].
    + left. split; [reflexivity|]. exists payload. split; assumption.
    + right. split; reflexivity.
  - unfold Routes.customersCreate. cbn [negb].
    destruct (upsertOr500_cases (Routes.createPayload customer) now db)
      as [(payload & E & Htaken & ->)|[_ ->]]; cbn [snd].
    + destruct (upsertCustomer_keeps_enrichment payload
                  (Routes.WebhookBody.id customer) now db r Hget)
        as (r' & Hget' & He).
      exists r'. unfold enrichment in He. injection He as Hg Hconf Hs.
      repeat split; assumption.
    + exists r. repeat split. exact Hget.
Qed.

End EnrichmentKept.

Section EnrichmentKeptExamples.

Import DatabaseStorage Notions.

Local Existing Instance plainRuntime.
Local Existing Instance plainConfig.
Local Existing Instance plainDatabase.

(** A batch that holds the stored, complete customer 7001. *)
Lemma resync_keeps_complete_enrichment_witness :
  exists r',
    getCustomerByShopifyId 7001
      (fst (fst (SyncJob.onBatch (fun _ => 500) [sampleTransformed]
                   (enrichedDb, SyncJob.noCounts)))) = Some r'
    /\ Customer.genderInferred r' = Some "female"
    /\ Customer.genderConfidence r' = Some (Js.Num (9 # 10))
    /\ Customer.enrichmentStatus r' = complete.
Proof.
  exact (proj1 (proj2 (resync_keeps_complete_enrichment
                  (fun _ => Enrichment.Rejected) (fun _ => 500)
                  [sampleTransformed] enrichedDb
                  SyncJob.noCounts 7001 enrichedRow eq_refl eq_refl))).
Defined.

(** A customer-created webhook for the stored, complete customer 7001,
    which the handler answers with 200. *)
Lemma webhook_create_keeps_enrichment_witness :
  fst (Routes.customersCreate true sampleBody 500 enrichedDb) = 200
  /\ exists r',
       getCustomerByShopifyId 7001
         (snd (Routes.customersCreate true sampleBody 500 enrichedDb)) = Some r'
       /\ Customer.genderInferred r' = Some "female"
       /\ Customer.genderConfidence r' = Some (Js.Num (9 # 10))
       /\ Customer.enrichmentStatus r' = complete.
Proof.
  split; [reflexivity|].
  exact (proj2 (proj2
           (webhook_create_keeps_enrichment sampleBody 500 enrichedDb enrichedRow
              eq_refl))).
Defined.

End EnrichmentKeptExamples.

(** ** The validation of the provider's reply *)

Section InferGender.

Import Enrichment Notions.

Context {rt : Js.Runtime}.

Lemma Q_0_le_1 : (0 <= 1)%Q.
Proof. unfold Qle. simpl. lia. Qed.

Lemma clamp01_in_unit (q : Q) : (0 <= clamp01 q /\ clamp01 q <= 1)%Q.
Proof.
  unfold clamp01.
  destruct (Qle_bool 1 q) eqn:E1.
  - split; [apply Q_0_le_1 | apply Qle_refl].
  - destruct (Qle_bool q 0) eqn:E0.
    + split; [apply Qle_refl | apply Q_0_le_1].
    + split; apply Qlt_le_weak, Qnot_le_lt; intros H;
        apply Qle_bool_iff in H; congruence.
Qed.

(** [Math.max(0, Math.min(1, q || 0))] on a number that was parsed. *)
Lemma clamp_number (q : Q) :
  (let n := match Js.ToNumber
                    (Js.or_else (Some (Js.JNumber (Js.Num q))) (Js.JNumber Js.zero))
            with Some n => n | None => Js.NaN end in
   Js.Math_max Js.zero (Js.Math_min Js.one n)) = Js.Num (clamp01 q).
Proof.
  unfold clamp01, Js.or_else, Js.ToBoolean, Js.ToNumber.
  destruct (Qeq_bool q 0) eqn:Ez; simpl.
  - apply Qeq_bool_iff in Ez.
    assert (E1 : Qle_bool 1 q = false).
    { destruct (Qle_bool 1 q) eqn:E; [|reflexivity].
      apply Qle_bool_iff in E. rewrite Ez in E.
      unfold Qle in E. simpl in E. lia. }
    assert (E0 : Qle_bool q 0 = true).
    { apply Qle_bool_iff. rewrite Ez. apply Qle_refl. }
    rewrite E1, E0. reflexivity.
  - destruct (Qle_bool 1 q) eqn:E1; simpl; [reflexivity|].
    destruct (Qle_bool q 0) eqn:E0.
    + destruct (Qle_bool 0 q) eqn:E0'; [|reflexivity].
      apply Qle_bool_iff in E0, E0'.
      assert (Hq : (q == 0)%Q) by (apply Qle_antisym; assumption).
      apply Qeq_bool_iff in Hq. congruence.
    + destruct (Qle_bool 0 q) eqn:E0'; [reflexivity|].
      exfalso.
      assert (H1 : (q < 0)%Q).
      { apply Qnot_le_lt. intros H. apply Qle_bool_iff in H. congruence. }
      assert (H2 : (0 < q)%Q).
      { apply Qnot_le_lt. intros H. apply Qle_bool_iff in H. congruence. }
      exact (Qlt_irrefl 0 (Qlt_trans _ _ _ H2 H1)).
Qed.

Lemma clamp_in_unit (n : Js.number) :
  n <> Js.NaN -> in_unit (Js.Math_max Js.zero (Js.Math_min Js.one n)).
Proof.
  destruct n as [|q| |]; intros Hn; [congruence| |simpl|simpl].
  - unfold Js.Math_min, Js.one, Js.leb.
    destruct (Qle_bool 1 q) eqn:E1; simpl.
    + split; [apply Q_0_le_1 | apply Qle_refl].
    + destruct (Qle_bool 0 q) eqn:E0; simpl.
      * split; [apply Qle_bool_iff; exact E0|].
        apply Qlt_le_weak, Qnot_le_lt. intros H.
        apply Qle_bool_iff in H. congruence.
      * split; [apply Qle_refl | apply Q_0_le_1].
  - split; [apply Q_0_le_1 | apply Qle_refl].
  - split; [apply Qle_refl | apply Q_0_le_1].
Qed.

Lemma clamp_nan (n : Js.number) :
  Js.Math_max Js.zero (Js.Math_min Js.one n) = Js.NaN -> n = Js.NaN.
Proof.
  intros H. destruct n as [|q| |]; [reflexivity| | |].
  - exfalso. assert (Hu := clamp_in_unit (Js.Num q)).
    rewrite H in Hu. apply Hu. discriminate.
  - discriminate H.
  - discriminate H.
Qed.

Lemma includes_valid (v : option Js.json) :
  includes validGenders v = true ->
  exists s, v = Some (Js.JString s) /\ In s validGenders.
Proof.
  destruct v as [[| | |s| |]|]; simpl; try discriminate.
  intros H. exists s. split; [reflexivity|].
  rewrite !orb_true_iff in H. simpl.
  destruct H as [H|[H|[H|H]]]; try discriminate;
    apply String.eqb_eq in H; subst; tauto.
Qed.

Lemma unknown_is_valid : In "unknown" validGenders.
Proof. simpl. tauto. Qed.

(** What [inferGender] returns is the fallback, or the validated reading
    of an object (or array) that was parsed. *)
Lemma inferGender_cases (reply : completion) :
  inferGender reply = unknown_result
  \/ exists content props n,
       reply = Content (Some content)
       /\ content <> ""
       /\ option_map named_props (Js.JSON_parse content) = Some (Some props)
       /\ Js.ToNumber (Js.or_else (Js.get "confidence" props) (Js.JNumber Js.zero))
          = Some n
       /\ inferGender reply =
          {| gender :=
               if includes validGenders (Js.get "gender" props) then
                 match Js.get "gender" props with
                 | Some (Js.JString s) => s
                 | _ => "unknown"
                 end
               else "unknown";
             confidence := Js.Math_max Js.zero (Js.Math_min Js.one n) |}.
Proof.
  destruct reply as [|[content|]]; [left; reflexivity| |left; reflexivity].
  unfold inferGender.
  destruct (String.eqb_spec content "") as [->|Hne]; [left; reflexivity|].
  destruct (Js.JSON_parse content) as [result|] eqn:Ep; [|left; reflexivity].
  destruct (named_props result) as [props|] eqn:En; [|left; reflexivity].
  destruct (Js.ToNumber _) as [n|] eqn:Et; [|left; reflexivity].
  right. exists content, props, n. rewrite Ep. simpl. rewrite En.
  repeat split; assumption.
Qed.

Lemma inferGender_object (content : string) (props : list (string * Js.json))
    (n : Js.number) :
  content <> "" ->
  Js.JSON_parse content = Some (Js.JObject props) ->
  Js.ToNumber (Js.or_else (Js.get "confidence" props) (Js.JNumber Js.zero)) = Some n ->
  inferGender (Content (Some content)) =
  {| gender :=
       if includes validGenders (Js.get "gender" props) then
         match Js.get "gender" props with
         | Some (Js.JString s) => s
         | _ => "unknown"
         end
       else "unknown";
     confidence := Js.Math_max Js.zero (Js.Math_min Js.one n) |}.
Proof.
  intros Hne Hp Hn. unfold inferGender.
  destruct (String.eqb_spec content "") as [->|_]; [congruence|].
  rewrite Hp. simpl. rewrite Hn. reflexivity.
Qed.

(** C5, as amended. For every reply of the provider the gender that
    [inferGender] returns is male, female or unknown, and its confidence,
    unless it is NaN, lies in [0, 1]. A rejected call, an empty or null
    content and a content that does not parse give unknown with confidence
    0. For a parsed object whose confidence is a number [q] (or is
    missing), the confidence returned is [q] clamped into [0, 1] (0 when
    missing), also when the gender is none of the three: then the gender
    alone is forced to unknown. A gender among the three is returned as it
    is; male with 1.7 gives male with 1. *)
Theorem inferGender_validated :
  (forall reply, In (gender (inferGender reply)) validGenders)
  /\ (forall reply,
        confidence (inferGender reply) <> Js.NaN ->
        in_unit (confidence (inferGender reply)))
  /\ (forall q, in_unit (Js.Num (clamp01 q)))
  /\ inferGender Rejected = unknown_result
  /\ inferGender (Content None) = unknown_result
  /\ inferGender (Content (Some "")) = unknown_result
  /\ (forall content,
        Js.JSON_parse content = None ->
        inferGender (Content (Some content)) = unknown_result)
  /\ (forall content props q,
        content <> "" ->
        Js.JSON_parse content = Some (Js.JObject props) ->
        Js.get "confidence" props = Some (Js.JNumber (Js.Num q)) ->
        includes validGenders (Js.get "gender" props) = false ->
        inferGender (Content (Some content)) =
        {| gender := "unknown"; confidence := Js.Num (clamp01 q) |})
  /\ (forall content props g q,
        content <> "" ->
        Js.JSON_parse content = Some (Js.JObject props) ->
        Js.get "confidence" props = Some (Js.JNumber (Js.Num q)) ->
        Js.get "gender" props = Some (Js.JString g) ->
        In g validGenders ->
        inferGender (Content (Some content)) =
        {| gender := g; confidence := Js.Num (clamp01 q) |})
  /\ (forall content props,
        content <> "" ->
        Js.JSON_parse content = Some (Js.JObject props) ->
        Js.get "confidence" props = None ->
        confidence (inferGender (Content (Some content))) = Js.zero)
  /\ (forall content,
        content <> "" ->
        Js.JSON_parse content = Some overconfidentReply ->
        inferGender (Content (Some content)) =
        {| gender := "male"; confidence := Js.one |}).
Proof.
  assert (Hnum : forall content props q,
             content <> "" ->
             Js.JSON_parse content = Some (Js.JObject props) ->
             Js.get "confidence" props = Some (Js.JNumber (Js.Num q)) ->
             inferGender (Content (Some content)) =
             {| gender :=
                  if includes validGenders (Js.get "gender" props) then
                    match Js.get "gender" props with
                    | Some (Js.JString s) => s
                    | _ => "unknown"
                    end
                  else "unknown";
                confidence := Js.Num (clamp01 q) |}).
  { intros content props q Hne Hp Hc.
    rewrite <- (clamp_number q). cbv zeta.
    destruct (Js.ToNumber
                (Js.or_else (Some (Js.JNumber (Js.Num q))) (Js.JNumber Js.zero)))
      as [n|] eqn:En.
    - apply inferGender_object; [assumption | assumption |].
      rewrite Hc. exact En.
    - unfold Js.or_else, Js.ToNumber in En.
      destruct (Js.ToBoolean _); discriminate En. }
  repeat split.
  - intros reply. destruct (inferGender_cases reply)
      as [->|(content & props & n & _ & _ & _ & _ & ->)].
    + apply unknown_is_valid.
    + simpl gender.
      destruct (includes validGenders (Js.get "gender" props)) eqn:Ei;
        [|apply unknown_is_valid].
      destruct (includes_valid _ Ei) as (s & -> & Hs). exact Hs.
  - intros reply. destruct (inferGender_cases reply)
      as [->|(content & props & n & _ & _ & _ & _ & ->)].
    + intros _. simpl. split; [apply Qle_refl | apply Q_0_le_1].
    + simpl confidence. intros Hn. apply clamp_in_unit.
      intros ->. apply Hn. reflexivity.
  - apply clamp01_in_unit.
  - apply clamp01_in_unit.
  - intros content Hp. unfold inferGender.
    destruct (String.eqb content ""); [reflexivity|]. rewrite Hp. reflexivity.
  - intros content props q Hne Hp Hc Hi.
    rewrite (Hnum content props q Hne Hp Hc), Hi. reflexivity.
  - intros content props g q Hne Hp Hc Hg Hin.
    rewrite (Hnum content props q Hne Hp Hc), Hg.
    assert (Hi : includes validGenders (Some (Js.JString g)) = true).
    { simpl. simpl in Hin.
      destruct Hin as [<-|[<-|[<-|[]]]]; reflexivity. }
    rewrite Hi. reflexivity.
  - intros content props Hne Hp Hc.
    rewrite (inferGender_object content props Js.zero Hne Hp).
    + reflexivity.
    + rewrite Hc. reflexivity.
  - intros content Hne Hp.
    rewrite (Hnum content _ (17 # 10)%Q Hne Hp eq_refl). reflexivity.
Qed.

(** X5. A confidence that is a text which does not read as a number is not
    clamped: [Math.min] gives NaN, and NaN is what comes back. *)
Lemma inferGender_nan_confidence (content : string)
    (props : list (string * Js.json)) (s : string) :
  content <> "" ->
  Js.JSON_parse content = Some (Js.JObject props) ->
  Js.get "confidence" props = Some (Js.JString s) ->
  s <> "" ->
  Js.StringToNumber s = Js.NaN ->
  confidence (inferGender (Content (Some content))) = Js.NaN.
Proof.
  intros Hne Hp Hc Hs Hnan.
  rewrite (inferGender_object content props Js.NaN Hne Hp).
  - reflexivity.
  - rewrite Hc. unfold Js.or_else, Js.ToBoolean.
    destruct (String.eqb_spec s ""); [congruence|]. simpl. rewrite Hnan.
    reflexivity.
Qed.

End InferGender.

(** A reply whose confidence is the word high. *)
Lemma inferGender_nan_confidence_witness :
  Enrichment.confidence
    (Enrichment.inferGender
       (rt := Notions.runtimeParsing "reply"
                (Js.JObject [("gender", Js.JString "male");
                             ("confidence", Js.JString "high")]))
       (Enrichment.Content (Some "reply")))
  = Js.NaN.
Proof.
  apply (inferGender_nan_confidence
           (rt := Notions.runtimeParsing "reply"
                    (Js.JObject [("gender", Js.JString "male");
                                 ("confidence", Js.JString "high")]))
           "reply"
           [("gender", Js.JString "male"); ("confidence", Js.JString "high")]
           "high");
    [discriminate | reflexivity | reflexivity | discriminate | reflexivity].
Defined.

(** The scenario reply, and a reply whose gender is not accepted. *)
Lemma inferGender_validated_witness :
  Enrichment.inferGender (rt := Notions.runtimeParsing "reply" Notions.overconfidentReply)
    (Enrichment.Content (Some "reply"))
  = {| Enrichment.gender := "male"; Enrichment.confidence := Js.one |}
  /\ Notions.in_unit
       (Enrichment.confidence
          (Enrichment.inferGender
             (rt := Notions.runtimeParsing "reply" Notions.otherGenderReply)
             (Enrichment.Content (Some "reply")))).
Proof.
  split.
  - apply (inferGender_validated
             (rt := Notions.runtimeParsing "reply" Notions.overconfidentReply));
      [discriminate | reflexivity].
  - apply (inferGender_validated
             (rt := Notions.runtimeParsing "reply" Notions.otherGenderReply)).
    discriminate.
Defined.

(** C5, as stated, fails: a reply whose gender is none of the accepted
    three and whose confidence is 0.8 comes back as unknown with
    confidence 0.8, not with confidence 0. *)
Lemma inferGender_keeps_confidence_of_unknown_gender :
  Enrichment.includes Enrichment.validGenders
    (Js.get "gender" [("gender", Js.JString "other");
                      ("confidence", Js.JNumber (Js.Num (4 # 5)))]) = false
  /\ (forall (rt : Js.Runtime) (content : string),
        content <> "" ->
        Js.JSON_parse content = Some Notions.otherGenderReply ->
        Enrichment.inferGender (Enrichment.Content (Some content))
        = {| Enrichment.gender := "unknown";
             Enrichment.confidence := Js.Num (4 # 5) |})
  /\ Enrichment.inferGender
       (rt := Notions.runtimeParsing "reply" Notions.otherGenderReply)
       (Enrichment.Content (Some "reply"))
     <> Enrichment.unknown_result.
Proof.
  split; [reflexivity|]. split.
  - intros rt content Hne Hp.
    apply (inferGender_object content _ (Js.Num (4 # 5)) Hne Hp). reflexivity.
  - discriminate.
Qed.

(** ** The window of an incremental sync *)

Section Window.

Import DatabaseStorage Notions ShopifyClient.

Context {rt : Js.Runtime} {cfg : SyncJob.Config} {database : Database}.

(** The log that is stored last is the latest one when it started after
    every other. *)
Lemma latestLog_appended (logs : list SyncLog.t) (row : SyncLog.t) :
  Forall (fun l => SyncLog.startedAt l < SyncLog.startedAt row) logs ->
  latestLog (logs ++ [row]) = Some row.
Proof.
  induction logs as [|l rest IH]; intros Hall; simpl; [reflexivity|].
  inversion Hall as [|? ? Hl Hrest]; subst.
  rewrite (IH Hrest).
  destruct (Z.ltb_spec (SyncLog.startedAt row) (SyncLog.startedAt l)); [lia|].
  destruct (Z.ltb_spec (SyncLog.startedAt l) (SyncLog.startedAt row));
    [reflexivity | lia].
Qed.

(** X4. The log that a run has just created is the latest one when it started
    after every other, and it has no [completedAt]: within a run the last
    candidate is never there. *)
Lemma latestLog_after_create (log : InsertSyncLog.t) (now : Z) (db : Db.t) :
  Forall (fun l => SyncLog.startedAt l < now) (Db.syncLogs db) ->
  DatabaseStorage.getLatestSyncLog (snd (DatabaseStorage.createSyncLog log now db))
  = Some (fst (DatabaseStorage.createSyncLog log now db)).
Proof.
  intros Hall. unfold DatabaseStorage.getLatestSyncLog, DatabaseStorage.createSyncLog.
  cbn [fst snd Db.syncLogs]. apply latestLog_appended. exact Hall.
Qed.

(** The log that a run has created and found to be the latest gives no
    date. *)
Lemma own_log_gives_no_date (incremental : bool) (now : Z) (db : Db.t) :
  Forall (fun l => SyncLog.startedAt l < now) (Db.syncLogs db) ->
  SyncJob.completedAt_of
    (getLatestSyncLog
       (snd (createSyncLog (SyncJob.runningLog incremental) now db))) = None.
Proof.
  intros Hall. unfold getLatestSyncLog, createSyncLog.
  cbn [fst snd Db.syncLogs]. rewrite latestLog_appended; [reflexivity | exact Hall].
Qed.

(** What the loop of [fetchAllCustomers] asks of the platform: first the
    page it is entered for, and after it only pages of a cursor, with its
    pauses in between. *)
Lemma fetchAll_loop_trace {St : Type}
    (callback : list TransformedCustomer.t -> St -> St * option error)
    (since : option Z) :
  forall script pageInfo info tr n st,
    exists later,
      trace (snd (fst (fetchAll_loop callback since pageInfo script info tr n st)))
      = tr ++ Fetch (request since pageInfo) :: later
      /\ Forall (fun e => first_request e = false) later.
Proof.
  assert (Hnow : forall (tr : list event) e,
             exists later,
               tr ++ [Fetch e] = tr ++ Fetch e :: later
               /\ Forall (fun e => first_request e = false) later).
  { intros tr e. exists []. split; [reflexivity | constructor]. }
  induction script as [|reply rest IH]; intros pageInfo info tr n st;
    cbn [fetchAll_loop];
    change (match pageInfo with
            | Some p => CustomersPage 250 p
            | None => CustomersFirst 250 since
            end) with (request since pageInfo);
    [apply Hnow|].
  destruct reply as [|response]; [apply Hnow|].
  destruct (negb (Response.ok response)); [apply Hnow|].
  set (pageInfo' := string_or_null (Response.linkNext response)).
  set (batch := map transformCustomer (Response.customers response)).
  set (called := match batch with
                 | [] => (st, None)
                 | _ :: _ => callback batch st
                 end).
  clearbody called. destruct called as [st' thrown].
  destruct thrown as [err|]; [apply Hnow|].
  set (pause := Delay (Some (if near_limit (parseRateLimitHeader
                                               (Response.callLimit response))
                             then 2000 else 500))).
  destruct pageInfo' as [p|]; cbn [andb].
  - destruct (Z.of_nat (List.length (Response.customers response)) =? 250).
    + destruct (IH (Some p) (parseRateLimitHeader (Response.callLimit response))
                  ((tr ++ [Fetch (request since pageInfo)]) ++ [pause])
                  (n + Z.of_nat (List.length batch)) st')
        as (later & -> & Hlater).
      exists (pause :: Fetch (request since (Some p)) :: later). split.
      * rewrite <- !app_assoc. reflexivity.
      * repeat constructor. exact Hlater.
    + exists [pause]. cbn [trace snd fst]. split.
      * rewrite <- app_assoc. reflexivity.
      * repeat constructor.
  - exists [pause]. cbn [trace snd fst]. split.
    + rewrite <- app_assoc. reflexivity.
    + repeat constructor.
Qed.

(** A run that has created its log and found its window asks the platform
    for the first page with that window, and for no other first page. *)
Lemma syncWith_trace (since : Db.t -> string + option Z)
    (callback : list TransformedCustomer.t -> Db.t * SyncJob.Counters ->
                (Db.t * SyncJob.Counters) * option error)
    (incremental : bool) (startedAt settledAt : Z) (client : Client)
    (db : Db.t) (updatedAtMin : option Z) :
  rejects (CreateSyncLog (SyncJob.runningLog incremental)) db = None ->
  since (snd (createSyncLog (SyncJob.runningLog incremental) startedAt db))
  = inr updatedAtMin ->
  exists later,
    trace (snd (fst (SyncJob.syncWith since callback incremental startedAt
                       settledAt false client db)))
    = trace client ++ Fetch (CustomersFirst 250 updatedAtMin) :: later
    /\ Forall (fun e => first_request e = false) later.
Proof.
  intros Htaken Hsince. unfold SyncJob.syncWith. rewrite Htaken.
  destruct (createSyncLog (SyncJob.runningLog incremental) startedAt db)
    as [syncLog db1].
  cbn [snd] in Hsince. rewrite Hsince.
  unfold fetchAllCustomers.
  destruct (fetchAll_loop_trace callback updatedAtMin (replies client) None
              (lastRateLimitInfo client) (trace client) 0
              (db1, SyncJob.noCounts)) as (later & Htrace & Hlater).
  destruct (fetchAll_loop callback updatedAtMin None (replies client)
              (lastRateLimitInfo client) (trace client) 0
              (db1, SyncJob.noCounts)) as [[ended client'] [db2 n]].
  cbn [snd fst] in Htrace. exists later. split; [|exact Hlater].
  change (Fetch (CustomersFirst 250 updatedAtMin))
    with (Fetch (request updatedAtMin None)).
  rewrite <- Htrace.
  destruct ended as [total|err|]; unfold SyncJob.failWith;
    repeat match goal with
           | |- context [rejects ?s ?d] => destruct (rejects s d)
           end; reflexivity.
Qed.

(** The date that the block of server/syncJob.ts finds, when it is not
    rejected. *)
Lemma updatedAtMin_found (incremental : bool) (startDate : option Z)
    (db : Db.t) (since : option Z) :
  SyncJob.updatedAtMin incremental startDate db = inr since ->
  since =
  if incremental
  then option_map SyncJob.minus5Minutes
         (first_some
            [startDate;
             configured;
             SyncJob.completedAt_of (getLatestSyncLog db)])
  else None.
Proof.
  unfold SyncJob.updatedAtMin, configured.
  destruct incremental; [|intros E; injection E as <-; reflexivity].
  destruct startDate as [d|]; cbn [SyncJob.date_or option_map first_some];
    [intros E; injection E as <-; reflexivity|].
  destruct SyncJob.INCREMENTAL_SYNC_START_DATE as [[d|]|];
    [intros E; injection E as <-; reflexivity | discriminate |].
  destruct (rejects GetLatestSyncLog db); [discriminate|].
  intros E. injection E as <-.
  destruct (SyncJob.completedAt_of (getLatestSyncLog db)); reflexivity.
Qed.

(** The same for the revision that asks the store for the latest customer
    date. *)
Lemma updatedAtMin_inference_found
    (getLatestCustomerUpdatedAt : Db.t -> option Z) (incremental : bool)
    (startDate : option Z) (db : Db.t) (since : option Z) :
  SyncJobInference.updatedAtMin getLatestCustomerUpdatedAt incremental
    startDate db = inr since ->
  since =
  if incremental
  then option_map SyncJob.minus5Minutes
         (first_some
            [startDate;
             configured;
             getLatestCustomerUpdatedAt db;
             SyncJob.completedAt_of (getLatestSyncLog db)])
  else None.
Proof.
  unfold SyncJobInference.updatedAtMin, configured.
  destruct incremental; [|intros E; injection E as <-; reflexivity].
  destruct startDate as [d|]; cbn [SyncJob.date_or option_map first_some];
    [intros E; injection E as <-; reflexivity|].
  destruct SyncJob.INCREMENTAL_SYNC_START_DATE as [[d|]|];
    [intros E; injection E as <-; reflexivity | discriminate |].
  destruct (rejects GetLatestCustomerUpdatedAt db); [discriminate|].
  destruct (getLatestCustomerUpdatedAt db) as [d|];
    [intros E; injection E as <-; reflexivity|].
  destruct (rejects GetLatestSyncLog db); [discriminate|].
  intros E. injection E as <-.
  destruct (SyncJob.completedAt_of (getLatestSyncLog db)); reflexivity.
Qed.

(** X3. The window of a run of [syncCustomers], in both revisions. A run
    that finds the flag clear, whose log the store creates and whose block
    for [updatedAtMin] is not rejected, asks the platform for the first
    page of customers once, before any other request, and that request
    carries the date found: in incremental mode the first that is there of
    the start date of the caller, the configured start date when it is a
    date, (in the revision that asks for it) the latest customer date as the store gives
    it, and the [completedAt] of the latest sync log of the store that
    already holds the log of this run, moved back by [minus5Minutes]; no
    date in full mode. When the run's log started after every stored log,
    the last candidate is never there. When the configured start date is
    the Invalid Date and the caller gives none, the block throws the
    RangeError of [toISOString]. *)
Theorem syncCustomers_window (incremental : bool) (startDate : option Z)
    (clock : TransformedCustomer.t -> Z) (startedAt settledAt : Z)
    (client : Client) (db : Db.t) :
  rejects (CreateSyncLog (SyncJob.runningLog incremental)) db = None ->
  let db1 := snd (createSyncLog (SyncJob.runningLog incremental) startedAt db) in
  (forall since,
      SyncJob.updatedAtMin incremental startDate db1 = inr since ->
      since =
      (if incremental
       then option_map SyncJob.minus5Minutes
              (first_some
                 [startDate;
                  configured;
                  SyncJob.completedAt_of (getLatestSyncLog db1)])
       else None)
      /\ exists later,
           trace (snd (fst (SyncJob.syncCustomers incremental startDate clock
                              startedAt settledAt false client db)))
           = trace client ++ Fetch (CustomersFirst 250 since) :: later
           /\ Forall (fun e => first_request e = false) later)
  /\ (forall getLatestCustomerUpdatedAt provider since,
        SyncJobInference.updatedAtMin getLatestCustomerUpdatedAt incremental
          startDate db1 = inr since ->
        since =
        (if incremental
         then option_map SyncJob.minus5Minutes
                (first_some
                   [startDate;
                    configured;
                    getLatestCustomerUpdatedAt db1;
                    SyncJob.completedAt_of (getLatestSyncLog db1)])
         else None)
        /\ exists later,
             trace (snd (fst (SyncJobInference.syncCustomers
                                getLatestCustomerUpdatedAt provider incremental
                                startDate clock startedAt settledAt false
                                client db)))
             = trace client ++ Fetch (CustomersFirst 250 since) :: later
             /\ Forall (fun e => first_request e = false) later)
  /\ (Forall (fun l => SyncLog.startedAt l < startedAt) (Db.syncLogs db) ->
      SyncJob.completedAt_of (getLatestSyncLog db1) = None)
  /\ (incremental = true -> startDate = None ->
      SyncJob.INCREMENTAL_SYNC_START_DATE = Some None ->
      forall d, SyncJob.updatedAtMin incremental startDate d
                = inl "Invalid time value").
Proof.
  intros Htaken db1. split; [|split; [|split]].
  - intros since Hsince. split.
    + apply updatedAtMin_found, Hsince.
    + apply syncWith_trace; assumption.
  - intros latest provider since Hsince. split.
    + apply updatedAtMin_inference_found, Hsince.
    + apply syncWith_trace; assumption.
  - apply own_log_gives_no_date.
  - intros -> -> Hconfigured d. unfold SyncJob.updatedAtMin.
    rewrite Hconfigured. reflexivity.
Qed.

End Window.

Section WindowExamples.

Import DatabaseStorage Notions ShopifyClient.

Local Existing Instance plainConfig.
Local Existing Instance plainDatabase.

(** A first run on an empty store: the log it creates at instant 100 is the
    latest one. *)
Lemma latestLog_after_create_witness :
  getLatestSyncLog (snd (createSyncLog (SyncJob.runningLog true) 100 Db.empty))
  = Some (fst (createSyncLog (SyncJob.runningLog true) 100 Db.empty))
  /\ SyncLog.completedAt
       (fst (createSyncLog (SyncJob.runningLog true) 100 Db.empty))
     = None.
Proof.
  split; [|reflexivity].
  apply (latestLog_after_create (SyncJob.runningLog true) 100 Db.empty).
  constructor.
Defined.

(** An incremental run with the start date 1000000 that the caller gave,
    on an empty store and in universal time: its first request carries the
    date 700000. *)
Lemma syncCustomers_window_witness :
  rejects (CreateSyncLog (SyncJob.runningLog true)) Db.empty = None
  /\ SyncJob.updatedAtMin (rt := plainRuntime) true (Some 1000000)
       (snd (createSyncLog (SyncJob.runningLog true) 100 Db.empty))
     = inr (Some 700000)
  /\ exists later,
       trace (snd (fst (SyncJob.syncCustomers (rt := plainRuntime) true
                          (Some 1000000) (fun _ => 150) 100 200 false
                          (start []) Db.empty)))
       = Fetch (CustomersFirst 250 (Some 700000)) :: later.
Proof.
  split; [reflexivity|]. split; [reflexivity|].
  destruct (proj1 (syncCustomers_window (rt := plainRuntime)
                     (cfg := plainConfig) (database := plainDatabase)
                     true (Some 1000000)
                     (fun _ => 150) 100 200 (start []) Db.empty eq_refl)
              (Some 700000) eq_refl) as (_ & later & Htrace & _).
  exists later. exact Htrace.
Defined.

(** C6. The claim fails on the code in two ways.
    First, the resume point of the last completed sync is never used: the
    run creates its own log before it asks for the latest log, so the
    latest log is its own, which has no [completedAt]. On a store without
    customers whose one sync log completed at instant 200, an incremental
    run started at instant 300 without a start date, in either revision,
    asks for the first page without a lower bound, where the claim has the
    bound 200 less five minutes.
    Second, the five minutes are taken off the minutes of local time. In
    central Europe, for the start date 26 March 2023, 01:01 universal time
    (03:01 local time, one minute after the clocks went from 02:00 to
    03:00), the date less five minutes is the local time 02:56, which the
    clocks skipped and which is read as 01:56 universal time: the window
    starts 55 minutes after the start date, not 5 minutes before it. *)
Theorem updatedAtMin_misses :
  (map SyncLog.completedAt (Db.syncLogs loggedOnly) = [Some 200]
   /\ trace (snd (fst (SyncJobInference.syncCustomers (rt := plainRuntime)
                         getLatestCustomerUpdatedAt (fun _ => Enrichment.Rejected)
                         true None (fun _ => 350) 300 400 false (start [])
                         loggedOnly)))
      = [Fetch (CustomersFirst 250 None)]
   /\ trace (snd (fst (SyncJob.syncCustomers (rt := plainRuntime)
                         true None (fun _ => 350) 300 400 false (start [])
                         loggedOnly)))
      = [Fetch (CustomersFirst 250 None)])
  /\ (SyncJob.minus5Minutes (rt := centralEurope) (springForward + 60000)
      = springForward + 60000 + 55 * 60 * 1000
      /\ trace (snd (fst (SyncJobInference.syncCustomers (rt := centralEurope)
                            getLatestCustomerUpdatedAt
                            (fun _ => Enrichment.Rejected)
                            true (Some (springForward + 60000)) (fun _ => 350)
                            300 400 false (start []) loggedOnly)))
         = [Fetch (CustomersFirst 250 (Some (springForward + 60000 + 3300000)))]).
Proof. repeat split. Qed.

End WindowExamples.

(** ** Bulk iteration over the pages *)

Section FetchAllFacts.

Import ShopifyClient Notions.

Context {rt : Js.Runtime}.

Variable since : option Z.

Lemma loop_on_final (response : Response.t) (rest : list reply)
    (pageInfo : option string) (info : RateLimitInfo) (tr : list event)
    (n : Z) (seen : list (list TransformedCustomer.t)) :
  final (Http response) = true ->
  exists c,
    fetchAll_loop recordBatches since pageInfo (Http response :: rest) info tr n seen
    = (Returned (n + Z.of_nat (List.length (Response.customers response))),
       c, seen_after response seen)
    /\ replies c = rest.
Proof.
  unfold final, has_cursor, seen_after. intros Hf.
  apply andb_true_iff in Hf. destruct Hf as [Hok Hstop].
  apply negb_true_iff in Hstop.
  cbn [fetchAll_loop]. rewrite Hok. cbn [negb].
  destruct (Response.customers response) as [|x xs] eqn:Ec;
    cbn [map recordBatches List.length] in *; rewrite ?length_map;
    rewrite Hstop; eexists; split; reflexivity.
Qed.

Lemma loop_on_continuing (response : Response.t) (rest : list reply)
    (pageInfo : option string) (info : RateLimitInfo) (tr : list event)
    (n : Z) (seen : list (list TransformedCustomer.t)) :
  continues (Http response) = true ->
  exists pageInfo' info' tr',
    fetchAll_loop recordBatches since pageInfo (Http response :: rest) info tr n seen
    = fetchAll_loop recordBatches since pageInfo' rest info' tr'
        (n + Z.of_nat (List.length (Response.customers response)))
        (seen_after response seen).
Proof.
  unfold continues, has_cursor, seen_after. intros Hc.
  apply andb_true_iff in Hc. destruct Hc as [Hc H250].
  apply andb_true_iff in Hc. destruct Hc as [Hok Hcur].
  cbn [fetchAll_loop]. rewrite Hok. cbn [negb].
  destruct (string_or_null (Response.linkNext response)) as [cursor|];
    [|discriminate].
  destruct (Response.customers response) as [|x xs] eqn:Ec;
    cbn [map recordBatches List.length] in *; rewrite ?length_map.
  - discriminate.
  - rewrite H250. cbn [andb]. do 3 eexists. reflexivity.
Qed.

Lemma total_app (xs ys : list reply) : total (xs ++ ys) = total xs + total ys.
Proof.
  induction xs as [|x xs IH]; simpl; [reflexivity|].
  unfold total in *. simpl. rewrite IH. lia.
Qed.

Lemma batches_app (xs ys : list reply) :
  batches (xs ++ ys) = batches xs ++ batches ys.
Proof.
  induction xs as [|x xs IH]; simpl; [reflexivity|].
  destruct (records x); [exact IH|]. simpl. rewrite IH. reflexivity.
Qed.

Lemma seen_after_batches (response : Response.t)
    (seen : list (list TransformedCustomer.t)) :
  seen_after response seen = seen ++ batches [Http response].
Proof.
  unfold seen_after. simpl.
  destruct (Response.customers response); [|reflexivity].
  symmetry. apply app_nil_r.
Qed.

(** The loop goes through the pages that continue and stops at the first
    one that is final, whatever replies wait after it. *)
Lemma loop_through (before : list reply) :
  forall (last : reply) (rest : list reply) (pageInfo : option string)
         (info : RateLimitInfo) (tr : list event) (n : Z)
         (seen : list (list TransformedCustomer.t)),
    forallb continues before = true ->
    final last = true ->
    exists c,
      fetchAll_loop recordBatches since pageInfo (before ++ last :: rest)
        info tr n seen
      = (Returned (n + total (before ++ [last])), c,
         seen ++ batches (before ++ [last]))
      /\ replies c = rest.
Proof.
  induction before as [|p before IH];
    intros last rest pageInfo info tr n seen Hb Hl.
  - destruct last as [|response]; [discriminate|].
    destruct (loop_on_final response rest pageInfo info tr n seen Hl)
      as (c & Hrun & Hc).
    exists c. split; [|exact Hc].
    cbn [app]. rewrite Hrun, seen_after_batches.
    unfold total. simpl. rewrite Z.add_0_r. reflexivity.
  - cbn [forallb] in Hb. apply andb_true_iff in Hb. destruct Hb as [Hp Hb].
    destruct p as [|response]; [discriminate|].
    destruct (loop_on_continuing response (before ++ last :: rest) pageInfo
                info tr n seen Hp) as (pageInfo' & info' & tr' & Hrun).
    destruct (IH last rest pageInfo' info' tr'
                (n + Z.of_nat (List.length (Response.customers response)))
                (seen_after response seen) Hb Hl) as (c & Hrest & Hc).
    exists c. split; [|exact Hc].
    assert (Ht : total (Http response :: before ++ [last])
                 = Z.of_nat (List.length (Response.customers response))
                   + total (before ++ [last])) by reflexivity.
    assert (Hbs : batches (Http response :: before ++ [last])
                  = batches [Http response] ++ batches (before ++ [last]))
      by apply (batches_app [Http response]).
    cbn [app].
    rewrite Hrun, Hrest, seen_after_batches, Ht, Hbs, app_assoc, Z.add_assoc.
    reflexivity.
Qed.

Lemma page_continues (customers : list ShopifyCustomer.t) (cursor : string) :
  cursor <> "" -> List.length customers = 250%nat ->
  continues (page customers (Some cursor)) = true.
Proof.
  intros Hc Hl. unfold continues, page, has_cursor. simpl.
  destruct (String.eqb_spec cursor ""); [congruence|].
  rewrite Hl. reflexivity.
Qed.

Lemma page_final (customers : list ShopifyCustomer.t) :
  final (page customers None) = true.
Proof. reflexivity. Qed.

Lemma batches_page (customers : list ShopifyCustomer.t) (next : option string) :
  customers <> [] ->
  batches [page customers next] = [map transformCustomer customers].
Proof. intros Hne. simpl. destruct customers; [congruence | reflexivity]. Qed.

(** C4, as amended. On replies that begin with pages that continue (success,
    next-page cursor, exactly 250 records) followed by a page that is final
    (success, and no cursor or a number of records other than 250),
    [fetchAllCustomers] returns after the final page and leaves the replies
    after it unread; it hands [onBatch] the pages up to that one that hold a
    record, in order; the value it returns is the number of records on
    those pages, which is the number handed to [onBatch] and, when no page
    follows the final one, the total of the source. Pages of 250, 250 and
    40 records give three calls of [onBatch] with 250, 250 and 40 records
    and the value 540. *)
Theorem fetchAllCustomers_stops_at_final_page :
  (forall (before : list reply) (last : reply) (rest : list reply),
      forallb continues before = true ->
      final last = true ->
      let run :=
        fetchAllCustomers recordBatches since (start (before ++ last :: rest)) [] in
      fst (fst run) = Returned (total (before ++ [last]))
      /\ replies (snd (fst run)) = rest
      /\ snd run = batches (before ++ [last])
      /\ total (before ++ [last])
         = fold_right (fun batch acc => Z.of_nat (List.length batch) + acc) 0
             (batches (before ++ [last])))
  /\ (forall (source : list reply) (last : reply),
        forallb continues source = true ->
        final last = true ->
        fst (fst (fetchAllCustomers recordBatches since
                    (start (source ++ [last])) []))
        = Returned (total (source ++ [last])))
  /\ (forall (p1 p2 p3 : list ShopifyCustomer.t) (c1 c2 : string),
        c1 <> "" -> c2 <> "" ->
        List.length p1 = 250%nat ->
        List.length p2 = 250%nat ->
        List.length p3 = 40%nat ->
        let run :=
          fetchAllCustomers recordBatches since
            (start [page p1 (Some c1); page p2 (Some c2); page p3 None]) [] in
        fst (fst run) = Returned 540
        /\ snd run = [map transformCustomer p1; map transformCustomer p2;
                      map transformCustomer p3]
        /\ map (@List.length _) (snd run) = [250%nat; 250%nat; 40%nat]).
Proof.
  assert (Hgen : forall before last rest,
             forallb continues before = true ->
             final last = true ->
             fst (fst (fetchAllCustomers recordBatches since
                         (start (before ++ last :: rest)) []))
             = Returned (total (before ++ [last]))
             /\ replies (snd (fst (fetchAllCustomers recordBatches since
                                     (start (before ++ last :: rest)) []))) = rest
             /\ snd (fetchAllCustomers recordBatches since
                       (start (before ++ last :: rest)) [])
                = batches (before ++ [last])).
  { intros before last rest Hb Hl. unfold fetchAllCustomers, start. cbn [replies
      lastRateLimitInfo trace].
    destruct (loop_through before last rest None initialRateLimitInfo [] 0 []
                Hb Hl) as (c & Hrun & Hc).
    rewrite Hrun. cbn [fst snd app]. rewrite Z.add_0_l.
    repeat split; [exact Hc]. }
  split; [|split].
  - intros before last rest Hb Hl run.
    destruct (Hgen before last rest Hb Hl) as (H1 & H2 & H3).
    repeat split; [exact H1 | exact H2 | exact H3 |].
    clear. induction (before ++ [last]) as [|p pages IH]; [reflexivity|].
    unfold total in *. simpl.
    destruct (records p) as [|x xs] eqn:Er; simpl.
    + exact IH.
    + rewrite length_map, <- IH. reflexivity.
  - intros source last Hs Hl.
    exact (proj1 (Hgen source last [] Hs Hl)).
  - intros p1 p2 p3 c1 c2 Hc1 Hc2 H1 H2 H3 run.
    assert (Hb : forallb continues [page p1 (Some c1); page p2 (Some c2)] = true).
    { cbn [forallb]. rewrite !page_continues by assumption. reflexivity. }
    destruct (Hgen [page p1 (Some c1); page p2 (Some c2)] (page p3 None) []
                Hb (page_final p3)) as (Hr & _ & Hs).
    cbn [app] in Hr, Hs. fold run in Hr, Hs.
    assert (Hn1 : p1 <> []) by (intros ->; discriminate).
    assert (Hn2 : p2 <> []) by (intros ->; discriminate).
    assert (Hn3 : p3 <> []) by (intros ->; discriminate).
    assert (Hbatches :
      batches [page p1 (Some c1); page p2 (Some c2); page p3 None]
      = [map transformCustomer p1; map transformCustomer p2;
         map transformCustomer p3]).
    { change [page p1 (Some c1); page p2 (Some c2); page p3 None]
        with ([page p1 (Some c1)] ++ [page p2 (Some c2)] ++ [page p3 None]).
      rewrite !batches_app, !batches_page by assumption. reflexivity. }
    rewrite Hs, Hr, Hbatches. repeat split.
    + unfold total. simpl. rewrite H1, H2, H3. reflexivity.
    + simpl. rewrite !length_map, H1, H2, H3. reflexivity.
Qed.

(** C7: where the claim fails. A request of the bulk iteration that meets a
    429 is not retried: [fetchAllCustomers] throws the API error 429, after
    one request and no wait, whatever Retry-After says and whatever would
    come next. *)
Theorem fetchAllCustomers_throws_on_429 :
  forall (retryAfter : option string) (rest : list reply),
    fetchAllCustomers recordBatches since (start (rateLimited retryAfter :: rest)) []
    = (Thrown (ApiError 429 "Too Many Requests"),
       {| replies := rest;
          lastRateLimitInfo := initialRateLimitInfo;
          trace := [Fetch (CustomersFirst 250 since)] |},
       []).
Proof. reflexivity. Qed.

End FetchAllFacts.

Section ShopifyFetchFacts.

Import ShopifyClient Notions.

(** X1. [shopifyFetch] answers a 429 by waiting and asking again: it never
    throws the API error 429. *)
Lemma shopifyFetch_never_throws_429 (e : endpoint) (script : list reply) :
  forall (info : RateLimitInfo) (tr : list event),
    match fst (shopifyFetch_rec true e script info tr) with
    | Thrown (ApiError status _) => status <> 429
    | _ => True
    end.
Proof.
  induction script as [|r rest IH]; intros info tr; cbn [shopifyFetch_rec negb].
  - exact I.
  - destruct r as [|response]; [exact I|].
    destruct (Z.eqb_spec (Response.status response) 429) as [E|E].
    + apply IH.
    + destruct (Response.ok response); cbn [negb fst]; [exact I | exact E].
Qed.

Lemma infoAfter_cons (info : RateLimitInfo) (response : Response.t)
    (limited : list Response.t) :
  infoAfter info (response :: limited)
  = infoAfter (parseRateLimitHeader (Response.callLimit response)) limited.
Proof.
  unfold infoAfter. cbn [rev].
  destruct (rev limited) as [|last others]; reflexivity.
Qed.

(** X2. However many times in a row the platform answers a request with
    429, and whatever the rate-limit state, [shopifyFetch] sends the same
    request again after each of them, once the wait that its Retry-After
    asks for (5 s without the header) is over, and after the pause of two
    seconds when the 429 itself reports the calls near their limit; it then
    goes on with the replies that follow as a first call would, from the
    rate-limit state that the last 429 reports. As many requests are sent
    as there were 429s, all of them the request asked for. *)
Theorem shopifyFetch_retries_after_429 (e : endpoint)
    (limited : list Response.t) (rest : list reply) :
  Forall (fun response => Response.status response = 429) limited ->
  forall (info : RateLimitInfo) (tr : list event),
    shopifyFetch_rec true e (map Http limited ++ rest) info tr
    = shopifyFetch_rec true e rest (infoAfter info limited)
        (tr ++ retried e info limited)
    /\ filter (fun event => match event with Fetch _ => true | Delay _ => false end)
         (retried e info limited)
       = repeat (Fetch e) (List.length limited).
Proof.
  intros Hall. induction Hall as [|response limited Hstatus _ IH];
    intros info tr.
  - cbn [map app retried]. rewrite app_nil_r. split; reflexivity.
  - destruct (IH (parseRateLimitHeader (Response.callLimit response))
                ((if near_limit info then tr ++ [Delay (Some 2000)] else tr)
                 ++ [Fetch e]
                 ++ [Delay (waitTime (Response.retryAfter response))]))
      as (Hrun & Hfetches).
    split.
    + cbn [map app shopifyFetch_rec negb retried]. rewrite Hstatus. cbn [Z.eqb].
      rewrite Pos.eqb_refl. rewrite infoAfter_cons.
      rewrite <- app_assoc in Hrun |- *. cbn [app] in Hrun |- *.
      rewrite Hrun. f_equal.
      destruct (near_limit info); cbn [app]; rewrite <- ?app_assoc; reflexivity.
    + cbn [retried]. rewrite filter_app.
      assert (Hpause : filter (fun event => match event with
                                            | Fetch _ => true
                                            | Delay _ => false
                                            end)
                         (if near_limit info then [Delay (Some 2000)] else [])
                       = []) by (destruct (near_limit info); reflexivity).
      rewrite Hpause. cbn [app filter List.length repeat]. rewrite Hfetches.
      reflexivity.
Qed.

(** Two 429s in a row that report 40 calls of 40, the first asking for two
    seconds: the request goes out three times, and the pause of two seconds
    comes before the second and the third. *)
Lemma shopifyFetch_retries_after_429_witness :
  Forall (fun response => Response.status response = 429)
    [atLimit (Some "2"); atLimit None]
  /\ snd (shopifyFetch true (CustomersFirst 250 None)
            (start [Http (atLimit (Some "2")); Http (atLimit None)]))
     = {| replies := [];
          lastRateLimitInfo := {| current := Js.of_Z 40; max := Js.of_Z 40 |};
          trace := [Fetch (CustomersFirst 250 None); Delay (Some 2000);
                    Delay (Some 2000); Fetch (CustomersFirst 250 None);
                    Delay (Some 5000);
                    Delay (Some 2000); Fetch (CustomersFirst 250 None)] |}.
Proof.
  assert (Hall : Forall (fun response => Response.status response = 429)
                   [atLimit (Some "2"); atLimit None])
    by (repeat constructor).
  split; [exact Hall|].
  exact (f_equal snd
           (proj1 (shopifyFetch_retries_after_429 (CustomersFirst 250 None)
                     [atLimit (Some "2"); atLimit None] [] Hall
                     initialRateLimitInfo []))).
Defined.

Lemma waitTime_examples :
  waitTime None = Some 5000
  /\ waitTime (Some "2") = Some 2000
  /\ waitTime (Some "120") = Some 120000.
Proof. repeat split. Qed.

(** The same two replies through both paths: the single-page fetch waits
    two seconds and returns the page, the bulk iteration throws. *)
Lemma rate_limit_then_page (rt : Js.Runtime) :
  fetchCustomersPage true None
    (start [rateLimited (Some "2"); page [sampleCustomer 1] None])
  = (Returned [transformCustomer (sampleCustomer 1)],
     {| replies := [];
        lastRateLimitInfo := initialRateLimitInfo;
        trace := [Fetch (CustomersFirst 250 None); Delay (Some 2000);
                  Fetch (CustomersFirst 250 None)] |})
  /\ fst (fst (fetchAllCustomers recordBatches None
                 (start [rateLimited (Some "2"); page [sampleCustomer 1] None])
                 []))
     = Thrown (ApiError 429 "Too Many Requests").
Proof. split; reflexivity. Qed.

End ShopifyFetchFacts.

(** C4, as stated, fails: a source of two pages of one record each, the
    first with a cursor. [fetchAllCustomers] stops after the first page,
    which is short, and returns 1; the source yields 2. *)
Lemma fetchAllCustomers_stops_at_short_page :
  Notions.total
    [Notions.page [Notions.sampleCustomer 1] (Some "next");
     Notions.page [Notions.sampleCustomer 2] None] = 2
  /\ (forall (rt : Js.Runtime) (since : option Z),
        fst (fst (ShopifyClient.fetchAllCustomers ShopifyClient.recordBatches since
                    (ShopifyClient.start
                       [Notions.page [Notions.sampleCustomer 1] (Some "next");
                        Notions.page [Notions.sampleCustomer 2] None])
                    []))
        = ShopifyClient.Returned 1).
Proof. split; reflexivity. Qed.

(** A full page with a cursor, then a page of one record without one. *)
Lemma fetchAllCustomers_stops_at_final_page_witness :
  fst (fst (ShopifyClient.fetchAllCustomers (rt := Notions.plainRuntime)
              ShopifyClient.recordBatches None
              (ShopifyClient.start
                 [Notions.page (repeat (Notions.sampleCustomer 1) 250) (Some "next");
                  Notions.page [Notions.sampleCustomer 2] None])
              []))
  = ShopifyClient.Returned 251.
Proof.
  exact (proj1 (proj2 (fetchAllCustomers_stops_at_final_page
                         (rt := Notions.plainRuntime) None))
           [Notions.page (repeat (Notions.sampleCustomer 1) 250) (Some "next")]
           (Notions.page [Notions.sampleCustomer 2] None)
           eq_refl eq_refl).
Defined.

(** ** One sync at a time *)

Section SingleFlight.

Import DatabaseStorage SyncJob Notions.

Context {cfg : Config} {database : Database}.

(** Creating a log adds one running log, the log of the call. *)
Lemma createSyncLog_running (incremental : bool) (now : Z) (d : Db.t) :
  List.length (runningLogs (snd (createSyncLog (runningLog incremental) now d)))
  = S (List.length (runningLogs d))
  /\ own_log (fst (createSyncLog (runningLog incremental) now d))
       (snd (createSyncLog (runningLog incremental) now d)).
Proof.
  unfold runningLogs, createSyncLog, own_log. cbn [fst snd Db.syncLogs]. split.
  - rewrite filter_app, length_app. simpl. lia.
  - eexists. split; [apply in_or_app; right; left; reflexivity|].
    split; reflexivity.
Qed.

(** An update that settles the rows of an id leaves no more logs running
    than there were, and fewer when a row of that id was running. *)
Lemma updateSyncLog_settles (id : Z) (u : SyncLogUpdates.t) (s : SyncStatus)
    (logs : list SyncLog.t) :
  SyncLogUpdates.status u = Some s -> s <> running ->
  let settle := fun l => if SyncLog.id l =? id then applyUpdates u l else l in
  (List.length (filter is_running (map settle logs))
   <= List.length (filter is_running logs))%nat
  /\ ((exists l, In l logs /\ SyncLog.id l = id /\ is_running l = true) ->
      (S (List.length (filter is_running (map settle logs)))
       <= List.length (filter is_running logs))%nat).
Proof.
  intros Hs Hne settle.
  assert (Hsettled : forall l, SyncLog.id l = id -> is_running (settle l) = false).
  { intros l E. unfold settle. rewrite E, Z.eqb_refl.
    unfold is_running, applyUpdates. cbn [SyncLog.status]. rewrite Hs.
    cbn [default]. destruct s; congruence. }
  assert (Hother : forall l, SyncLog.id l <> id -> settle l = l).
  { intros l E. unfold settle.
    destruct (Z.eqb_spec (SyncLog.id l) id); [contradiction | reflexivity]. }
  induction logs as [|l rest [IHle IHlt]]; cbn [map filter].
  - split; [lia|]. intros (l & [] & _).
  - destruct (Z.eq_dec (SyncLog.id l) id) as [E|E].
    + rewrite (Hsettled l E). split.
      * destruct (is_running l); simpl; lia.
      * intros (x & [<-|Hin] & Hid & Hrun).
        -- rewrite Hrun. simpl. lia.
        -- assert (Hlt : (S (List.length (filter is_running (map settle rest)))
                          <= List.length (filter is_running rest))%nat).
           { apply IHlt. exists x. tauto. }
           destruct (is_running l); simpl; lia.
    + rewrite (Hother l E). split.
      * destruct (is_running l); simpl; lia.
      * intros (x & [<-|Hin] & Hid & Hrun); [contradiction|].
        assert (Hlt : (S (List.length (filter is_running (map settle rest)))
                       <= List.length (filter is_running rest))%nat).
        { apply IHlt. exists x. tauto. }
        destruct (is_running l); simpl; lia.
Qed.

(** Settling the log of the call in its [try] block takes it off the
    running logs. *)
Lemma settled_own_log (syncLog : SyncLog.t) (u : SyncLogUpdates.t)
    (s : SyncStatus) (d : Db.t) :
  SyncLogUpdates.status u = Some s -> s <> running ->
  own_log syncLog d ->
  (S (List.length (runningLogs (updateSyncLog (SyncLog.id syncLog) u d)))
   <= List.length (runningLogs d))%nat.
Proof.
  intros Hs Hne Hown.
  exact (proj2 (updateSyncLog_settles (SyncLog.id syncLog) u s (Db.syncLogs d)
                  Hs Hne) Hown).
Qed.

(** A turn of [onBatch] leaves the sync logs alone, and the counters too
    when it throws. *)
Lemma syncOne_logs (now : Z) (customer : ShopifyClient.TransformedCustomer.t)
    (d d' : Db.t) (n n' : Counters) (thrown : option ShopifyClient.error) :
  syncOne now customer (d, n) = ((d', n'), thrown) ->
  Db.syncLogs d' = Db.syncLogs d /\ Db.syncLogs_seq d' = Db.syncLogs_seq d
  /\ (thrown <> None -> n' = n).
Proof.
  unfold syncOne.
  destruct (rejects (GetCustomerByShopifyId _) d);
    [intros E; injection E as <- <- <-; repeat split|].
  destruct (insertData customer _) as [payload|];
    [|intros E; injection E as <- <- <-; repeat split].
  destruct (rejects (UpsertCustomer payload) d);
    [intros E; injection E as <- <- <-; repeat split|].
  pose proof (upsertCustomer_logs payload now d) as [Hlogs Hseq].
  destruct (upsertCustomer payload now d) as [upserted d1]. cbn [snd] in *.
  destruct (if (SYNC_GENDER_TO_TAGS
                && known_gender (Customer.genderInferred upserted))%bool
            then applyGenderTag upserted else None);
    intros E; injection E as <- <- <-; repeat split; try assumption.
  intros H. contradiction H. reflexivity.
Qed.

(** A list with one element in the middle and at most one element. *)
Lemma singleton_split {A : Type} (before after : list A) (x y : A) :
  before ++ x :: after = [y] -> before = [] /\ after = [] /\ x = y.
Proof.
  destruct before as [|b before]; simpl.
  - intros H. injection H as -> <-. tauto.
  - intros H. injection H as _ H. destruct before; discriminate H.
Qed.

Lemma in_flight (left : nat) (p : Process) (before after : list place)
    (x : place) :
  single_flight left p -> calls p = before ++ x :: after ->
  before = [] /\ after = [] /\ calls p = [x].
Proof.
  unfold single_flight. intros Hc E.
  destruct (calls p) as [|y [|z rest]] eqn:Ecalls.
  - destruct before; discriminate E.
  - symmetry in E. destruct (singleton_split _ _ _ _ E) as (-> & -> & ->).
    tauto.
  - destruct y; contradiction.
Qed.

Lemma same_logs (left : nat) (p : Process) (d' : Db.t) :
  Db.syncLogs d' = Db.syncLogs (db p) ->
  single_flight left p ->
  single_flight left {| isSyncing := isSyncing p; db := d'; calls := calls p |}.
Proof.
  unfold single_flight, own_log, runningLogs. cbn [calls db isSyncing].
  intros ->. exact (fun H => H).
Qed.

Lemma step_keeps_single_flight (left : nat) (p q : Process) :
  single_flight left p -> step p q -> single_flight left q.
Proof.
  intros Hinv Hstep.
  destruct Hstep as
    [ incremental startDate p
    | p before after incremental startDate now E
    | p before after incremental startDate err E
    | p before after syncLog n now customer d' n' E Hsync
    | p before after syncLog n now E
    | p before after syncLog n now err E
    | p before after ended E
    | p d' Hlogs Hseq ].
  - unfold enter. destruct (isSyncing p) eqn:Ef; [exact Hinv|].
    unfold single_flight in *. cbn [fst calls db isSyncing].
    destruct (calls p) as [|x [|y rest]]; cbn [app].
    + split; [reflexivity | apply Hinv].
    + destruct x; destruct Hinv as [Ht _]; congruence.
    + destruct x; contradiction.
  - destruct (in_flight left p _ _ _ Hinv E) as (-> & -> & Ecalls).
    unfold single_flight in *. rewrite Ecalls in Hinv.
    destruct Hinv as [Hflag Hleft]. cbn [calls db isSyncing app].
    destruct (createSyncLog_running incremental now (db p)) as [Hlen Hown].
    split; [exact Hflag|]. split; [exact Hown|]. rewrite Hlen. lia.
  - destruct (in_flight left p _ _ _ Hinv E) as (-> & -> & Ecalls).
    unfold single_flight in *. rewrite Ecalls in Hinv.
    cbn [calls db isSyncing app]. exact Hinv.
  - destruct (in_flight left p _ _ _ Hinv E) as (-> & -> & Ecalls).
    destruct (syncOne_logs _ _ _ _ _ _ _ Hsync) as (Hlogs & _ & _).
    unfold single_flight, own_log, runningLogs in *. rewrite Ecalls in Hinv.
    cbn [calls db isSyncing app]. rewrite Hlogs. exact Hinv.
  - destruct (in_flight left p _ _ _ Hinv E) as (-> & -> & Ecalls).
    unfold single_flight in *. rewrite Ecalls in Hinv.
    destruct Hinv as (Hflag & Hown & Hleft). cbn [calls db isSyncing app].
    split; [exact Hflag|].
    pose proof (settled_own_log syncLog (completedUpdates n now) completed (db p)
                  eq_refl ltac:(discriminate) Hown).
    lia.
  - destruct (in_flight left p _ _ _ Hinv E) as (-> & -> & Ecalls).
    unfold single_flight in *. rewrite Ecalls in Hinv.
    destruct Hinv as (Hflag & Hown & Hleft). cbn [calls db isSyncing app].
    split; [exact Hflag|].
    pose proof (settled_own_log syncLog (failedUpdates (message err) now)
                  sync_failed (db p) eq_refl ltac:(discriminate) Hown).
    lia.
  - destruct (in_flight left p _ _ _ Hinv E) as (-> & -> & Ecalls).
    unfold single_flight in *. rewrite Ecalls in Hinv.
    cbn [calls db isSyncing app]. split; [reflexivity|].
    destruct ended; apply Hinv.
  - apply same_logs; assumption.
Qed.

(** A call whose log stays running leaves one more log behind. *)
Lemma unsettled_single_flight (left : nat) (p q : Process) :
  single_flight left p -> unsettled p q -> single_flight (S left) q.
Proof.
  intros Hinv Hstep. destruct Hstep as [p before after syncLog n err E].
  destruct (in_flight left p _ _ _ Hinv E) as (-> & -> & Ecalls).
  unfold single_flight in *. rewrite Ecalls in Hinv.
  destruct Hinv as (Hflag & _ & Hleft). cbn [calls db isSyncing app].
  split; assumption.
Qed.

Lemma idle_single_flight (p : Process) :
  idle p -> single_flight (List.length (runningLogs (db p))) p.
Proof.
  intros [Hflag Hcalls]. unfold single_flight. rewrite Hcalls.
  split; [exact Hflag | lia].
Qed.

Lemma runs_single_flight (k : nat) (p0 p : Process) :
  idle p0 -> runs k p0 p ->
  single_flight (List.length (runningLogs (db p0)) + k) p.
Proof.
  intros Hidle Hruns. induction Hruns as [p|k p q r Hpq IH Hqr|k p q r Hpq IH Hqr].
  - rewrite Nat.add_0_r. apply idle_single_flight, Hidle.
  - eapply step_keeps_single_flight; [apply IH, Hidle | exact Hqr].
  - rewrite Nat.add_succ_r.
    eapply unsettled_single_flight; [apply IH, Hidle | exact Hqr].
Qed.

Lemma single_flight_bounds (left : nat) (p : Process) :
  single_flight left p ->
  (List.length (calls p) <= 1)%nat
  /\ (isSyncing p = true <-> calls p <> [])
  /\ (List.length (runningLogs (db p))
      <= left + List.length (filter in_try (calls p)))%nat.
Proof.
  unfold single_flight.
  destruct (calls p) as [|x [|y rest]]; [| |destruct x; contradiction].
  - intros [-> Hleft]. simpl. repeat split; try lia; congruence.
  - destruct x; simpl.
    + intros [-> Hleft]. repeat split; try lia; congruence.
    + intros (-> & _ & Hleft). repeat split; try lia; congruence.
    + intros [-> Hleft]. repeat split; try lia; congruence.
Qed.

(** *** A run of [syncCustomers] is one of these interleavings *)

Lemma runs_then (k : nat) (p q r : Process) :
  runs k p q -> step q r -> runs k p r.
Proof. intros Hpq Hqr. exact (runs_step k p q r Hpq Hqr). Qed.

(** The process in which the one call in flight is in its [try] block. *)
Local Abbreviation trying syncLog st :=
  {| isSyncing := true; db := fst st; calls := [InTry syncLog (snd st)] |}.

Lemma onBatch_runs (clock : ShopifyClient.TransformedCustomer.t -> Z)
    (p0 : Process) (syncLog : SyncLog.t)
    (customers : list ShopifyClient.TransformedCustomer.t) :
  forall st,
    runs 0 p0 (trying syncLog st) ->
    runs 0 p0 (trying syncLog (fst (onBatch clock customers st))).
Proof.
  induction customers as [|customer rest IH]; intros [d n] Hruns; [exact Hruns|].
  cbn [onBatch].
  destruct (syncOne (clock customer) customer (d, n)) as [[d' n'] thrown] eqn:E.
  destruct (syncOne_logs _ _ _ _ _ _ _ E) as (Hlogs & Hseq & Hn).
  destruct thrown as [err|].
  - rewrite (Hn ltac:(discriminate)). cbn [fst snd].
    eapply runs_then; [exact Hruns|].
    exact (step_other (trying syncLog (d, n)) d' Hlogs Hseq).
  - apply IH. eapply runs_then; [exact Hruns|].
    exact (step_customer (trying syncLog (d, n)) [] [] syncLog n (clock customer)
             customer d' n' eq_refl E).
Qed.

(** How the [catch] block ends a call in its [try] block. *)
Lemma failWith_runs {rt : Js.Runtime} (p0 : Process) (syncLog : SyncLog.t)
    (err : ShopifyClient.error) (settledAt : Z) (client : ShopifyClient.Client)
    (d : Db.t) (n : Counters) :
  runs 0 p0 (trying syncLog (d, n)) ->
  exists k,
    (k <= 1)%nat
    /\ runs k p0
         (boot (snd (failWith syncLog err settledAt client d))).
Proof.
  intros Hruns. unfold failWith.
  destruct (rejects (UpdateSyncLog _ _) d) as [rejection|].
  - exists 1%nat. split; [lia|]. cbn [snd].
    eapply runs_then.
    + eapply runs_unsettled; [exact Hruns|].
      exact (unsettled_call (trying syncLog (d, n)) [] [] syncLog n
               (ShopifyClient.StoreError rejection) eq_refl).
    + refine (step_finally _ [] [] _ _); reflexivity.
  - exists 0%nat. split; [lia|]. cbn [snd].
    eapply runs_then.
    + eapply runs_then; [exact Hruns|].
      exact (step_failed (trying syncLog (d, n)) [] [] syncLog n settledAt err
               eq_refl).
    + refine (step_finally _ [] [] _ _); reflexivity.
Qed.

Lemma failWith_flag {rt : Js.Runtime} (syncLog : SyncLog.t)
    (err : ShopifyClient.error) (settledAt : Z) (client : ShopifyClient.Client)
    (d : Db.t) :
  snd (fst (fst (failWith syncLog err settledAt client d))) = false.
Proof. unfold failWith. destruct (rejects _ d); reflexivity. Qed.

(** Every run of [syncCustomers] that nothing interleaves with is one way
    for the process to go: it ends with no call in flight, or, while it
    waits for the platform, with the call in its [try] block; and the store
    rejects at most once the update that settles its log. *)
Lemma syncCustomers_runs {rt : Js.Runtime} (incremental : bool)
    (startDate : option Z) (clock : ShopifyClient.TransformedCustomer.t -> Z)
    (startedAt settledAt : Z) (client : ShopifyClient.Client) (d : Db.t) :
  exists k flight,
    (k <= 1)%nat
    /\ runs k (boot d)
         {| isSyncing :=
              snd (fst (fst (syncCustomers incremental startDate clock startedAt
                               settledAt false client d)));
            db := snd (syncCustomers incremental startDate clock startedAt
                         settledAt false client d);
            calls := flight |}.
Proof.
  unfold syncCustomers, syncWith.
  assert (Henter : runs 0 (boot d)
                     {| isSyncing := true; db := d;
                        calls := [CreatingLog incremental startDate] |}).
  { eapply runs_then; [apply runs_refl|].
    exact (step_enter incremental startDate (boot d)). }
  destruct (rejects (CreateSyncLog _) d) as [rejection|].
  - exists 0%nat, []. split; [lia|]. cbn [fst snd].
    eapply runs_then.
    + eapply runs_then; [exact Henter|].
      refine (step_log_rejected _ [] [] incremental startDate
               (ShopifyClient.StoreError rejection) _); reflexivity.
    + refine (step_finally _ [] [] _ _); reflexivity.
  - assert (Hcreated :
      runs 0 (boot d)
        (trying (fst (createSyncLog (runningLog incremental) startedAt d))
           (snd (createSyncLog (runningLog incremental) startedAt d), noCounts))).
    { eapply runs_then; [exact Henter|].
      refine (step_log_created _ [] [] incremental startDate startedAt _); reflexivity. }
    destruct (createSyncLog (runningLog incremental) startedAt d)
      as [syncLog db1].
    cbn [fst snd] in Hcreated.
    assert (Hfail : forall err c d2 n,
               runs 0 (boot d) (trying syncLog (d2, n)) ->
               exists k flight,
                 (k <= 1)%nat
                 /\ runs k (boot d)
                      {| isSyncing :=
                           snd (fst (fst (failWith syncLog err settledAt c d2)));
                         db := snd (failWith syncLog err settledAt c d2);
                         calls := flight |}).
    { intros err c d2 n Hruns.
      destruct (failWith_runs (boot d) syncLog err settledAt c d2 n Hruns)
        as (k & Hk & Hend).
      exists k, []. split; [exact Hk|]. rewrite failWith_flag. exact Hend. }
    destruct (updatedAtMin incremental startDate db1) as [rejection|since].
    + exact (Hfail _ client db1 noCounts Hcreated).
    + pose proof (fetchAll_loop_keeps (onBatch clock) since
                    (fun st => runs 0 (boot d) (trying syncLog st))
                    (fun batch st H => onBatch_runs clock (boot d) syncLog batch st H)
                    (ShopifyClient.replies client) None
                    (ShopifyClient.lastRateLimitInfo client)
                    (ShopifyClient.trace client) 0 (db1, noCounts) Hcreated)
        as Hend.
      unfold ShopifyClient.fetchAllCustomers.
      destruct (ShopifyClient.fetchAll_loop (onBatch clock) since None
                  (ShopifyClient.replies client)
                  (ShopifyClient.lastRateLimitInfo client)
                  (ShopifyClient.trace client) 0 (db1, noCounts))
        as [[ended client'] [db2 n]].
      cbn [snd fst] in Hend.
      destruct ended as [total|err|].
      * destruct (rejects (UpdateSyncLog _ _) db2) as [rejection|].
        -- exact (Hfail _ client' db2 n Hend).
        -- exists 0%nat, []. split; [lia|]. cbn [fst snd].
           eapply runs_then.
           ++ eapply runs_then; [exact Hend|].
              exact (step_completed (trying syncLog (db2, n)) [] [] syncLog n
                       settledAt eq_refl).
           ++ refine (step_finally _ [] [] _ _); reflexivity.
      * exact (Hfail err client' db2 n Hend).
      * exists 0%nat, [InTry syncLog n]. split; [lia|]. exact Hend.
Qed.

(** C1, as amended. A call of [syncCustomers] that finds [isSyncing] set
    returns processed 0, created 0, updated 0 and leaves the process and the
    store as they were, so it creates no Sync Log; and this is what a call
    does that comes while another is in flight. From a process
    that starts with the flag clear and no call in flight, whatever way
    calls of [syncCustomers], their awaited steps, the rejections of the
    store and the other statements of the process interleave, at most one
    call is past the flag at any time, the flag is set exactly while one
    is, and the Sync Logs that are running are at most: those that were
    running when the process started, one for each time the store rejected
    the update that settles a log, and the log of the call that is in its
    [try] block. Every run of the function [syncCustomers] is such an
    interleaving. *)
Theorem single_flight_sync :
  (forall (rt : Js.Runtime) (incremental : bool) (startDate : option Z)
          (clock : ShopifyClient.TransformedCustomer.t -> Z)
          (startedAt settledAt : Z) (client : ShopifyClient.Client) (d : Db.t),
      syncCustomers incremental startDate clock startedAt settledAt true client d
      = (ShopifyClient.Returned noCounts, true, client, d))
  /\ (forall (p0 p : Process) (k : nat) (incremental : bool)
             (startDate : option Z),
        idle p0 ->
        runs k p0 p ->
        calls p <> [] ->
        enter incremental startDate p = (p, Some noCounts))
  /\ (forall (p0 p : Process) (k : nat),
        idle p0 ->
        runs k p0 p ->
        (List.length (calls p) <= 1)%nat
        /\ (isSyncing p = true <-> calls p <> [])
        /\ (List.length (runningLogs (db p))
            <= List.length (runningLogs (db p0)) + k
               + List.length (filter in_try (calls p)))%nat)
  /\ (forall (rt : Js.Runtime) (incremental : bool) (startDate : option Z)
             (clock : ShopifyClient.TransformedCustomer.t -> Z)
             (startedAt settledAt : Z) (client : ShopifyClient.Client) (d : Db.t),
        exists k flight,
          (k <= 1)%nat
          /\ runs k (boot d)
               {| isSyncing :=
                    snd (fst (fst (syncCustomers incremental startDate clock
                                     startedAt settledAt false client d)));
                  db := snd (syncCustomers incremental startDate clock startedAt
                               settledAt false client d);
                  calls := flight |}).
Proof.
  split; [|split; [|split]].
  - reflexivity.
  - intros p0 p k incremental startDate Hidle Hruns Hflight.
    destruct (single_flight_bounds _ p (runs_single_flight k p0 p Hidle Hruns))
      as (_ & Hflag & _).
    unfold enter. rewrite (proj2 Hflag Hflight). reflexivity.
  - intros p0 p k Hidle Hruns.
    apply single_flight_bounds, runs_single_flight; assumption.
  - intros rt. apply syncCustomers_runs.
Qed.

End SingleFlight.

Section SingleFlightExamples.

Import DatabaseStorage SyncJob Notions.

(** A first call that has created its log, and a second call that comes
    while the first is in flight: one log is running. *)
Lemma single_flight_sync_witness :
  idle bootProcess
  /\ enter true None busyProcess = (busyProcess, Some noCounts)
  /\ (List.length (runningLogs (db busyProcess)) <= 1)%nat.
Proof.
  assert (Hidle : idle bootProcess) by (split; reflexivity).
  assert (Hruns : runs (cfg := plainConfig) (database := plainDatabase) 0
                    bootProcess busyProcess).
  { eapply runs_step.
    - eapply runs_step.
      + eapply runs_step; [apply runs_refl|].
        exact (step_enter true None bootProcess).
      + refine (step_log_created _ [] [] true None 100 _); reflexivity.
    - exact (step_enter true (Some 5) busyProcess). }
  split; [exact Hidle|]. split.
  - apply (proj1 (proj2 (single_flight_sync (cfg := plainConfig)
                           (database := plainDatabase)))
             bootProcess busyProcess 0%nat true None Hidle Hruns).
    discriminate.
  - apply (proj2 (proj2
             (proj1 (proj2 (proj2 (single_flight_sync (cfg := plainConfig)
                                     (database := plainDatabase))))
                bootProcess busyProcess 0%nat Hidle Hruns))).
Defined.

(** C1, as stated, fails. With a store that rejects the updates of sync
    logs, a run that the platform answers with an error cannot mark its log
    failed: it ends, the flag is clear, and its log stays running. The next
    run creates its own log, and two Sync Logs are running while it is in
    progress. *)
Lemma two_logs_running :
  fst (fst (fst unsettledRun))
  = ShopifyClient.Thrown (ShopifyClient.StoreError "permission denied")
  /\ snd (fst (fst unsettledRun)) = false
  /\ map SyncLog.status (Db.syncLogs (snd unsettledRun)) = [running]
  /\ fst (fst (fst nextRun)) = ShopifyClient.Pending
  /\ map SyncLog.status (Db.syncLogs (snd nextRun)) = [running; running]
  /\ List.length (runningLogs (snd nextRun)) = 2%nat.
Proof. repeat split. Qed.

End SingleFlightExamples.

(** ** A complete row has a gender and a confidence *)

Section CompleteRows.

Import DatabaseStorage Notions Writers.

Context {rt : Js.Runtime} {database : Database}.

Lemma asReal_given (f : field Js.number) :
  column f None <> None -> column (asReal f) None <> None.
Proof. destruct f as [|[v|]]; simpl; congruence. Qed.

Lemma insertedRow_ok (c : InsertCustomer.t) (id now : Z) :
  payload_ok c -> row_ok (insertedRow c id now).
Proof.
  intros H Hc. destruct (H Hc) as [Hgender Hconfidence].
  split; [exact Hgender | apply asReal_given, Hconfidence].
Qed.

Lemma conflictUpdate_ok (c : InsertCustomer.t) (now : Z) (r : Customer.t) :
  row_ok r -> row_ok (conflictUpdate c now r).
Proof. intros H. exact H. Qed.

Lemma upsertRows_ok (c : InsertCustomer.t) (id now : Z) (rows : list Customer.t) :
  payload_ok c -> Forall row_ok rows ->
  Forall row_ok (fst (upsertRows c id now rows)).
Proof.
  intros Hc. induction rows as [|r rest IH]; intros Hall; simpl.
  - constructor; [apply insertedRow_ok, Hc | constructor].
  - inversion Hall as [|? ? Hr Hrest]; subst.
    destruct (has_key (InsertCustomer.shopifyCustomerId c) r); simpl.
    + constructor; [apply conflictUpdate_ok, Hr | exact Hrest].
    + destruct (upsertRows c id now rest) as [rest' result]. simpl in *.
      constructor; [exact Hr | apply IH, Hrest].
Qed.

Lemma upsertCustomer_ok (c : InsertCustomer.t) (now : Z) (d : Db.t) :
  payload_ok c -> Forall row_ok (Db.customers d) ->
  Forall row_ok (Db.customers (snd (upsertCustomer c now d))).
Proof.
  intros Hc Hall. rewrite upsertCustomer_rows. apply upsertRows_ok; assumption.
Qed.

Lemma updateWhere_ok (sel : Customer.t -> bool) (f : Customer.t -> Customer.t)
    (d : Db.t) :
  (forall r, row_ok r -> row_ok (f r)) ->
  Forall row_ok (Db.customers d) ->
  Forall row_ok (Db.customers (updateWhere sel f d)).
Proof.
  intros Hf Hall. unfold updateWhere. simpl. apply Forall_map.
  eapply Forall_impl; [|exact Hall]. simpl. intros r Hr.
  destruct (sel r); [apply Hf, Hr | exact Hr].
Qed.

Lemma lookup_ok (shopifyId : Z) (d : Db.t) :
  Forall row_ok (Db.customers d) ->
  held_ok (getCustomerByShopifyId shopifyId d).
Proof.
  intros Hall. unfold getCustomerByShopifyId.
  destruct (find (has_key shopifyId) (Db.customers d)) as [r|] eqn:E; [|exact I].
  apply find_some in E. destruct E as [Hin _].
  rewrite Forall_forall in Hall. apply Hall, Hin.
Qed.

Lemma copied_enrichment_ok (existing : option Customer.t) :
  held_ok existing ->
  SyncJob.status_or_pending existing = complete ->
  column (field_of_existing Customer.genderInferred existing) None <> None
  /\ column (field_of_existing Customer.genderConfidence existing) None <> None.
Proof.
  destruct existing as [r|]; simpl; [|discriminate].
  intros Hr Hc. exact (Hr Hc).
Qed.

Lemma sync_payload_ok (customer : ShopifyClient.TransformedCustomer.t)
    (existing : option Customer.t) (payload : InsertCustomer.t) :
  held_ok existing ->
  SyncJob.insertData customer existing = Some payload -> payload_ok payload.
Proof.
  intros H. unfold SyncJob.insertData.
  destruct (ShopifyClient.TransformedCustomer.createdAtShopify customer);
    [|discriminate].
  destruct (ShopifyClient.TransformedCustomer.updatedAtShopify customer);
    [|discriminate].
  intros E. injection E as <-. exact (copied_enrichment_ok existing H).
Qed.

Lemma update_payload_ok (customer : Routes.WebhookBody.t)
    (existing : option Customer.t) (payload : InsertCustomer.t) :
  held_ok existing ->
  Routes.updatePayload customer existing = Some payload -> payload_ok payload.
Proof.
  intros H. unfold Routes.updatePayload.
  destruct (Js.Date_parse (Routes.WebhookBody.created_at customer));
    [|discriminate].
  destruct (Js.Date_parse (Routes.WebhookBody.updated_at customer));
    [|discriminate].
  intros E. injection E as <-. exact (copied_enrichment_ok existing H).
Qed.

Lemma create_payload_ok (customer : Routes.WebhookBody.t)
    (payload : InsertCustomer.t) :
  Routes.createPayload customer = Some payload -> payload_ok payload.
Proof.
  unfold Routes.createPayload.
  destruct (Js.Date_parse (Routes.WebhookBody.created_at customer));
    [|discriminate].
  destruct (Js.Date_parse (Routes.WebhookBody.updated_at customer));
    [|discriminate].
  intros E. injection E as <-. unfold payload_ok. simpl. discriminate.
Qed.

Lemma inference_payload_ok (customer : ShopifyClient.TransformedCustomer.t)
    (existing : option Customer.t)
    (genderInference : option Enrichment.GenderInferenceResult)
    (payload : InsertCustomer.t) :
  held_ok existing ->
  SyncJobInference.insertData customer existing genderInference = Some payload ->
  payload_ok payload.
Proof.
  intros H. unfold SyncJobInference.insertData.
  destruct (ShopifyClient.TransformedCustomer.createdAtShopify customer);
    [|discriminate].
  destruct (ShopifyClient.TransformedCustomer.updatedAtShopify customer);
    [|discriminate].
  intros E. injection E as <-. unfold payload_ok. simpl.
  destruct (SyncJobInference.shouldPersistInference genderInference) eqn:E.
  - destruct genderInference as [r|]; [|discriminate E].
    intros _. simpl. split; discriminate.
  - apply copied_enrichment_ok, H.
Qed.

Lemma storeResult_ok (id : Z) (result : Enrichment.GenderInferenceResult)
    (now : Z) (d : Db.t) :
  Forall row_ok (Db.customers d) ->
  Forall row_ok (Db.customers (Enrichment.storeResult id result now d)).
Proof.
  intros H. apply updateWhere_ok; [|exact H].
  intros r _ _. simpl. split; discriminate.
Qed.

Lemma markFailed_ok (id now : Z) (d : Db.t) :
  Forall row_ok (Db.customers d) ->
  Forall row_ok (Db.customers (Enrichment.markFailed id now d)).
Proof.
  intros H. apply updateWhere_ok; [|exact H].
  intros r _. unfold row_ok. simpl. discriminate.
Qed.

Lemma reset_ok (now : Z) (d : Db.t) :
  Forall row_ok (Db.customers (snd (resetAllEnrichments now d))).
Proof.
  unfold resetAllEnrichments, updateWhere. simpl. apply Forall_map.
  apply Forall_forall. intros r _. unfold row_ok. simpl. discriminate.
Qed.

(** The operations as wholes. *)

Lemma enrichPendingCustomers_ok (batchSize : nat)
    (provider : Customer.t -> Enrichment.completion)
    (throws : Customer.t -> bool) (now : Z) (d : Db.t) :
  Forall row_ok (Db.customers d) ->
  Forall row_ok
    (Db.customers
       (snd (Enrichment.enrichPendingCustomers batchSize provider throws now d))).
Proof.
  unfold Enrichment.enrichPendingCustomers.
  generalize (firstn batchSize (filter Enrichment.is_pending (Db.customers d))).
  generalize 0. intros count selected. revert count d.
  induction selected as [|customer rest IH]; intros count d Hd; simpl;
    [exact Hd|].
  destruct (throws customer); apply IH.
  - apply markFailed_ok, Hd.
  - apply storeResult_ok, Hd.
Qed.

Lemma onBatch_ok {cfg : SyncJob.Config}
    (clock : ShopifyClient.TransformedCustomer.t -> Z)
    (customers : list ShopifyClient.TransformedCustomer.t) :
  forall (d : Db.t) (n : SyncJob.Counters),
    Forall row_ok (Db.customers d) ->
    Forall row_ok
      (Db.customers (fst (fst (SyncJob.onBatch clock customers (d, n))))).
Proof.
  induction customers as [|customer rest IH]; intros d n Hd; [exact Hd|].
  cbn [SyncJob.onBatch].
  pose proof (syncOne_store (clock customer) customer d n) as Hs.
  destruct (SyncJob.syncOne (clock customer) customer (d, n))
    as [[d' n'] thrown].
  cbn [fst] in Hs.
  assert (Hd' : Forall row_ok (Db.customers d')).
  { destruct Hs as [->|(payload & Hpayload & _ & ->)]; [exact Hd|].
    apply upsertCustomer_ok; [|exact Hd].
    exact (sync_payload_ok _ _ _ (lookup_ok _ d Hd) Hpayload). }
  destruct thrown as [err|]; simpl; [exact Hd' | apply IH, Hd'].
Qed.

Lemma syncOne_inference_rows
    (provider : ShopifyClient.TransformedCustomer.t -> Enrichment.completion)
    (now : Z) (customer : ShopifyClient.TransformedCustomer.t) (d : Db.t)
    (n : SyncJob.Counters) :
  Forall row_ok (Db.customers d) ->
  Forall row_ok
    (Db.customers (fst (fst (SyncJobInference.syncOne provider now customer (d, n))))).
Proof.
  intros Hd. unfold SyncJobInference.syncOne.
  destruct (rejects (GetCustomerByShopifyId _) d); [exact Hd|].
  destruct (SyncJobInference.insertData customer _ _) as [payload|] eqn:Epayload;
    [|exact Hd].
  destruct (rejects (UpsertCustomer payload) d); [exact Hd|].
  pose proof (upsertCustomer_ok payload now d
                (inference_payload_ok _ _ _ _ (lookup_ok _ d Hd) Epayload) Hd)
    as Hrows.
  destruct (upsertCustomer payload now d) as [upserted d']. exact Hrows.
Qed.

Lemma onBatch_inference_ok
    (provider : ShopifyClient.TransformedCustomer.t -> Enrichment.completion)
    (clock : ShopifyClient.TransformedCustomer.t -> Z)
    (customers : list ShopifyClient.TransformedCustomer.t) :
  forall (d : Db.t) (n : SyncJob.Counters),
    Forall row_ok (Db.customers d) ->
    Forall row_ok
      (Db.customers
         (fst (fst (SyncJobInference.onBatch provider clock customers (d, n))))).
Proof.
  induction customers as [|customer rest IH]; intros d n Hd; [exact Hd|].
  cbn [SyncJobInference.onBatch].
  pose proof (syncOne_inference_rows provider (clock customer) customer d n Hd)
    as Hd'.
  destruct (SyncJobInference.syncOne provider (clock customer) customer (d, n))
    as [[d' n'] thrown].
  destruct thrown as [err|]; [exact Hd' | apply IH, Hd'].
Qed.

Lemma upsertOr500_ok (payload : option InsertCustomer.t) (now : Z) (d : Db.t) :
  (forall c, payload = Some c -> payload_ok c) ->
  Forall row_ok (Db.customers d) ->
  Forall row_ok (Db.customers (snd (Routes.upsertOr500 payload now d))).
Proof.
  intros Hpayload Hd. unfold Routes.upsertOr500.
  destruct payload as [c|]; [|exact Hd].
  destruct (rejects (UpsertCustomer c) d); [exact Hd|].
  apply upsertCustomer_ok; [apply Hpayload; reflexivity | exact Hd].
Qed.

Lemma customersCreate_ok (verified : bool) (customer : Routes.WebhookBody.t)
    (now : Z) (d : Db.t) :
  Forall row_ok (Db.customers d) ->
  Forall row_ok (Db.customers (snd (Routes.customersCreate verified customer now d))).
Proof.
  intros Hd. unfold Routes.customersCreate.
  destruct verified; simpl; [|exact Hd].
  apply upsertOr500_ok; [apply create_payload_ok | exact Hd].
Qed.

Lemma customersUpdate_ok (verified : bool) (customer : Routes.WebhookBody.t)
    (now : Z) (d : Db.t) :
  Forall row_ok (Db.customers d) ->
  Forall row_ok (Db.customers (snd (Routes.customersUpdate verified customer now d))).
Proof.
  intros Hd. unfold Routes.customersUpdate.
  destruct verified; simpl; [|exact Hd].
  destruct (rejects (GetCustomerByShopifyId _) d); [exact Hd|].
  apply upsertOr500_ok; [|exact Hd].
  intros c. apply update_payload_ok, lookup_ok, Hd.
Qed.

Lemma step_keeps_invariant (s s' : State) :
  invariant s -> step s s' -> invariant s'.
Proof.
  intros [Hrows Hheld] Hstep.
  assert (Hin : forall existing, In existing (held s) -> held_ok existing).
  { intros existing. rewrite Forall_forall in Hheld. apply Hheld. }
  destruct Hstep as
    [ s shopifyId
    | s customer existing payload now Hex Hpayload
    | s customer existing reply payload now Hex Hpayload
    | s customer now
    | s customer existing payload now Hex Hpayload
    | s id reply now
    | s id now
    | s now ];
    (split; [|try exact Hheld]); cbn [db held write].
  - exact Hrows.
  - constructor; [apply lookup_ok, Hrows | exact Hheld].
  - apply upsertCustomer_ok; [|exact Hrows].
    exact (sync_payload_ok _ _ _ (Hin _ Hex) Hpayload).
  - apply upsertCustomer_ok; [|exact Hrows].
    exact (inference_payload_ok _ _ _ _ (Hin _ Hex) Hpayload).
  - apply customersCreate_ok, Hrows.
  - apply upsertCustomer_ok; [|exact Hrows].
    exact (update_payload_ok _ _ _ (Hin _ Hex) Hpayload).
  - apply storeResult_ok, Hrows.
  - apply markFailed_ok, Hrows.
  - apply reset_ok.
Qed.

(** C8. Every operation that writes customer rows keeps the invariant that
    a row whose status is complete has a gender and a confidence: a run of
    [enrichPendingCustomers], a batch of a sync (in either revision), the
    two webhooks, and [resetAllEnrichments]. So does each of their awaited
    statements, run in any order and with any delay between a read and the
    write that uses it; hence in every store that can be reached from the
    empty one no row is complete with a null gender or a null confidence. *)
Theorem complete_rows_have_gender :
  (forall batchSize provider throws now d,
      Forall row_ok (Db.customers d) ->
      Forall row_ok
        (Db.customers
           (snd (Enrichment.enrichPendingCustomers batchSize provider throws now d))))
  /\ (forall (cfg : SyncJob.Config) clock customers d n,
        Forall row_ok (Db.customers d) ->
        Forall row_ok
          (Db.customers (fst (fst (SyncJob.onBatch clock customers (d, n))))))
  /\ (forall provider clock customers d n,
        Forall row_ok (Db.customers d) ->
        Forall row_ok
          (Db.customers
             (fst (fst (SyncJobInference.onBatch provider clock customers (d, n))))))
  /\ (forall verified customer now d,
        Forall row_ok (Db.customers d) ->
        Forall row_ok
          (Db.customers (snd (Routes.customersCreate verified customer now d))))
  /\ (forall verified customer now d,
        Forall row_ok (Db.customers d) ->
        Forall row_ok
          (Db.customers (snd (Routes.customersUpdate verified customer now d))))
  /\ (forall now d,
        Forall row_ok (Db.customers (snd (resetAllEnrichments now d))))
  /\ (forall s s', invariant s -> step s s' -> invariant s')
  /\ (forall s r,
        reachable s ->
        In r (Db.customers (db s)) ->
        Customer.enrichmentStatus r = complete ->
        Customer.genderInferred r <> None /\ Customer.genderConfidence r <> None).
Proof.
  split; [exact enrichPendingCustomers_ok|].
  split; [intros cfg; exact (onBatch_ok (cfg := cfg))|].
  split; [exact onBatch_inference_ok|].
  split; [exact customersCreate_ok|].
  split; [exact customersUpdate_ok|].
  split; [exact reset_ok|].
  split; [exact step_keeps_invariant|].
  intros s r Hreach.
  assert (Hinv : invariant s).
  { induction Hreach as [|s s' _ IH Hstep].
    - split; constructor.
    - exact (step_keeps_invariant s s' IH Hstep). }
  destruct Hinv as [Hrows _]. rewrite Forall_forall in Hrows.
  intros Hin. exact (Hrows r Hin).
Qed.

End CompleteRows.

Section CompleteRowsExamples.

Local Existing Instance Notions.plainRuntime.
Local Existing Instance Notions.plainDatabase.

(** A customer made by a webhook and then enriched. *)
Lemma complete_rows_have_gender_witness :
  Writers.reachable Notions.enrichedByWebhook
  /\ exists r,
       Db.customers (Writers.db Notions.enrichedByWebhook) = [r]
       /\ Customer.enrichmentStatus r = complete
       /\ Customer.genderInferred r <> None
       /\ Customer.genderConfidence r <> None.
Proof.
  assert (Hreach : Writers.reachable Notions.enrichedByWebhook).
  { eapply Writers.reach_step.
    - eapply Writers.reach_step.
      + apply Writers.reach_initial.
      + apply (Writers.webhook_create _ Notions.sampleBody 10).
    - apply (Writers.enrich_stored _ 1 Enrichment.Rejected 20). }
  split; [exact Hreach|].
  eexists. split; [reflexivity|]. split; [reflexivity|].
  apply (proj2 (proj2 (proj2 (proj2 (proj2 (proj2 (proj2
           (complete_rows_have_gender (rt := Notions.plainRuntime)
              (database := Notions.plainDatabase))))))))
           Notions.enrichedByWebhook _ Hreach).
  - left. reflexivity.
  - reflexivity.
Defined.

End CompleteRowsExamples.

(** ** A whole run *)

(** On an empty store and a source of three pages of 250, 250 and 40
    customers, a run of [syncCustomers] returns 540 processed, 540 created
    and none updated, clears the flag, reads every reply, stores 540 rows
    and leaves one Sync Log, completed, with the three counters and the
    time of completion. *)
Lemma syncCustomers_three_pages :
  fst (fst (fst Notions.threePageRun))
  = ShopifyClient.Returned
      {| SyncJob.processed := 540; SyncJob.created := 540; SyncJob.updated := 0 |}
  /\ snd (fst (fst Notions.threePageRun)) = false
  /\ ShopifyClient.replies (snd (fst Notions.threePageRun)) = []
  /\ List.length (Db.customers (snd Notions.threePageRun)) = 540%nat
  /\ Db.syncLogs (snd Notions.threePageRun)
     = [SyncLog.mk 1 Incremental completed (Some 540) (Some 540) (Some 0)
          None 100 (Some 200)].
Proof. vm_compute. repeat split. Qed.

(** ** Splitting, joining and trimming *)

Section TextFacts.

Import Text.

Lemma split_not_nil (sep : ascii) (s : string) : split sep s <> [].
Proof.
  destruct s as [|c rest]; simpl; [discriminate|].
  destruct (Ascii.eqb c sep); [discriminate|].
  destruct (split sep rest); discriminate.
Qed.

(** A string without the separator is one piece. *)
Lemma split_one_piece (sep : ascii) (s : string) :
  occurs sep s = false -> split sep s = [s].
Proof.
  induction s as [|c rest IH]; simpl; [reflexivity|].
  intros H. apply orb_false_iff in H. destruct H as [Hc Hrest].
  rewrite Hc, (IH Hrest). reflexivity.
Qed.

(** The first piece ends at the first separator. *)
Lemma split_at_first (sep : ascii) (a b : string) :
  occurs sep a = false ->
  split sep (String.append a (String sep b)) = a :: split sep b.
Proof.
  induction a as [|c rest IH]; simpl; intros H.
  - rewrite Ascii.eqb_refl. reflexivity.
  - apply orb_false_iff in H. destruct H as [Hc Hrest].
    rewrite Hc, (IH Hrest). reflexivity.
Qed.

(** No piece holds the separator. *)
Lemma split_pieces (sep : ascii) (s : string) :
  Forall (fun piece => occurs sep piece = false) (split sep s).
Proof.
  induction s as [|c rest IH]; simpl.
  - repeat constructor.
  - destruct (Ascii.eqb c sep) eqn:Ec.
    + constructor; [reflexivity | exact IH].
    + destruct (split sep rest) as [|piece pieces].
      * repeat constructor. simpl. rewrite Ec. reflexivity.
      * inversion IH as [|? ? Hpiece Hpieces]; subst.
        constructor; [|exact Hpieces]. simpl. rewrite Ec. exact Hpiece.
Qed.

Lemma occurs_trimStart (c : ascii) (s : string) :
  occurs c s = false -> occurs c (trimStart s) = false.
Proof.
  induction s as [|c' rest IH]; simpl; [reflexivity|].
  intros H. destruct (is_space c'); [|exact H].
  apply orb_false_iff in H. apply IH, H.
Qed.

Lemma occurs_trimEnd (c : ascii) (s : string) :
  occurs c s = false -> occurs c (trimEnd s) = false.
Proof.
  induction s as [|c' rest IH]; simpl; [reflexivity|].
  intros H. apply orb_false_iff in H. destruct H as [Hc Hrest].
  specialize (IH Hrest). destruct (trimEnd rest) as [|k kept].
  - destruct (is_space c'); simpl; [reflexivity|]. rewrite Hc. reflexivity.
  - simpl. rewrite Hc. exact IH.
Qed.

Lemma occurs_trim (c : ascii) (s : string) :
  occurs c s = false -> occurs c (trim s) = false.
Proof. intros H. apply occurs_trimEnd, occurs_trimStart, H. Qed.

Lemma trimEnd_idem (s : string) : trimEnd (trimEnd s) = trimEnd s.
Proof.
  induction s as [|c rest IH]; simpl; [reflexivity|].
  destruct (trimEnd rest) as [|k kept] eqn:E.
  - destruct (is_space c) eqn:Ec; simpl; [reflexivity|]. rewrite Ec. reflexivity.
  - change (trimEnd (String c (String k kept))) with
      (match trimEnd (String k kept) with
       | EmptyString => if is_space c then EmptyString else String c EmptyString
       | kept' => String c kept'
       end).
    rewrite IH. reflexivity.
Qed.

(** A string that starts with no white space keeps its start under
    [trimEnd]. *)
Lemma trimStart_trimEnd (s : string) :
  trimStart s = s -> trimStart (trimEnd s) = trimEnd s.
Proof.
  destruct s as [|c rest]; simpl; [reflexivity|].
  destruct (is_space c) eqn:Ec.
  - intros H. exfalso.
    assert (Hlen : (String.length (trimStart rest) <= String.length rest)%nat).
    { clear. induction rest as [|c' r IH]; simpl; [lia|].
      destruct (is_space c'); simpl; lia. }
    rewrite H in Hlen. simpl in Hlen. lia.
  - intros _. destruct (trimEnd rest); simpl; rewrite Ec; reflexivity.
Qed.

Lemma trimStart_idem (s : string) : trimStart (trimStart s) = trimStart s.
Proof.
  induction s as [|c rest IH]; simpl; [reflexivity|].
  destruct (is_space c) eqn:Ec; [exact IH|]. simpl. rewrite Ec. reflexivity.
Qed.

Lemma trim_idem (s : string) : trim (trim s) = trim s.
Proof.
  unfold trim. rewrite (trimStart_trimEnd (trimStart s) (trimStart_idem s)).
  apply trimEnd_idem.
Qed.

(** A blank before a string goes with the trim. *)
Lemma trim_after_blank (s : string) : trim (String " " s) = trim s.
Proof. reflexivity. Qed.

Lemma join_cons (sep x y : string) (rest : list string) :
  join sep (x :: y :: rest)
  = String.append x (String.append sep (join sep (y :: rest))).
Proof. reflexivity. Qed.

(** Reading back what [join(", ")] wrote: splitting at the commas and
    trimming gives the items again, when no item holds a comma or has white
    space around it. *)
Lemma split_join (items : list string) :
  items <> [] ->
  Forall (fun item => occurs "," item = false /\ trim item = item) items ->
  map trim (split "," (join ", " items)) = items.
Proof.
  induction items as [|x rest IH]; [congruence|]. intros _ Hall.
  inversion Hall as [|? ? [Hx Htrim] Hrest]; subst.
  destruct rest as [|y rest].
  - unfold join. simpl. rewrite (split_one_piece _ _ Hx). simpl.
    rewrite Htrim. reflexivity.
  - rewrite join_cons.
    change (String.append ", " (join ", " (y :: rest)))
      with (String "," (String " " (join ", " (y :: rest)))).
    rewrite (split_at_first _ _ _ Hx).
    assert (Hgo : y :: rest <> []) by discriminate.
    specialize (IH Hgo Hrest).
    cbn [map]. rewrite Htrim. f_equal.
    cbn [split]. change (Ascii.eqb " " ",") with false. cbv iota.
    destruct (split "," (join ", " (y :: rest))) as [|piece pieces] eqn:E.
    + exfalso. exact (split_not_nil _ _ E).
    + cbn [map] in *. rewrite trim_after_blank. exact IH.
Qed.

Lemma prefix_append (a b : string) : String.prefix a (String.append a b) = true.
Proof.
  induction a as [|c rest IH]; simpl.
  - destruct b; reflexivity.
  - destruct (ascii_dec c c); [exact IH | congruence].
Qed.

Lemma occurs_append (c : ascii) (a b : string) :
  occurs c (String.append a b) = (occurs c a || occurs c b)%bool.
Proof.
  induction a as [|c' rest IH]; simpl; [reflexivity|].
  rewrite IH. apply orb_assoc.
Qed.

(** White space at the end of [b] is all that [trimEnd] may take from
    [a ++ b] when [b] keeps something. *)
Lemma trimEnd_append (a b : string) :
  trimEnd b = b -> b <> EmptyString ->
  trimEnd (String.append a b) = String.append a b.
Proof.
  intros Hb Hne. induction a as [|c rest IH]; simpl; [exact Hb|].
  rewrite IH. destruct (String.append rest b) eqn:E; [|reflexivity].
  exfalso. destruct rest; simpl in E; [congruence | discriminate].
Qed.

End TextFacts.

(** ** The gender tag *)

Section GenderTagFacts.

Import Text GenderTags.

Lemma existingTags_items (tags : option string) :
  Forall Notions.tag_item (existingTags tags).
Proof.
  unfold existingTags. destruct tags as [t|]; [|constructor].
  destruct (String.eqb t ""); [constructor|].
  apply Forall_map. eapply Forall_impl; [|apply split_pieces].
  intros piece Hpiece. split; [apply occurs_trim, Hpiece | apply trim_idem].
Qed.

Lemma otherTags_items (tags : option string) : Forall Notions.tag_item (otherTags tags).
Proof.
  unfold otherTags. apply Forall_forall. intros item Hin.
  apply filter_In in Hin. destruct Hin as [Hin _].
  exact (proj1 (Forall_forall _ _) (existingTags_items tags) item Hin).
Qed.

Lemma genderTag_item (g : string) :
  occurs "," g = false -> trimEnd g = g -> Notions.tag_item (genderTag g).
Proof.
  intros Hcomma Hend. split.
  - unfold genderTag. rewrite occurs_append, Hcomma. reflexivity.
  - unfold trim, genderTag.
    change (trimStart (String.append "gender:" g)) with (String.append "gender:" g).
    destruct g as [|c rest]; [reflexivity|].
    apply trimEnd_append; [exact Hend | discriminate].
Qed.

Lemma genderTag_starts (g : string) :
  startsWith "gender:" (genderTag g) = true.
Proof. apply prefix_append. Qed.

Lemma filter_filter {A : Type} (p : A -> bool) (l : list A) :
  filter p (filter p l) = filter p l.
Proof.
  induction l as [|x rest IH]; simpl; [reflexivity|].
  destruct (p x) eqn:E; simpl; [rewrite E, IH|]; auto.
Qed.

Lemma filter_none {A : Type} (p : A -> bool) (l : list A) :
  filter (fun x => negb (p x)) (filter p l) = [].
Proof.
  induction l as [|x rest IH]; simpl; [reflexivity|].
  destruct (p x) eqn:E; simpl; [rewrite E|]; auto.
Qed.

Lemma newTags_items (g : string) (tags : option string) :
  occurs "," g = false -> trimEnd g = g ->
  map trim (split "," (newTags g tags)) = otherTags tags ++ [genderTag g].
Proof.
  intros Hcomma Hend. unfold newTags. apply split_join.
  - destruct (otherTags tags); discriminate.
  - apply Forall_app. split; [apply otherTags_items|].
    constructor; [apply genderTag_item; assumption | constructor].
Qed.

Lemma newTags_not_empty (g : string) (tags : option string) :
  occurs "," g = false -> trimEnd g = g -> newTags g tags <> EmptyString.
Proof.
  intros Hcomma Hend E. pose proof (newTags_items g tags Hcomma Hend) as H.
  rewrite E in H. simpl in H.
  destruct (otherTags tags) as [|t [|t' rest]]; simpl in H; discriminate.
Qed.

Lemma otherTags_newTags (g : string) (tags : option string) :
  occurs "," g = false -> trimEnd g = g ->
  otherTags (Some (newTags g tags)) = otherTags tags.
Proof.
  intros Hcomma Hend. unfold otherTags at 1. unfold existingTags.
  destruct (String.eqb_spec (newTags g tags) "") as [E|_].
  - exfalso. exact (newTags_not_empty g tags Hcomma Hend E).
  - rewrite (newTags_items g tags Hcomma Hend), filter_app. cbn [filter].
    rewrite genderTag_starts. cbn [negb]. rewrite app_nil_r.
    unfold otherTags. apply filter_filter.
Qed.

Lemma newTags_again (g : string) (tags : option string) :
  occurs "," g = false -> trimEnd g = g ->
  newTags g (Some (newTags g tags)) = newTags g tags.
Proof.
  intros Hcomma Hend. unfold newTags at 1.
  rewrite (otherTags_newTags g tags Hcomma Hend). reflexivity.
Qed.

(** X8. Reading back the tags that [applyGenderTag] writes: split at the commas
    and trimmed, they are the customer's tags that do not start with
    gender:, each trimmed and in their order, and then the tag of the
    inferred gender, which is the only one that starts with gender:. *)
Theorem newTags_read_back (g : string) (tags : option string) :
  occurs "," g = false -> trimEnd g = g ->
  map trim (split "," (newTags g tags)) = otherTags tags ++ [genderTag g]
  /\ filter (startsWith "gender:") (map trim (split "," (newTags g tags)))
     = [genderTag g].
Proof.
  intros Hcomma Hend. rewrite (newTags_items g tags Hcomma Hend).
  split; [reflexivity|].
  rewrite filter_app. cbn [filter]. rewrite genderTag_starts.
  unfold otherTags.
  rewrite (filter_ext _ (fun x => negb (negb (startsWith "gender:" x)))).
  - rewrite (filter_none (fun t => negb (startsWith "gender:" t))). reflexivity.
  - intros x. rewrite negb_involutive. reflexivity.
Qed.

(** X9. Once the platform holds the tags that [applyGenderTag] asked for, a
    second call for the same customer asks for nothing. *)
Theorem applyGenderTag_settles (customer : Customer.t) (g : string)
    (request : Z * string) :
  Customer.genderInferred customer = Some g ->
  occurs "," g = false -> trimEnd g = g ->
  applyGenderTag customer = Some request ->
  fst request = Customer.shopifyCustomerId customer
  /\ applyGenderTag (withTags (Some (snd request)) customer) = None.
Proof.
  intros Hg Hcomma Hend. unfold applyGenderTag. simpl. rewrite Hg.
  destruct (String.eqb g "" || String.eqb g "unknown")%bool; [discriminate|].
  destruct (differs (Customer.tags customer) (newTags g (Customer.tags customer)));
    [|discriminate].
  intros H. injection H as <-. simpl. split; [reflexivity|].
  rewrite (newTags_again g _ Hcomma Hend), String.eqb_refl. reflexivity.
Qed.

(** A customer without a gender, or whose gender is unknown, gets no tag. *)
Lemma applyGenderTag_unknown (customer : Customer.t) :
  SyncJob.known_gender (Customer.genderInferred customer) = false ->
  applyGenderTag customer = None.
Proof.
  unfold SyncJob.known_gender, applyGenderTag.
  destruct (Customer.genderInferred customer) as [g|]; [|reflexivity].
  destruct (String.eqb g ""); [reflexivity|].
  destruct (String.eqb g "unknown"); [reflexivity | discriminate].
Qed.

End GenderTagFacts.

(** A customer tagged vip, gender:male and new, now inferred female: the
    tags read back are vip, new and gender:female. *)
Lemma newTags_read_back_witness :
  Text.occurs "," "female" = false
  /\ Text.trimEnd "female" = "female"
  /\ map Text.trim
       (Text.split "," (GenderTags.newTags "female" (Some "vip, gender:male ,new")))
     = ["vip"; "new"; "gender:female"].
Proof.
  split; [reflexivity|]. split; [reflexivity|].
  exact (proj1 (newTags_read_back "female" (Some "vip, gender:male ,new")
                  eq_refl eq_refl)).
Defined.

Lemma applyGenderTag_settles_witness :
  GenderTags.applyGenderTag Notions.enrichedRow
  = Some (7001, "vip, gender:female")
  /\ GenderTags.applyGenderTag
       (GenderTags.withTags (Some "vip, gender:female") Notions.enrichedRow)
     = None.
Proof.
  split; [reflexivity|].
  exact (proj2 (applyGenderTag_settles Notions.enrichedRow "female"
                  (7001, "vip, gender:female") eq_refl eq_refl eq_refl eq_refl)).
Defined.

(** ** The phone numbers of the interakt export *)

Section InteraktFacts.

Import Text Routes.

Lemma all_keepOnly (p : ascii -> bool) (s : string) : all p (keepOnly p s) = true.
Proof.
  induction s as [|c rest IH]; simpl; [reflexivity|].
  destruct (p c) eqn:E; simpl; [rewrite E|]; exact IH.
Qed.

Lemma keepOnly_all (p : ascii -> bool) (s : string) :
  all p s = true -> keepOnly p s = s.
Proof.
  induction s as [|c rest IH]; simpl; [reflexivity|].
  intros H. apply andb_true_iff in H. destruct H as [Hc Hrest].
  rewrite Hc, (IH Hrest). reflexivity.
Qed.

Lemma all_sliceFrom (p : ascii -> bool) (n : nat) (s : string) :
  all p s = true -> all p (sliceFrom n s) = true.
Proof.
  revert s. induction n as [|n IH]; intros s H; [exact H|].
  destruct s as [|c rest]; [reflexivity|]. simpl in *.
  apply andb_true_iff in H. apply IH, H.
Qed.

Lemma length_sliceFrom (n : nat) (s : string) :
  String.length (sliceFrom n s) = (String.length s - n)%nat.
Proof.
  revert s. induction n as [|n IH]; intros s; simpl; [lia|].
  destruct s as [|c rest]; simpl; [reflexivity | apply IH].
Qed.

(** What [slice] leaves is the end of the string. *)
Lemma sliceFrom_suffix (n : nat) (s : string) :
  exists before, s = String.append before (sliceFrom n s).
Proof.
  revert s. induction n as [|n IH]; intros s; [exists EmptyString; reflexivity|].
  destruct s as [|c rest]; [exists EmptyString; reflexivity|].
  destruct (IH rest) as [before E]. exists (String c before). simpl.
  rewrite <- E. reflexivity.
Qed.

(** The digits that [phoneForInterakt] reads off a phone. *)
Local Abbreviation digitsOf phone :=
  (keepOnly is_digit (match phone with Some p => p | None => EmptyString end)).

Lemma phone_parts (phone : option string) :
  all is_digit (InteraktPhone.full (phoneForInterakt phone)) = true
  /\ all is_digit (InteraktPhone.local (phoneForInterakt phone)) = true
  /\ InteraktPhone.full (phoneForInterakt phone)
     = (if String.eqb (InteraktPhone.local (phoneForInterakt phone)) ""
        then EmptyString
        else String.append "91" (InteraktPhone.local (phoneForInterakt phone)))
  /\ (exists before,
        digitsOf phone
        = String.append before (InteraktPhone.local (phoneForInterakt phone)))
  /\ (startsWith "91" (digitsOf phone) = false ->
      (String.length (InteraktPhone.local (phoneForInterakt phone)) <= 10)%nat).
Proof.
  unfold phoneForInterakt.
  pose proof (all_keepOnly is_digit
                (match phone with Some p => p | None => EmptyString end)) as Hd.
  set (digits := keepOnly is_digit _) in *.
  destruct (String.eqb_spec digits "") as [E|Hne];
    cbn [InteraktPhone.full InteraktPhone.local].
  - rewrite E. repeat split; try reflexivity.
    + exists EmptyString. reflexivity.
    + intros _. simpl. lia.
  - assert (Hlocal : forall local, all is_digit local = true ->
              all is_digit
                (if String.eqb local "" then EmptyString
                 else String.append "91" local) = true).
    { intros local H. destruct (String.eqb local ""); [reflexivity | exact H]. }
    destruct (startsWith "91" digits) eqn:Es.
    + repeat split.
      * apply Hlocal, all_sliceFrom, Hd.
      * apply all_sliceFrom, Hd.
      * apply sliceFrom_suffix.
      * discriminate.
    + destruct (Nat.ltb_spec 10 (String.length digits)) as [Hlong|Hshort].
      * repeat split.
        -- apply Hlocal, all_sliceFrom, Hd.
        -- apply all_sliceFrom, Hd.
        -- apply sliceFrom_suffix.
        -- intros _. unfold sliceLast. rewrite length_sliceFrom. lia.
      * repeat split.
        -- apply Hlocal, Hd.
        -- exact Hd.
        -- exists EmptyString. reflexivity.
        -- intros _. exact Hshort.
Qed.

(** X11. The two numbers that [phoneForInterakt] returns hold digits only;
    the full number is the local one after 91, and both are empty together;
    the local number is the end of the digits of the phone, and it has at
    most ten digits when those do not start with 91. The full number is one
    that [phoneForInterakt] leaves as it is: read as a phone, it gives the
    same two numbers again. *)
Theorem phoneForInterakt_shape (phone : option string) :
  all is_digit (InteraktPhone.full (phoneForInterakt phone)) = true
  /\ all is_digit (InteraktPhone.local (phoneForInterakt phone)) = true
  /\ InteraktPhone.full (phoneForInterakt phone)
     = (if String.eqb (InteraktPhone.local (phoneForInterakt phone)) ""
        then EmptyString
        else String.append "91" (InteraktPhone.local (phoneForInterakt phone)))
  /\ (exists before,
        digitsOf phone
        = String.append before (InteraktPhone.local (phoneForInterakt phone)))
  /\ (startsWith "91" (digitsOf phone) = false ->
      (String.length (InteraktPhone.local (phoneForInterakt phone)) <= 10)%nat)
  /\ phoneForInterakt (Some (InteraktPhone.full (phoneForInterakt phone)))
     = phoneForInterakt phone.
Proof.
  destruct (phone_parts phone) as (Hfull & Hlocal & Erel & Hend & Hten).
  repeat split; try assumption.
  clear Hend Hten.
  destruct (phoneForInterakt phone) as [full local]. simpl in *.
  destruct local as [|c rest]; simpl in Erel; subst; [reflexivity|].
  unfold phoneForInterakt.
  rewrite (keepOnly_all is_digit _ Hfull). reflexivity.
Qed.

End InteraktFacts.

(** ** The tags offered as filter options *)

Section DistinctTagFacts.

Import Text DatabaseStorage.

Lemma insertSorted_perm (x : string) (l : list string) :
  Permutation (insertSorted x l) (x :: l).
Proof.
  induction l as [|y rest IH]; simpl; [reflexivity|].
  destruct (precedes x y); [reflexivity|].
  eapply perm_trans; [apply perm_skip, IH | apply perm_swap].
Qed.

Lemma sort_perm (l : list string) : Permutation (sort l) l.
Proof.
  induction l as [|x rest IH]; simpl; [constructor|].
  eapply perm_trans; [apply insertSorted_perm | apply perm_skip, IH].
Qed.

Lemma insertSorted_sorted (x : string) (l : list string) :
  Sorted (fun a b => precedes a b = true) l ->
  Sorted (fun a b => precedes a b = true) (insertSorted x l).
Proof.
  induction l as [|y rest IH]; simpl; intros Hs.
  - repeat constructor.
  - destruct (precedes x y) eqn:E.
    + constructor; [exact Hs | constructor; exact E].
    + assert (Hyx : precedes y x = true).
      { unfold precedes in *. destruct (String.leb_total x y); congruence. }
      inversion Hs as [|? ? Hrest Hhd]; subst.
      constructor; [apply IH, Hrest|].
      destruct rest as [|z rest']; simpl.
      * constructor. exact Hyx.
      * destruct (precedes x z); constructor; [exact Hyx|].
        inversion Hhd; assumption.
Qed.

Lemma sort_sorted (l : list string) :
  Sorted (fun a b => precedes a b = true) (sort l).
Proof.
  induction l as [|x rest IH]; simpl; [constructor|].
  apply insertSorted_sorted, IH.
Qed.

(** In a sorted list without a repetition each string is before the
    next. *)
Lemma sorted_strictly (l : list string) :
  Sorted (fun a b => precedes a b = true) l -> NoDup l ->
  Sorted (fun a b => String.ltb a b = true) l.
Proof.
  induction l as [|a rest IH]; intros Hs Hn; [constructor|].
  inversion Hs as [|? ? Hrest Hhd]; subst.
  inversion Hn as [|? ? Hnotin Hn']; subst.
  constructor; [apply IH; assumption|].
  destruct rest as [|b rest']; constructor.
  inversion Hhd as [|? ? Hab]; subst.
  unfold precedes, String.leb in Hab. unfold String.ltb.
  destruct (String.compare a b) eqn:E; [|reflexivity|discriminate].
  apply String.compare_eq_iff in E. subst. exfalso. apply Hnotin. left. reflexivity.
Qed.

Lemma add_In (t x : string) (set : list string) :
  In t (add x set) <-> In t set \/ t = x.
Proof.
  unfold add. destruct (existsb (String.eqb x) set) eqn:E.
  - split; [tauto|]. intros [H| ->]; [exact H|].
    apply existsb_exists in E. destruct E as (y & Hy & Exy).
    apply String.eqb_eq in Exy. subst. exact Hy.
  - rewrite in_app_iff. simpl. intuition.
Qed.

Lemma add_NoDup (x : string) (set : list string) : NoDup set -> NoDup (add x set).
Proof.
  intros Hn. unfold add. destruct (existsb (String.eqb x) set) eqn:E; [exact Hn|].
  apply NoDup_app; [exact Hn | repeat constructor; intros [] |].
  intros y Hy [<-|[]].
  assert (Ht : existsb (String.eqb x) set = true).
  { apply existsb_exists. exists x. split; [exact Hy | apply String.eqb_refl]. }
  congruence.
Qed.

(** The pieces of one row: what the inner loop adds. *)
Lemma pieces_In (t : string) (pieces set : list string) :
  In t
    (fold_left
       (fun set tag =>
          let trimmed := trim tag in
          if String.eqb trimmed "" then set else add trimmed set)
       pieces set)
  <-> In t set \/ (t <> EmptyString /\ In t (map trim pieces)).
Proof.
  revert set. induction pieces as [|p rest IH]; intros set; simpl.
  - tauto.
  - rewrite IH. destruct (String.eqb_spec (trim p) "") as [E|Hne].
    + rewrite E. intuition congruence.
    + rewrite add_In. intuition (subst; auto).
Qed.

Lemma pieces_NoDup (pieces set : list string) :
  NoDup set ->
  NoDup
    (fold_left
       (fun set tag =>
          let trimmed := trim tag in
          if String.eqb trimmed "" then set else add trimmed set)
       pieces set).
Proof.
  revert set. induction pieces as [|p rest IH]; intros set Hn; simpl; [exact Hn|].
  apply IH. destruct (String.eqb (trim p) ""); [exact Hn | apply add_NoDup, Hn].
Qed.

Lemma addTags_In (t tags : string) (set : list string) :
  In t (addTags set tags)
  <-> In t set \/ (t <> EmptyString /\ In t (map trim (split "," tags))).
Proof.
  unfold addTags. destruct (String.eqb_spec tags "") as [E|_].
  - subst. split; [tauto|].
    intros [H|(Hne & [E|[]])]; [exact H|].
    exfalso. apply Hne. symmetry. exact E.
  - apply pieces_In.
Qed.

Lemma addTags_NoDup (tags : string) (set : list string) :
  NoDup set -> NoDup (addTags set tags).
Proof.
  intros Hn. unfold addTags. destruct (String.eqb tags ""); [exact Hn|].
  apply pieces_NoDup, Hn.
Qed.

Lemma allTags_In (t : string) (texts set : list string) :
  In t (fold_left addTags texts set)
  <-> In t set
      \/ (t <> EmptyString
          /\ exists tags, In tags texts /\ In t (map trim (split "," tags))).
Proof.
  revert set. induction texts as [|s rest IH]; intros set; simpl.
  - split; [tauto|]. intros [H|(_ & tags & [] & _)]. exact H.
  - rewrite IH, addTags_In. split.
    + intros [[H|(Hne & H)]|(Hne & tags & Hin & H)]; [tauto| |].
      * right. split; [exact Hne|]. exists s. tauto.
      * right. split; [exact Hne|]. exists tags. tauto.
    + intros [H|(Hne & tags & [<-|Hin] & H)]; [tauto|tauto|].
      right. split; [exact Hne|]. exists tags. tauto.
Qed.

Lemma allTags_NoDup (texts set : list string) :
  NoDup set -> NoDup (fold_left addTags texts set).
Proof.
  revert set. induction texts as [|s rest IH]; intros set Hn; simpl; [exact Hn|].
  apply IH, addTags_NoDup, Hn.
Qed.

Lemma truthy_In (s : string) (items : list (option string)) :
  In s (truthy items) <-> s <> EmptyString /\ In (Some s) items.
Proof.
  induction items as [|[x|] rest IH]; simpl.
  - tauto.
  - destruct (String.eqb_spec x "") as [E|Hne]; simpl; rewrite IH.
    + subst. intuition congruence.
    + intuition congruence.
  - rewrite IH. intuition congruence.
Qed.

(** X12. A tag is offered exactly when it is not empty and some customer's tags,
    split at the commas and trimmed, hold it. *)
Theorem getDistinctTags_members (db : Db.t) (t : string) :
  In t (getDistinctTags db)
  <-> t <> EmptyString
      /\ exists r tags,
           In r (Db.customers db) /\ Customer.tags r = Some tags
           /\ In t (map trim (split "," tags)).
Proof.
  unfold getDistinctTags.
  split.
  - intros H. apply (Permutation_in _ (sort_perm _)) in H.
    apply allTags_In in H. destruct H as [[]|(Hne & tags & Hin & Ht)].
    split; [exact Hne|].
    unfold distinctTagTexts in Hin. apply nodup_In, truthy_In in Hin.
    destruct Hin as [_ Hin]. apply in_map_iff in Hin.
    destruct Hin as (r & Hr & Hin). exists r, tags. tauto.
  - intros (Hne & r & tags & Hin & Htags & Ht).
    apply (Permutation_in _ (Permutation_sym (sort_perm _))).
    apply allTags_In. right. split; [exact Hne|]. exists tags. split; [|exact Ht].
    unfold distinctTagTexts. apply nodup_In, truthy_In. split.
    + intros ->. simpl in Ht. destruct Ht as [E|[]]. apply Hne. symmetry. exact E.
    + apply in_map_iff. exists r. tauto.
Qed.

(** X13. The tags offered come in ascending order of their code units, each
    before the next: none is offered twice. *)
Theorem getDistinctTags_sorted (db : Db.t) :
  Sorted (fun a b => String.ltb a b = true) (getDistinctTags db)
  /\ NoDup (getDistinctTags db).
Proof.
  assert (Hn : NoDup (getDistinctTags db)).
  { unfold getDistinctTags.
    apply (Permutation_NoDup (Permutation_sym (sort_perm _))).
    apply allTags_NoDup. constructor. }
  split; [|exact Hn].
  apply sorted_strictly; [apply sort_sorted | exact Hn].
Qed.

End DistinctTagFacts.

(** ** What a run of [syncCustomers] leaves behind *)

Section SyncAccounts.

Import DatabaseStorage ShopifyClient Notions.

Context {rt : Js.Runtime} {cfg : SyncJob.Config} {database : Database}.

(** What holds of the state of the callback before the loop of
    [fetchAllCustomers] holds after a loop that returns, when every call
    of the callback that does not throw keeps it. *)
Lemma fetchAll_loop_returned {St : Type}
    (callback : list TransformedCustomer.t -> St -> St * option error)
    (since : option Z) (P : St -> Prop) :
  (forall batch st, P st -> snd (callback batch st) = None ->
                    P (fst (callback batch st))) ->
  forall script pageInfo info tr n st total,
    P st ->
    fst (fst (fetchAll_loop callback since pageInfo script info tr n st))
    = Returned total ->
    P (snd (fetchAll_loop callback since pageInfo script info tr n st)).
Proof.
  intros Hkeeps. induction script as [|reply rest IH];
    intros pageInfo info tr n st total Hst; [discriminate|].
  cbn [fetchAll_loop]. destruct reply as [|response]; [discriminate|].
  destruct (negb (Response.ok response)); [discriminate|].
  destruct (map transformCustomer (Response.customers response)) as [|x xs].
  - destruct (_ && _)%bool; [apply IH, Hst | intros _; exact Hst].
  - pose proof (Hkeeps (x :: xs) st Hst) as Hst'.
    destruct (callback (x :: xs) st) as [st' thrown]. simpl in Hst'.
    destruct thrown; [discriminate|]. specialize (Hst' eq_refl).
    destruct (_ && _)%bool; [apply IH, Hst' | intros _; exact Hst'].
Qed.

Lemma upsertCustomer_length (customer : InsertCustomer.t) (now : Z) (db : Db.t) :
  List.length (Db.customers (snd (upsertCustomer customer now db)))
  = match getCustomerByShopifyId (InsertCustomer.shopifyCustomerId customer) db with
    | Some _ => List.length (Db.customers db)
    | None => S (List.length (Db.customers db))
    end.
Proof.
  rewrite upsertCustomer_rows.
  pose proof (upsertRows_keys customer (Db.customers_seq db) now (Db.customers db))
    as Hkeys.
  apply (f_equal (@List.length Z)) in Hkeys. unfold keys in Hkeys.
  rewrite length_map in Hkeys. rewrite Hkeys. unfold getCustomerByShopifyId.
  destruct (find _ (Db.customers db)).
  - apply length_map.
  - rewrite length_app, length_map. simpl. lia.
Qed.

Lemma insertData_key (customer : TransformedCustomer.t)
    (existing : option Customer.t) (payload : InsertCustomer.t) :
  SyncJob.insertData customer existing = Some payload ->
  InsertCustomer.shopifyCustomerId payload
  = TransformedCustomer.shopifyCustomerId customer.
Proof.
  unfold SyncJob.insertData.
  destruct (TransformedCustomer.createdAtShopify customer); [|discriminate].
  destruct (TransformedCustomer.updatedAtShopify customer); [|discriminate].
  intros E. injection E as <-. reflexivity.
Qed.

Lemma syncOne_accounted (before : nat) (now : Z)
    (customer : TransformedCustomer.t) (st : Db.t * SyncJob.Counters) :
  accounted before st ->
  snd (SyncJob.syncOne now customer st) = None ->
  accounted before (fst (SyncJob.syncOne now customer st)).
Proof.
  destruct st as [db n]. unfold accounted. simpl fst. simpl snd.
  intros (Hsum & Hc & Hu & Hrows). unfold SyncJob.syncOne.
  destruct (rejects (GetCustomerByShopifyId _) db); [discriminate|].
  destruct (SyncJob.insertData customer _) as [payload|] eqn:Epayload;
    [|discriminate].
  destruct (rejects (UpsertCustomer payload) db); [discriminate|].
  pose proof (upsertCustomer_length payload now db) as Hlen.
  rewrite (insertData_key _ _ _ Epayload) in Hlen.
  destruct (upsertCustomer payload now db) as [upserted db'].
  destruct (if (SyncJob.SYNC_GENDER_TO_TAGS
                && SyncJob.known_gender (Customer.genderInferred upserted))%bool
            then SyncJob.applyGenderTag upserted else None);
    simpl; [discriminate|].
  intros _. simpl in Hlen.
  destruct (getCustomerByShopifyId _ db); simpl; rewrite Hlen; repeat split; lia.
Qed.

Lemma onBatch_accounted (before : nat) (clock : TransformedCustomer.t -> Z)
    (customers : list TransformedCustomer.t) :
  forall st,
    accounted before st ->
    snd (SyncJob.onBatch clock customers st) = None ->
    accounted before (fst (SyncJob.onBatch clock customers st)).
Proof.
  induction customers as [|customer rest IH]; intros st Hst; [intros _; exact Hst|].
  cbn [SyncJob.onBatch].
  pose proof (syncOne_accounted before (clock customer) customer st Hst) as Hone.
  destruct (SyncJob.syncOne (clock customer) customer st) as [st' thrown].
  destruct thrown; [discriminate|]. apply IH, Hone. reflexivity.
Qed.

Lemma onBatch_logs (clock : TransformedCustomer.t -> Z)
    (customers : list TransformedCustomer.t) :
  forall st,
    Db.syncLogs (fst (fst (SyncJob.onBatch clock customers st)))
    = Db.syncLogs (fst st).
Proof.
  induction customers as [|customer rest IH]; intros [db n]; [reflexivity|].
  cbn [SyncJob.onBatch].
  destruct (SyncJob.syncOne (clock customer) customer (db, n))
    as [[db' n'] thrown] eqn:E.
  destruct (syncOne_logs _ _ _ _ _ _ _ E) as (Hlogs & _ & _).
  destruct thrown; simpl; [|rewrite IH; simpl]; exact Hlogs.
Qed.

(** The state in which the loop of a run ends: the logs are the ones the
    run began with and its own, and the rows are accounted for when the
    loop returned. *)
Lemma run_loop (incremental : bool) (since : option Z)
    (clock : TransformedCustomer.t -> Z) (startedAt : Z) (client : Client)
    (db : Db.t) :
  let db1 := snd (createSyncLog (SyncJob.runningLog incremental) startedAt db) in
  let loop :=
    fetchAllCustomers (SyncJob.onBatch clock) since client
      (db1, SyncJob.noCounts) in
  Db.syncLogs (fst (snd loop))
  = Db.syncLogs db ++ [startedLog incremental (Db.syncLogs_seq db) startedAt]
  /\ (forall total, fst (fst loop) = Returned total ->
      accounted (List.length (Db.customers db)) (snd loop)).
Proof.
  intros db1 loop. split.
  - unfold loop, fetchAllCustomers.
    apply (fetchAll_loop_keeps (SyncJob.onBatch clock) _
             (fun st => Db.syncLogs (fst st)
                        = Db.syncLogs db
                          ++ [startedLog incremental (Db.syncLogs_seq db) startedAt])).
    + intros batch st Hst. rewrite onBatch_logs. exact Hst.
    + reflexivity.
  - intros total Hret. unfold loop, fetchAllCustomers in *.
    apply (fetchAll_loop_returned (SyncJob.onBatch clock) _
             (accounted (List.length (Db.customers db)))) with (total := total).
    + intros batch st Hst Hnone. apply onBatch_accounted; assumption.
    + unfold accounted. simpl. repeat split; lia.
    + exact Hret.
Qed.

(** The logs once the update [u] has settled the log of the run. *)
Local Abbreviation settled incremental startedAt u db :=
  (map (fun l => if SyncLog.id l =? Db.syncLogs_seq db
                 then applyUpdates u l else l)
     (Db.syncLogs db ++ [startedLog incremental (Db.syncLogs_seq db) startedAt])).

(** The [catch] block was entered with the log created and the store
    rejected the update that marks the log failed. *)
Local Abbreviation settle_rejected settledAt err db db' :=
  (exists cause rejection,
      rejects (UpdateSyncLog (Db.syncLogs_seq db)
                 (SyncJob.failedUpdates (SyncJob.message cause) settledAt)) db'
      = Some rejection
      /\ err = StoreError rejection).

(** How a run whose log the store has created ends, and the logs it
    leaves. *)
Lemma syncCustomers_ends (incremental : bool) (startDate : option Z)
    (clock : TransformedCustomer.t -> Z) (startedAt settledAt : Z)
    (client : Client) (db : Db.t) :
  rejects (CreateSyncLog (SyncJob.runningLog incremental)) db = None ->
  let run :=
    SyncJob.syncCustomers incremental startDate clock startedAt settledAt
      false client db in
  match fst (fst (fst run)) with
  | Returned n =>
      snd (fst (fst run)) = false
      /\ accounted (List.length (Db.customers db)) (snd run, n)
      /\ Db.syncLogs (snd run)
         = settled incremental startedAt (SyncJob.completedUpdates n settledAt) db
  | Thrown err =>
      snd (fst (fst run)) = false
      /\ (Db.syncLogs (snd run)
          = settled incremental startedAt
              (SyncJob.failedUpdates (SyncJob.message err) settledAt) db
          \/ (Db.syncLogs (snd run)
              = Db.syncLogs db
                ++ [startedLog incremental (Db.syncLogs_seq db) startedAt]
              /\ settle_rejected settledAt err db (snd run)))
  | Pending =>
      snd (fst (fst run)) = true
      /\ Db.syncLogs (snd run)
         = Db.syncLogs db
           ++ [startedLog incremental (Db.syncLogs_seq db) startedAt]
  end.
Proof.
  intros Hcreated run. unfold run, SyncJob.syncCustomers, SyncJob.syncWith.
  rewrite Hcreated.
  pose proof (fun since => run_loop incremental since clock startedAt client db)
    as Hloop.
  destruct (createSyncLog (SyncJob.runningLog incremental) startedAt db)
    as [syncLog db1] eqn:Ecreate.
  assert (Eid : SyncLog.id syncLog = Db.syncLogs_seq db).
  { apply (f_equal fst) in Ecreate. simpl in Ecreate. subst syncLog. reflexivity. }
  assert (Elogs1 : Db.syncLogs db1
                   = Db.syncLogs db
                     ++ [startedLog incremental (Db.syncLogs_seq db) startedAt]).
  { apply (f_equal snd) in Ecreate. simpl in Ecreate. subst db1. reflexivity. }
  cbn [snd] in Hloop.
  assert (Hfail : forall err c d2,
    Db.syncLogs d2
    = Db.syncLogs db ++ [startedLog incremental (Db.syncLogs_seq db) startedAt] ->
    match fst (fst (fst (SyncJob.failWith syncLog err settledAt c d2))) with
    | Thrown err' =>
        snd (fst (fst (SyncJob.failWith syncLog err settledAt c d2))) = false
        /\ (Db.syncLogs (snd (SyncJob.failWith syncLog err settledAt c d2))
            = settled incremental startedAt
                (SyncJob.failedUpdates (SyncJob.message err') settledAt) db
            \/ (Db.syncLogs (snd (SyncJob.failWith syncLog err settledAt c d2))
                = Db.syncLogs db
                  ++ [startedLog incremental (Db.syncLogs_seq db) startedAt]
                /\ settle_rejected settledAt err' db
                     (snd (SyncJob.failWith syncLog err settledAt c d2))))
    | _ => False
    end).
  { intros err c d2 Hlogs. unfold SyncJob.failWith. rewrite Eid.
    destruct (rejects (UpdateSyncLog _ _) d2) as [rejection|] eqn:Erej;
      cbn [fst snd].
    - split; [reflexivity|]. right. split; [exact Hlogs|].
      exists err, rejection. split; [exact Erej | reflexivity].
    - split; [reflexivity|]. left. unfold updateSyncLog. cbn [Db.syncLogs].
      rewrite Hlogs. reflexivity. }
  destruct (SyncJob.updatedAtMin incremental startDate db1) as [rejection|since].
  - pose proof (Hfail (StoreError rejection) client db1 Elogs1) as H.
    destruct (SyncJob.failWith syncLog (StoreError rejection) settledAt client db1)
      as [[[ended flag] c] d']. cbn [fst snd] in *.
    destruct ended; [contradiction | exact H | contradiction].
  - specialize (Hloop since). destruct Hloop as [Hlogs Hacc].
    destruct (fetchAllCustomers (SyncJob.onBatch clock) since client
                (db1, SyncJob.noCounts)) as [[ended client'] [db2 n]].
    cbn [fst snd] in Hlogs, Hacc.
    destruct ended as [total|err|].
    + rewrite Eid.
      destruct (rejects (UpdateSyncLog _ _) db2) as [rejection|].
      * pose proof (Hfail (StoreError rejection) client' db2 Hlogs) as H.
        destruct (SyncJob.failWith syncLog (StoreError rejection) settledAt
                    client' db2) as [[[ended flag] c] d']. cbn [fst snd] in *.
        destruct ended; [contradiction | exact H | contradiction].
      * cbn [fst snd]. split; [reflexivity|]. split.
        -- destruct (Hacc total eq_refl) as (Hsum & Hc & Hu & Hrows).
           unfold accounted in *. cbn [fst snd] in *. repeat split; assumption.
        -- unfold updateSyncLog. cbn [Db.syncLogs]. rewrite Hlogs. reflexivity.
    + pose proof (Hfail err client' db2 Hlogs) as H.
      destruct (SyncJob.failWith syncLog err settledAt client' db2)
        as [[[ended flag] c] d']. cbn [fst snd] in *.
      destruct ended; [contradiction | exact H | contradiction].
    + cbn [fst snd]. split; [reflexivity | exact Hlogs].
Qed.

(** The log of the run among the settled logs. *)
Lemma settled_own (incremental : bool) (startedAt : Z) (u : SyncLogUpdates.t)
    (db : Db.t) :
  In (applyUpdates u (startedLog incremental (Db.syncLogs_seq db) startedAt))
    (settled incremental startedAt u db).
Proof.
  rewrite map_app, in_app_iff. right. left.
  cbn [SyncLog.id startedLog]. rewrite Z.eqb_refl. reflexivity.
Qed.

(** The latest of the settled logs is the log of the run when that started
    after every other. *)
Lemma settled_latest (incremental : bool) (startedAt : Z)
    (u : SyncLogUpdates.t) (db : Db.t) :
  Forall (fun l => SyncLog.startedAt l < startedAt) (Db.syncLogs db) ->
  latestLog (settled incremental startedAt u db)
  = Some (applyUpdates u (startedLog incremental (Db.syncLogs_seq db) startedAt)).
Proof.
  intros Hall. rewrite map_app. cbn [map SyncLog.id startedLog].
  rewrite Z.eqb_refl. apply latestLog_appended.
  apply Forall_map. eapply Forall_impl; [|exact Hall].
  intros l Hl. cbn beta. destruct (SyncLog.id l =? Db.syncLogs_seq db); exact Hl.
Qed.

(** X6. A run of [syncCustomers] that finds the flag clear. When the store
    rejects [createSyncLog], the run throws the error of the store and
    leaves the store as it was, with no log of its own. Otherwise it ends
    with the flag clear unless it still waits for the platform. When it
    returns, every customer it processed was created or updated, the store
    holds as many more rows as it created, and its Sync Log is completed
    with the three counters it returns. When it throws, its Sync Log is
    failed with the message of the error it throws, and the three counters
    of that log are 0 whatever was written before the error; or the store
    rejected the update that marks the log failed, the run throws the error
    of that update, and its Sync Log is still running. *)
Theorem syncCustomers_accounts (incremental : bool) (startDate : option Z)
    (clock : TransformedCustomer.t -> Z) (startedAt settledAt : Z)
    (client : Client) (db : Db.t) :
  let run :=
    SyncJob.syncCustomers incremental startDate clock startedAt settledAt
      false client db in
  match rejects (CreateSyncLog (SyncJob.runningLog incremental)) db with
  | Some rejection => run = (Thrown (StoreError rejection), false, client, db)
  | None =>
      match fst (fst (fst run)) with
      | Returned n =>
          snd (fst (fst run)) = false
          /\ SyncJob.processed n = SyncJob.created n + SyncJob.updated n
          /\ 0 <= SyncJob.created n /\ 0 <= SyncJob.updated n
          /\ Z.of_nat (List.length (Db.customers (snd run)))
             = Z.of_nat (List.length (Db.customers db)) + SyncJob.created n
          /\ In (completedLog incremental (Db.syncLogs_seq db) startedAt
                   settledAt n)
               (Db.syncLogs (snd run))
      | Thrown err =>
          snd (fst (fst run)) = false
          /\ (In (failedLog incremental (Db.syncLogs_seq db) startedAt
                    settledAt err)
                (Db.syncLogs (snd run))
              \/ (In (startedLog incremental (Db.syncLogs_seq db) startedAt)
                    (Db.syncLogs (snd run))
                  /\ exists cause rejection,
                       rejects
                         (UpdateSyncLog (Db.syncLogs_seq db)
                            (SyncJob.failedUpdates (SyncJob.message cause)
                               settledAt))
                         (snd run)
                       = Some rejection
                       /\ err = StoreError rejection))
      | Pending =>
          snd (fst (fst run)) = true
          /\ In (startedLog incremental (Db.syncLogs_seq db) startedAt)
               (Db.syncLogs (snd run))
      end
  end.
Proof.
  intros run.
  destruct (rejects (CreateSyncLog (SyncJob.runningLog incremental)) db)
    as [rejection|] eqn:Ecreated.
  - unfold run, SyncJob.syncCustomers, SyncJob.syncWith. rewrite Ecreated.
    reflexivity.
  - pose proof (syncCustomers_ends incremental startDate clock startedAt
                  settledAt client db Ecreated) as Hends.
    cbv zeta in Hends. fold run in Hends.
    destruct (fst (fst (fst run))) as [n|err|].
    + destruct Hends as (Hflag & (Hsum & Hc & Hu & Hrows) & Hlogs).
      cbn [fst snd] in *. repeat split; try assumption.
      rewrite Hlogs.
      exact (settled_own incremental startedAt
               (SyncJob.completedUpdates n settledAt) db).
    + destruct Hends as (Hflag & [Hlogs|[Hlogs Hrejected]]);
        (split; [exact Hflag|]).
      * left. rewrite Hlogs.
        exact (settled_own incremental startedAt
                 (SyncJob.failedUpdates (SyncJob.message err) settledAt) db).
      * right. split; [|exact Hrejected].
        rewrite Hlogs, in_app_iff. right. left. reflexivity.
    + destruct Hends as [Hflag Hlogs]. split; [exact Hflag|].
      rewrite Hlogs, in_app_iff. right. left. reflexivity.
Qed.

(** X7. The status that [getSyncStatus] reports after a run of
    [syncCustomers] that started after every stored log. When the store
    rejected [createSyncLog] the store is as it was, and so is the status.
    Otherwise: while the run waits for the platform it is running and there
    is no [lastSync], whatever earlier runs completed; once it has returned
    it is not running and [lastSync] is the instant at which its log was
    settled; once it has thrown the same holds, unless the store rejected
    the update that marks its log failed: then the status still says
    running, with no [lastSync], although the run has ended. *)
Theorem getSyncStatus_after_sync (incremental : bool) (startDate : option Z)
    (clock : TransformedCustomer.t -> Z) (startedAt settledAt : Z)
    (client : Client) (db : Db.t) :
  Forall (fun l => SyncLog.startedAt l < startedAt) (Db.syncLogs db) ->
  let run :=
    SyncJob.syncCustomers incremental startDate clock startedAt settledAt
      false client db in
  let report := getSyncStatus (snd run) in
  match rejects (CreateSyncLog (SyncJob.runningLog incremental)) db with
  | Some rejection => snd run = db
  | None =>
      match fst (fst (fst run)) with
      | Returned _ =>
          SyncStatusReport.lastSync report = Some settledAt
          /\ SyncStatusReport.isRunning report = false
      | Thrown err =>
          (SyncStatusReport.lastSync report = Some settledAt
           /\ SyncStatusReport.isRunning report = false)
          \/ (SyncStatusReport.lastSync report = None
              /\ SyncStatusReport.isRunning report = true
              /\ snd (fst (fst run)) = false
              /\ exists cause rejection,
                   rejects
                     (UpdateSyncLog (Db.syncLogs_seq db)
                        (SyncJob.failedUpdates (SyncJob.message cause) settledAt))
                     (snd run)
                   = Some rejection
                   /\ err = StoreError rejection)
      | Pending =>
          SyncStatusReport.lastSync report = None
          /\ SyncStatusReport.isRunning report = true
      end
  end.
Proof.
  intros Hall run report.
  destruct (rejects (CreateSyncLog (SyncJob.runningLog incremental)) db)
    as [rejection|] eqn:Ecreated.
  - unfold run, SyncJob.syncCustomers, SyncJob.syncWith. rewrite Ecreated.
    reflexivity.
  - pose proof (syncCustomers_ends incremental startDate clock startedAt
                  settledAt client db Ecreated) as Hends.
    cbv zeta in Hends. fold run in Hends.
    assert (Hstarted :
      latestLog (Db.syncLogs db
                 ++ [startedLog incremental (Db.syncLogs_seq db) startedAt])
      = Some (startedLog incremental (Db.syncLogs_seq db) startedAt)).
    { apply latestLog_appended. exact Hall. }
    unfold report, getSyncStatus, getLatestSyncLog.
    destruct (fst (fst (fst run))) as [n|err|].
    + destruct Hends as (_ & _ & Hlogs).
      rewrite Hlogs, (settled_latest _ _ _ _ Hall). split; reflexivity.
    + destruct Hends as (Hflag & [Hlogs|[Hlogs Hrejected]]).
      * left. rewrite Hlogs, (settled_latest _ _ _ _ Hall). split; reflexivity.
      * right. rewrite Hlogs, Hstarted.
        split; [reflexivity|]. split; [reflexivity|].
        split; [exact Hflag | exact Hrejected].
    + destruct Hends as [_ Hlogs]. rewrite Hlogs, Hstarted. split; reflexivity.
Qed.

End SyncAccounts.

Section SyncAccountsExamples.

Import DatabaseStorage.

(** A run at instant 300 on the store of the enriched customer, whose one
    log started at instant 100: the platform answers with an error, and the
    status reports the instant 400 at which the log was settled. *)
Lemma getSyncStatus_after_sync_witness :
  Forall (fun l => SyncLog.startedAt l < 300) (Db.syncLogs Notions.loggedDb)
  /\ SyncStatusReport.lastSync
       (getSyncStatus (database := Notions.plainDatabase) (snd Notions.failedRun))
     = Some 400
  /\ SyncStatusReport.isRunning
       (getSyncStatus (database := Notions.plainDatabase) (snd Notions.failedRun))
     = false.
Proof.
  assert (Hall : Forall (fun l => SyncLog.startedAt l < 300)
                   (Db.syncLogs Notions.loggedDb)).
  { repeat constructor. }
  split; [exact Hall|].
  destruct (getSyncStatus_after_sync (rt := Notions.plainRuntime)
              (cfg := Notions.plainConfig) (database := Notions.plainDatabase)
              true None (fun _ => 350) 300 400
              (ShopifyClient.start [Notions.serverError]) Notions.loggedDb Hall)
    as [Hsettled|(Hnone & _)].
  - exact Hsettled.
  - discriminate Hnone.
Defined.

End SyncAccountsExamples.

(** ** Enriching until no customer is pending *)

Section EnrichAllFacts.

Import DatabaseStorage Enrichment Notions.

Context {rt : Js.Runtime} {database : Database}.

Variable provider : Customer.t -> completion.
Variable throws : Customer.t -> bool.

(** *** One round: what [enrichPendingCustomers] writes *)

Lemma enrichOne_rows (now : Z) (s : Customer.t) (n : Z) (db : Db.t) :
  enrichOne provider throws now s (n, db)
  = (n + (if throws s then 0 else 1),
     Db.mk (map (afterTurn provider throws now s) (Db.customers db))
       (Db.customers_seq db) (Db.syncLogs db) (Db.syncLogs_seq db)).
Proof.
  unfold enrichOne, storeResult, markFailed, updateWhere.
  destruct (throws s) eqn:E.
  - rewrite Z.add_0_r. f_equal. f_equal. apply map_ext. intros r.
    unfold afterTurn. rewrite E. reflexivity.
  - f_equal. f_equal. apply map_ext. intros r.
    unfold afterTurn. rewrite E. reflexivity.
Qed.

Lemma round_rows (now : Z) (selected : list Customer.t) :
  forall (n : Z) (db : Db.t),
    fold_left (fun acc customer => enrichOne provider throws now customer acc)
      selected (n, db)
    = (n + enrichedOf throws selected,
       Db.mk (map (afterTurns provider throws now selected) (Db.customers db))
         (Db.customers_seq db) (Db.syncLogs db) (Db.syncLogs_seq db)).
Proof.
  induction selected as [|s rest IH]; intros n db.
  - cbn [fold_left]. unfold enrichedOf. simpl. rewrite Z.add_0_r.
    rewrite map_id. destruct db; reflexivity.
  - cbn [fold_left]. rewrite enrichOne_rows, IH. cbn [Db.customers
      Db.customers_seq Db.syncLogs Db.syncLogs_seq]. rewrite map_map.
    f_equal. unfold enrichedOf. cbn [filter].
    destruct (throws s); cbn [negb List.length]; lia.
Qed.

Lemma enrichPendingCustomers_rows (batchSize : nat) (now : Z) (db : Db.t) :
  enrichPendingCustomers batchSize provider throws now db
  = (enrichedOf throws (firstn batchSize (pendingCustomers db)),
     Db.mk
       (map (afterTurns provider throws now
               (firstn batchSize (pendingCustomers db)))
          (Db.customers db))
       (Db.customers_seq db) (Db.syncLogs db) (Db.syncLogs_seq db)).
Proof.
  unfold enrichPendingCustomers. rewrite round_rows. reflexivity.
Qed.

Lemma afterTurn_id (now : Z) (s r : Customer.t) :
  Customer.id (afterTurn provider throws now s r) = Customer.id r.
Proof.
  unfold afterTurn. destruct (Customer.id r =? Customer.id s); [|reflexivity].
  destruct (throws s); reflexivity.
Qed.

Lemma afterTurns_id (now : Z) (selected : list Customer.t) :
  forall r, Customer.id (afterTurns provider throws now selected r) = Customer.id r.
Proof.
  induction selected as [|s rest IH]; intros r; simpl; [reflexivity|].
  rewrite IH. apply afterTurn_id.
Qed.

(** A turn never makes a row pending. *)
Lemma afterTurn_settled (now : Z) (s r : Customer.t) :
  is_pending r = false -> is_pending (afterTurn provider throws now s r) = false.
Proof.
  unfold afterTurn. destruct (Customer.id r =? Customer.id s); [|tauto].
  destruct (throws s); reflexivity.
Qed.

Lemma afterTurn_hit (now : Z) (s r : Customer.t) :
  (Customer.id r =? Customer.id s) = true ->
  is_pending (afterTurn provider throws now s r) = false.
Proof.
  unfold afterTurn. intros ->. destruct (throws s); reflexivity.
Qed.

Lemma afterTurn_miss (now : Z) (s r : Customer.t) :
  (Customer.id r =? Customer.id s) = false ->
  afterTurn provider throws now s r = r.
Proof. unfold afterTurn. intros ->. reflexivity. Qed.

Lemma afterTurns_settled (now : Z) (selected : list Customer.t) :
  forall r, is_pending r = false ->
            is_pending (afterTurns provider throws now selected r) = false.
Proof.
  induction selected as [|s rest IH]; intros r H; simpl; [exact H|].
  apply IH, afterTurn_settled, H.
Qed.

(** The row of a selected customer is not pending after the round. *)
Lemma afterTurns_hit (now : Z) (selected : list Customer.t) :
  forall r, selects selected r = true ->
            is_pending (afterTurns provider throws now selected r) = false.
Proof.
  induction selected as [|s rest IH]; intros r H; simpl in *; [discriminate|].
  destruct (Customer.id r =? Customer.id s) eqn:E.
  - apply afterTurns_settled, afterTurn_hit, E.
  - rewrite (afterTurn_miss _ _ _ E). apply IH, H.
Qed.

(** The other rows stay as they are. *)
Lemma afterTurns_miss (now : Z) (selected : list Customer.t) :
  forall r, selects selected r = false ->
            afterTurns provider throws now selected r = r.
Proof.
  induction selected as [|s rest IH]; intros r H; simpl in *; [reflexivity|].
  apply orb_false_iff in H. destruct H as [E H].
  rewrite (afterTurn_miss _ _ _ E). apply IH, H.
Qed.

Lemma filter_both {A : Type} (p q : A -> bool) (l : list A) :
  filter (fun x => p x && q x) l = filter q (filter p l).
Proof.
  induction l as [|x rest IH]; simpl; [reflexivity|].
  destruct (p x); simpl; [destruct (q x); rewrite IH; reflexivity | exact IH].
Qed.

(** The customers pending after a round are the ones that were pending and
    not selected. *)
Lemma pending_after (now : Z) (selected rows : list Customer.t) :
  filter is_pending (map (afterTurns provider throws now selected) rows)
  = filter (fun r => negb (selects selected r)) (filter is_pending rows).
Proof.
  rewrite <- filter_both.
  induction rows as [|r rest IH]; simpl; [reflexivity|].
  destruct (selects selected r) eqn:E.
  - rewrite (afterTurns_hit _ _ _ E), andb_false_r. exact IH.
  - rewrite (afterTurns_miss _ _ _ E), andb_true_r.
    destruct (is_pending r); [rewrite IH|]; auto.
Qed.

Lemma selects_self (selected : list Customer.t) (s : Customer.t) :
  In s selected -> selects selected s = true.
Proof.
  intros Hin. apply existsb_exists. exists s. split; [exact Hin | apply Z.eqb_refl].
Qed.

Lemma filter_nothing {A : Type} (p : A -> bool) (l : list A) :
  (forall x, In x l -> p x = false) -> filter p l = [].
Proof.
  induction l as [|x rest IH]; simpl; intros H; [reflexivity|].
  rewrite (H x (or_introl eq_refl)). apply IH. intros y Hy. apply H. right. exact Hy.
Qed.

Lemma filter_everything {A : Type} (p : A -> bool) (l : list A) :
  (forall x, In x l -> p x = true) -> filter p l = l.
Proof.
  induction l as [|x rest IH]; simpl; intros H; [reflexivity|].
  rewrite (H x (or_introl eq_refl)). f_equal. apply IH.
  intros y Hy. apply H. right. exact Hy.
Qed.

(** A round takes at least the customers it selected from the pending
    ones. *)
Lemma pending_after_round (batchSize : nat) (now : Z) (db : Db.t) :
  (List.length
     (pendingCustomers (snd (enrichPendingCustomers batchSize provider throws now db)))
   + List.length (firstn batchSize (pendingCustomers db))
   <= List.length (pendingCustomers db))%nat.
Proof.
  rewrite enrichPendingCustomers_rows. unfold pendingCustomers at 1.
  cbn [snd Db.customers]. rewrite pending_after.
  fold (pendingCustomers db).
  set (pendings := pendingCustomers db).
  set (unselected := fun r => negb (selects (firstn batchSize pendings) r)).
  assert (Hparts : filter unselected pendings
                   = filter unselected (skipn batchSize pendings)).
  { transitivity (filter unselected
                    (firstn batchSize pendings ++ skipn batchSize pendings)).
    - rewrite firstn_skipn. reflexivity.
    - rewrite filter_app, filter_nothing; [reflexivity|].
      intros s Hs. unfold unselected. rewrite (selects_self _ _ Hs). reflexivity. }
  rewrite Hparts.
  pose proof (filter_length_le unselected (skipn batchSize pendings)) as Hle.
  pose proof (f_equal (@List.length _) (firstn_skipn batchSize pendings)) as Hlen.
  rewrite length_app in Hlen. lia.
Qed.

Lemma enrichedOf_bounds (selected : list Customer.t) :
  0 <= enrichedOf throws selected <= Z.of_nat (List.length selected).
Proof.
  unfold enrichedOf.
  pose proof (filter_length_le (fun s => negb (throws s)) selected). lia.
Qed.

Lemma same_key_same_row {A B : Type} (f : A -> B) (l : list A) (x y : A) :
  NoDup (map f l) -> In x l -> In y l -> f x = f y -> x = y.
Proof.
  induction l as [|a rest IH]; simpl; intros Hn Hx Hy E; [contradiction|].
  inversion Hn as [|? ? Hnotin Hn']; subst.
  destruct Hx as [->|Hx], Hy as [->|Hy].
  - reflexivity.
  - exfalso. apply Hnotin. rewrite E. apply in_map, Hy.
  - exfalso. apply Hnotin. rewrite <- E. apply in_map, Hx.
  - apply IH; assumption.
Qed.

Lemma in_firstn {A : Type} (n : nat) (l : list A) (x : A) :
  In x (firstn n l) -> In x l.
Proof.
  intros H. rewrite <- (firstn_skipn n l). apply in_or_app. left. exact H.
Qed.

(** With ids that tell the rows apart, the selected customer that has the
    id of a stored row is that row, which was pending. *)
Lemma selected_row (batchSize : nat) (db : Db.t) (r : Customer.t) :
  unique_ids db -> In r (Db.customers db) ->
  selects (firstn batchSize (pendingCustomers db)) r = true ->
  In r (firstn batchSize (pendingCustomers db)) /\ is_pending r = true.
Proof.
  intros Hu Hr Hsel. apply existsb_exists in Hsel.
  destruct Hsel as (s & Hs & Eid). apply Z.eqb_eq in Eid.
  pose proof (in_firstn _ _ _ Hs) as Hp. unfold pendingCustomers in Hp.
  apply filter_In in Hp. destruct Hp as [Hstored Hpending].
  rewrite (same_key_same_row Customer.id _ r s Hu Hr Hstored Eid).
  split; assumption.
Qed.

(** X14. One call of [enrichPendingCustomers] returns a number between 0
    and the batch size that is at most the number of pending customers,
    and takes at least that many customers out of the pending ones. It
    leaves every row that is complete or failed as it is: a customer whose
    enrichment failed is not tried again. A row that is pending afterwards
    is one that the call has not written. *)
Theorem enrichPendingCustomers_round (batchSize : nat) (now : Z) (db : Db.t) :
  unique_ids db ->
  let result := enrichPendingCustomers batchSize provider throws now db in
  0 <= fst result <= Z.of_nat batchSize
  /\ Z.of_nat (List.length (pendingCustomers (snd result))) + fst result
     <= Z.of_nat (List.length (pendingCustomers db))
  /\ Forall2
       (fun r r' =>
          Customer.id r' = Customer.id r
          /\ (is_pending r = false -> r' = r)
          /\ (is_pending r' = true -> r' = r))
       (Db.customers db) (Db.customers (snd result)).
Proof.
  intros Hu result.
  pose proof (pending_after_round batchSize now db) as Hless.
  pose proof (enrichedOf_bounds (firstn batchSize (pendingCustomers db))) as Hb.
  pose proof (length_firstn batchSize (pendingCustomers db)) as Hfirst.
  unfold result. rewrite enrichPendingCustomers_rows in *. cbn [fst snd] in *.
  split; [lia|]. split; [lia|]. cbn [Db.customers].
  assert (Hall : forall r, In r (Db.customers db) ->
            Customer.id (afterTurns provider throws now
                           (firstn batchSize (pendingCustomers db)) r)
            = Customer.id r
            /\ (is_pending r = false ->
                afterTurns provider throws now
                  (firstn batchSize (pendingCustomers db)) r = r)
            /\ (is_pending (afterTurns provider throws now
                              (firstn batchSize (pendingCustomers db)) r) = true ->
                afterTurns provider throws now
                  (firstn batchSize (pendingCustomers db)) r = r)).
  { intros r Hr. split; [apply afterTurns_id|].
    destruct (selects (firstn batchSize (pendingCustomers db)) r) eqn:E.
    - destruct (selected_row batchSize db r Hu Hr E) as [_ Hp].
      rewrite (afterTurns_hit _ _ _ E). split; intros H; congruence.
    - rewrite (afterTurns_miss _ _ _ E). tauto. }
  revert Hall. generalize (Db.customers db) as rows.
  induction rows as [|r rest IH]; intros Hall; simpl; constructor.
  - apply Hall. left. reflexivity.
  - apply IH. intros r' Hr'. apply Hall. right. exact Hr'.
Qed.

(** *** The loop ends *)

Variable clock : nat -> Z.

Lemma enrichLoop_ends (batchSize : nat) :
  forall (rounds : nat) (round : nat) (total : Z) (db : Db.t),
    (List.length (pendingCustomers db) < rounds)%nat ->
    exists total' db',
      enrichLoop rounds batchSize provider throws clock round total db
      = Some (total', db')
      /\ total <= total' <= total + Z.of_nat (List.length (pendingCustomers db)).
Proof.
  induction rounds as [|more IH]; intros round total db Hfuel; [lia|].
  cbn [enrichLoop].
  pose proof (pending_after_round batchSize (clock round) db) as Hless.
  pose proof (enrichedOf_bounds (firstn batchSize (pendingCustomers db))) as Hb.
  rewrite enrichPendingCustomers_rows in *. cbn [snd] in Hless.
  set (enriched := enrichedOf throws (firstn batchSize (pendingCustomers db))) in *.
  set (db1 := Db.mk _ _ _ _) in *.
  destruct (Z.ltb_spec 0 enriched) as [Hpos|Hzero].
  - destruct (IH (S round) (total + enriched) db1) as (total' & db' & Hrun & Hbound);
      [lia|].
    exists total', db'. split; [exact Hrun | lia].
  - exists (total + enriched), db1. split; [reflexivity | lia].
Qed.

(** X15. [enrichAllPendingCustomers] ends: whatever the batch size, the
    replies of the provider and the statements that throw, a number of
    rounds above the number of pending customers is enough for it to
    return, and what it returns is at most the number of customers that
    were pending. [runEnrichmentLoop] ends within as many rounds. *)
Theorem enrichAllPendingCustomers_ends (rounds batchSize : nat) (db : Db.t) :
  (List.length (pendingCustomers db) < rounds)%nat ->
  (exists total db',
      enrichAllPendingCustomers rounds batchSize provider throws clock db
      = Some (total, db')
      /\ 0 <= total <= Z.of_nat (List.length (pendingCustomers db)))
  /\ (exists db', runEnrichmentLoop rounds provider throws clock db = Some db').
Proof.
  intros Hfuel. split.
  - unfold enrichAllPendingCustomers.
    destruct (enrichLoop_ends batchSize rounds 0%nat 0 db Hfuel)
      as (total & db' & Hrun & Hbound).
    exists total, db'. split; [exact Hrun | lia].
  - unfold runEnrichmentLoop.
    destruct (enrichLoop_ends 10 rounds 0%nat 0 db Hfuel)
      as (total & db' & Hrun & _).
    exists db'. rewrite Hrun. reflexivity.
Qed.

(** *** With no failure every pending customer is enriched *)

Hypothesis never_throws : forall customer, throws customer = false.

Lemma enrichedOf_all (selected : list Customer.t) :
  enrichedOf throws selected = Z.of_nat (List.length selected).
Proof.
  unfold enrichedOf. rewrite filter_everything; [reflexivity|].
  intros s _. rewrite never_throws. reflexivity.
Qed.

(** The pending customers of a store whose ids tell the rows apart have
    ids that tell them apart. *)
Lemma unique_pending (db : Db.t) :
  unique_ids db -> NoDup (map Customer.id (pendingCustomers db)).
Proof.
  unfold unique_ids, pendingCustomers.
  induction (Db.customers db) as [|r rest IH]; simpl; intros Hu; [constructor|].
  inversion Hu as [|? ? Hfresh Hrest]; subst.
  destruct (is_pending r); simpl; [|apply IH, Hrest].
  constructor; [|apply IH, Hrest].
  intros Hin. apply Hfresh. apply in_map_iff in Hin.
  destruct Hin as (x & Ex & Hx). apply filter_In in Hx.
  apply in_map_iff. exists x. tauto.
Qed.

Lemma disjoint_parts {A : Type} (l1 l2 : list A) (a : A) :
  NoDup (l1 ++ l2) -> In a l1 -> In a l2 -> False.
Proof.
  induction l1 as [|x rest IH]; simpl; intros Hn H1 H2; [contradiction|].
  inversion Hn as [|? ? Hnotin Hn']; subst.
  destruct H1 as [->|H1]; [|exact (IH Hn' H1 H2)].
  apply Hnotin, in_or_app. right. exact H2.
Qed.

(** With ids that tell the rows apart, a round leaves pending the customers
    after the ones it selected. *)
Lemma unselected (batchSize : nat) (pendings : list Customer.t) :
  NoDup (map Customer.id pendings) ->
  filter (fun r => negb (selects (firstn batchSize pendings) r)) pendings
  = skipn batchSize pendings.
Proof.
  intros Hn.
  set (q := fun r => negb (selects (firstn batchSize pendings) r)).
  transitivity (filter q (firstn batchSize pendings ++ skipn batchSize pendings));
    [rewrite firstn_skipn; reflexivity|].
  unfold q.
  rewrite filter_app, filter_nothing, filter_everything; [reflexivity| |].
  - intros t Ht. apply negb_true_iff.
    destruct (selects (firstn batchSize pendings) t) eqn:E; [|reflexivity].
    exfalso. apply existsb_exists in E. destruct E as (s & Hs & Eid).
    apply Z.eqb_eq in Eid.
    rewrite <- (firstn_skipn batchSize pendings), map_app in Hn.
    apply (disjoint_parts _ _ (Customer.id t) Hn).
    + rewrite Eid. apply in_map, Hs.
    + apply in_map, Ht.
  - intros s Hs. rewrite (selects_self _ _ Hs). reflexivity.
Qed.

Lemma afterTurn_twice (now : Z) (s r : Customer.t) :
  afterTurn provider throws now s (afterTurn provider throws now s r)
  = afterTurn provider throws now s r.
Proof.
  unfold afterTurn. destruct (Customer.id r =? Customer.id s) eqn:E.
  - rewrite never_throws. simpl. rewrite E. reflexivity.
  - rewrite E. reflexivity.
Qed.

(** The turns for a row whose id only the row itself has among the
    selected customers come down to its own turn. *)
Lemma afterTurns_own (now : Z) (selected : list Customer.t) (r : Customer.t) :
  (forall s, In s selected -> Customer.id s = Customer.id r -> s = r) ->
  afterTurns provider throws now selected (afterTurn provider throws now r r)
  = afterTurn provider throws now r r.
Proof.
  induction selected as [|s rest IH]; intros Hown; simpl; [reflexivity|].
  destruct (Customer.id (afterTurn provider throws now r r) =? Customer.id s) eqn:E.
  - rewrite afterTurn_id in E. apply Z.eqb_eq in E.
    rewrite (Hown s (or_introl eq_refl) (eq_sym E)), afterTurn_twice.
    apply IH. intros s' Hs'. apply Hown. right. exact Hs'.
  - rewrite (afterTurn_miss _ _ _ E).
    apply IH. intros s' Hs'. apply Hown. right. exact Hs'.
Qed.

Lemma afterTurns_selected (now : Z) (selected : list Customer.t) (r : Customer.t) :
  (forall s, In s selected -> Customer.id s = Customer.id r -> s = r) ->
  selects selected r = true ->
  afterTurns provider throws now selected r = completedRow provider now r.
Proof.
  induction selected as [|s rest IH]; intros Hown Hsel; simpl in *; [discriminate|].
  assert (Hrest : forall s', In s' rest -> Customer.id s' = Customer.id r -> s' = r).
  { intros s' Hs'. apply Hown. right. exact Hs'. }
  destruct (Customer.id r =? Customer.id s) eqn:E.
  - apply Z.eqb_eq in E. rewrite (Hown s (or_introl eq_refl) (eq_sym E)).
    rewrite (afterTurns_own now rest r Hrest).
    unfold afterTurn, completedRow. rewrite Z.eqb_refl, never_throws. reflexivity.
  - rewrite (afterTurn_miss _ _ _ E). apply IH; assumption.
Qed.

(** What a round makes of each row. *)
Lemma round_relation (batchSize : nat) (now : Z) (db : Db.t) (r : Customer.t) :
  unique_ids db -> In r (Db.customers db) ->
  let selected := firstn batchSize (pendingCustomers db) in
  (is_pending r = true
   /\ afterTurns provider throws now selected r = completedRow provider now r)
  \/ afterTurns provider throws now selected r = r.
Proof.
  intros Hu Hr selected.
  destruct (selects selected r) eqn:E; [|right; apply afterTurns_miss, E].
  left.
  assert (Hin : forall s, In s selected -> In s (Db.customers db) /\ is_pending s = true).
  { intros s Hs. unfold selected in Hs. apply in_firstn in Hs.
    unfold pendingCustomers in Hs. apply filter_In in Hs. exact Hs. }
  assert (Hown : forall s, In s selected -> Customer.id s = Customer.id r -> s = r).
  { intros s Hs Eid.
    exact (same_key_same_row Customer.id _ s r Hu (proj1 (Hin s Hs)) Hr Eid). }
  split; [|apply afterTurns_selected; assumption].
  apply existsb_exists in E. destruct E as (s & Hs & Eid).
  apply Z.eqb_eq in Eid. rewrite <- (Hown s Hs (eq_sym Eid)).
  exact (proj2 (Hin s Hs)).
Qed.

Lemma enrichedFrom_step (now : Z) (r r1 r' : Customer.t) :
  (is_pending r = true /\ r1 = completedRow provider now r) \/ r1 = r ->
  enrichedFrom provider r1 r' -> enrichedFrom provider r r'.
Proof.
  intros [[Hp ->]| ->]; [|tauto].
  unfold enrichedFrom. rewrite Hp. simpl. intros ->. exists now. reflexivity.
Qed.

Lemma enrichLoop_completes (batchSize : nat) :
  batchSize <> 0%nat ->
  forall (rounds : nat) (round : nat) (total : Z) (db : Db.t),
    unique_ids db ->
    (List.length (pendingCustomers db) < rounds)%nat ->
    exists db',
      enrichLoop rounds batchSize provider throws clock round total db
      = Some (total + Z.of_nat (List.length (pendingCustomers db)), db')
      /\ pendingCustomers db' = []
      /\ Forall2 (enrichedFrom provider) (Db.customers db) (Db.customers db').
Proof.
  intros Hbatch.
  induction rounds as [|more IH]; intros round total db Hu Hfuel; [lia|].
  cbn [enrichLoop]. rewrite enrichPendingCustomers_rows, enrichedOf_all.
  set (selected := firstn batchSize (pendingCustomers db)).
  set (db1 := Db.mk _ _ _ _).
  assert (Hpending1 : pendingCustomers db1 = skipn batchSize (pendingCustomers db)).
  { unfold pendingCustomers at 1, db1. cbn [Db.customers].
    rewrite pending_after. apply unselected.
    apply unique_pending. exact Hu. }
  assert (Hrel : Forall2
                   (fun r r1 =>
                      (is_pending r = true
                       /\ r1 = completedRow provider (clock round) r)
                      \/ r1 = r)
                   (Db.customers db) (Db.customers db1)).
  { unfold db1. cbn [Db.customers].
    assert (Hall : forall r, In r (Db.customers db) ->
              (is_pending r = true
               /\ afterTurns provider throws (clock round) selected r
                  = completedRow provider (clock round) r)
              \/ afterTurns provider throws (clock round) selected r = r).
    { intros r Hr. exact (round_relation batchSize (clock round) db r Hu Hr). }
    revert Hall. generalize (Db.customers db) as rows.
    induction rows as [|r rest IHrows]; intros Hall; simpl; constructor.
    - apply Hall. left. reflexivity.
    - apply IHrows. intros r' Hr'. apply Hall. right. exact Hr'. }
  assert (Hlen : (List.length selected + List.length (skipn batchSize (pendingCustomers db))
                  = List.length (pendingCustomers db))%nat).
  { unfold selected. rewrite <- length_app, firstn_skipn. reflexivity. }
  destruct (Z.ltb_spec 0 (Z.of_nat (List.length selected))) as [Hpos|Hzero].
  - assert (Hu1 : unique_ids db1).
    { unfold unique_ids, db1. cbn [Db.customers]. rewrite map_map.
      rewrite (map_ext _ Customer.id); [exact Hu|].
      intros r. apply afterTurns_id. }
    destruct (IH (S round) (total + Z.of_nat (List.length selected)) db1 Hu1)
      as (db' & Hrun & Hnone & Hrows).
    { rewrite Hpending1. lia. }
    exists db'. split; [|split; [exact Hnone|]].
    + rewrite Hrun, Hpending1. f_equal. f_equal. lia.
    + clear - Hrel Hrows.
      revert Hrows. generalize (Db.customers db') as rows'.
      induction Hrel as [|r r1 rows rows1 Hr Hrest IHrel]; intros rows' Hrows;
        inversion Hrows; subst; constructor.
      * eapply enrichedFrom_step; eassumption.
      * apply IHrel. assumption.
  - assert (Hnil : pendingCustomers db = []).
    { clear - Hzero Hbatch. unfold selected in Hzero.
      destruct (pendingCustomers db) as [|p rest]; [reflexivity|].
      exfalso. destruct batchSize; [congruence|]. simpl in Hzero. lia. }
    exists db1. split; [|split].
    + f_equal. f_equal. rewrite Hnil. unfold selected. rewrite Hnil.
      destruct batchSize; reflexivity.
    + rewrite Hpending1, Hnil. destruct batchSize; reflexivity.
    + clear - Hrel Hnil.
      assert (Hnone : forall r, In r (Db.customers db) -> is_pending r = false).
      { intros r Hr. destruct (is_pending r) eqn:E; [|reflexivity].
        exfalso. assert (Hin : In r (pendingCustomers db)).
        { apply filter_In. split; assumption. }
        rewrite Hnil in Hin. exact Hin. }
      revert Hnone.
      induction Hrel as [|r r1 rows rows1 Hr Hrest IHrel]; intros Hnone; constructor.
      * unfold enrichedFrom. rewrite (Hnone r (or_introl eq_refl)).
        destruct Hr as [[Hp _]|E]; [|exact E].
        rewrite (Hnone r (or_introl eq_refl)) in Hp. discriminate.
      * apply IHrel. intros r' Hr'. apply Hnone. right. exact Hr'.
Qed.

(** X16. When no statement throws and the batch size is not 0,
    [enrichAllPendingCustomers] returns the number of customers that were
    pending, within a number of rounds above that number; no customer is
    pending afterwards, every row that was pending holds the result of the
    inference for it with the status complete, and every other row is as it
    was. *)
Theorem enrichAllPendingCustomers_completes (rounds batchSize : nat) (db : Db.t) :
  batchSize <> 0%nat ->
  unique_ids db ->
  (List.length (pendingCustomers db) < rounds)%nat ->
  exists db',
    enrichAllPendingCustomers rounds batchSize provider throws clock db
    = Some (Z.of_nat (List.length (pendingCustomers db)), db')
    /\ pendingCustomers db' = []
    /\ Forall2 (enrichedFrom provider) (Db.customers db) (Db.customers db').
Proof.
  intros Hbatch Hu Hfuel. unfold enrichAllPendingCustomers.
  exact (enrichLoop_completes batchSize Hbatch rounds 0%nat 0 db Hu Hfuel).
Qed.

Lemma reset_rows (now : Z) (db : Db.t) :
  Db.customers (snd (resetAllEnrichments now db))
  = map (setEnrichment None None pending now) (Db.customers db).
Proof. reflexivity. Qed.

(** X17. After [resetAllEnrichments], which returns the number of stored
    customers and leaves every one of them pending without a gender,
    [enrichAllPendingCustomers] enriches them all again when no statement
    throws: it returns that same number, and every customer is complete
    afterwards, with its id and its email as before the reset. *)
Theorem reset_then_enrich_all (rounds batchSize : nat) (now : Z) (db : Db.t) :
  batchSize <> 0%nat ->
  unique_ids db ->
  (List.length (Db.customers db) < rounds)%nat ->
  fst (resetAllEnrichments now db) = Z.of_nat (List.length (Db.customers db))
  /\ Forall
       (fun r => is_pending r = true /\ Customer.genderInferred r = None
                 /\ Customer.genderConfidence r = None)
       (Db.customers (snd (resetAllEnrichments now db)))
  /\ exists db',
       enrichAllPendingCustomers rounds batchSize provider throws clock
         (snd (resetAllEnrichments now db))
       = Some (fst (resetAllEnrichments now db), db')
       /\ Forall2
            (fun r r' =>
               Customer.enrichmentStatus r' = complete
               /\ Customer.id r' = Customer.id r
               /\ Customer.email r' = Customer.email r)
            (Db.customers db) (Db.customers db').
Proof.
  intros Hbatch Hu Hfuel.
  assert (Hall : pendingCustomers (snd (resetAllEnrichments now db))
                 = Db.customers (snd (resetAllEnrichments now db))).
  { unfold pendingCustomers. rewrite reset_rows.
    apply filter_everything. intros r Hr. apply in_map_iff in Hr.
    destruct Hr as (r0 & <- & _). reflexivity. }
  assert (Hlen : List.length (Db.customers (snd (resetAllEnrichments now db)))
                 = List.length (Db.customers db)).
  { rewrite reset_rows. apply length_map. }
  split; [reflexivity|]. split.
  - rewrite reset_rows. apply Forall_map. apply Forall_forall. intros r _.
    repeat split.
  - assert (Hu' : unique_ids (snd (resetAllEnrichments now db))).
    { unfold unique_ids. rewrite reset_rows, map_map. exact Hu. }
    destruct (enrichLoop_completes batchSize Hbatch rounds 0%nat 0
                (snd (resetAllEnrichments now db)) Hu')
      as (db' & Hrun & _ & Hrows).
    { rewrite Hall, Hlen. exact Hfuel. }
    exists db'. split.
    + unfold enrichAllPendingCustomers. rewrite Hrun, Hall, Hlen. reflexivity.
    + rewrite reset_rows in Hrows. clear - Hrows.
      revert Hrows. generalize (Db.customers db') as rows'.
      induction (Db.customers db) as [|r rest IH]; intros rows' Hrows;
        inversion Hrows as [|? r' ? rest' Hr Hrest]; subst; constructor.
      * unfold enrichedFrom in Hr. simpl in Hr. destruct Hr as [at_ ->].
        repeat split.
      * apply IH. exact Hrest.
Qed.

End EnrichAllFacts.

(** One call with a batch of one on the store of one enriched and two
    pending customers. *)
Lemma enrichPendingCustomers_round_witness :
  Notions.unique_ids Notions.pendingDb
  /\ 0 <= fst (Enrichment.enrichPendingCustomers (rt := Notions.plainRuntime)
         (database := Notions.plainDatabase) 1
                 (fun _ => Enrichment.Rejected) (fun _ => false) 70
                 Notions.pendingDb)
       <= Z.of_nat 1.
Proof.
  assert (Hu : Notions.unique_ids Notions.pendingDb).
  { unfold Notions.unique_ids. simpl.
    repeat constructor; simpl; intuition discriminate. }
  split; [exact Hu|].
  exact (proj1 (enrichPendingCustomers_round (rt := Notions.plainRuntime)
         (database := Notions.plainDatabase)
                  (fun _ => Enrichment.Rejected) (fun _ => false) 1 70
                  Notions.pendingDb Hu)).
Defined.

(** Two pending customers, batches of one, a provider that is down and a
    second statement that throws: three rounds are enough. *)
Lemma enrichAllPendingCustomers_ends_witness :
  (List.length (Notions.pendingCustomers Notions.pendingDb) < 3)%nat
  /\ exists total db',
       Enrichment.enrichAllPendingCustomers (rt := Notions.plainRuntime)
         (database := Notions.plainDatabase) 3 1
         (fun _ => Enrichment.Rejected) (fun r => Customer.id r =? 3)
         (fun round => Z.of_nat round) Notions.pendingDb
       = Some (total, db')
       /\ 0 <= total <= 2.
Proof.
  assert (Hfuel : (List.length (Notions.pendingCustomers Notions.pendingDb) < 3)%nat).
  { simpl. lia. }
  split; [exact Hfuel|].
  exact (proj1 (enrichAllPendingCustomers_ends (rt := Notions.plainRuntime)
         (database := Notions.plainDatabase)
                  (fun _ => Enrichment.Rejected) (fun r => Customer.id r =? 3)
                  (fun round => Z.of_nat round) 3 1 Notions.pendingDb Hfuel)).
Defined.

(** The same store reset at instant 90 and enriched in batches of two: all
    three customers are enriched again. *)
Lemma reset_then_enrich_all_witness :
  Notions.unique_ids Notions.pendingDb
  /\ exists db',
       Enrichment.enrichAllPendingCustomers (rt := Notions.plainRuntime)
         (database := Notions.plainDatabase) 4 2
         (fun _ => Enrichment.Rejected) (fun _ => false)
         (fun round => Z.of_nat round)
         (snd (DatabaseStorage.resetAllEnrichments 90 Notions.pendingDb))
       = Some (3, db').
Proof.
  assert (Hu : Notions.unique_ids Notions.pendingDb).
  { unfold Notions.unique_ids. simpl.
    repeat constructor; simpl; intuition discriminate. }
  split; [exact Hu|].
  destruct (reset_then_enrich_all (rt := Notions.plainRuntime)
         (database := Notions.plainDatabase)
              (fun _ => Enrichment.Rejected) (fun _ => false)
              (fun round => Z.of_nat round) (fun _ => eq_refl) 4 2 90
              Notions.pendingDb (fun E => O_S 1 (eq_sym E)) Hu (le_n 4))
    as (_ & _ & db' & Hrun & _).
  exists db'. exact Hrun.
Defined.

(** The same store with batches of one and no failure: both pending
    customers are enriched. *)
Lemma enrichAllPendingCustomers_completes_witness :
  Notions.unique_ids Notions.pendingDb
  /\ exists db',
       Enrichment.enrichAllPendingCustomers (rt := Notions.plainRuntime)
         (database := Notions.plainDatabase) 3 1
         (fun _ => Enrichment.Rejected) (fun _ => false)
         (fun round => Z.of_nat round) Notions.pendingDb
       = Some (2, db')
       /\ Notions.pendingCustomers db' = [].
Proof.
  assert (Hu : Notions.unique_ids Notions.pendingDb).
  { unfold Notions.unique_ids. simpl.
    repeat constructor; simpl; intuition discriminate. }
  split; [exact Hu|].
  destruct (enrichAllPendingCustomers_completes (rt := Notions.plainRuntime)
         (database := Notions.plainDatabase)
              (fun _ => Enrichment.Rejected) (fun _ => false)
              (fun round => Z.of_nat round) (fun _ => eq_refl) 3 1
              Notions.pendingDb (fun E => O_S 0 (eq_sym E)) Hu
              (le_n 3))
    as (db' & Hrun & Hnone & _).
  exists db'. split; [exact Hrun | exact Hnone].
Defined.

(** ** Writing and reading back customers *)

Section UpsertLookup.

Import DatabaseStorage Notions.

Context {database : Database}.


Lemma upsertCustomer_still_stored (customer : InsertCustomer.t) (now : Z)
    (db : Db.t) (shopifyId : Z) :
  getCustomerByShopifyId shopifyId db <> None ->
  getCustomerByShopifyId shopifyId (snd (upsertCustomer customer now db)) <> None.
Proof.
  intros Hstored.
  destruct (Z.eq_dec shopifyId (InsertCustomer.shopifyCustomerId customer))
    as [->|Hne].
  - rewrite upsertCustomer_get_same. discriminate.
  - rewrite upsertCustomer_get_other by exact Hne. exact Hstored.
Qed.

Variable fails : InsertCustomer.t -> bool.
Variable clock : InsertCustomer.t -> Z.

(** The loop of [upsertCustomers] from a count and a store on. *)
Lemma upsertCustomers_from (customerList : list InsertCustomer.t) :
  forall (processed : Z) (db : Db.t),
    let result :=
      fold_left
        (fun (acc : Z * Db.t) customer =>
           let '(processed, db) := acc in
           if fails customer then (processed, db)
           else (processed + 1, snd (upsertCustomer customer (clock customer) db)))
        customerList (processed, db) in
    fst result
    = processed
      + Z.of_nat (List.length (filter (fun c => negb (fails c)) customerList))
    /\ (unique_keys db -> unique_keys (snd result))
    /\ (forall shopifyId,
          getCustomerByShopifyId shopifyId db <> None ->
          getCustomerByShopifyId shopifyId (snd result) <> None)
    /\ (forall customer,
          In customer customerList -> fails customer = false ->
          getCustomerByShopifyId (InsertCustomer.shopifyCustomerId customer)
            (snd result) <> None)
    /\ Db.syncLogs (snd result) = Db.syncLogs db.
Proof.
  induction customerList as [|c rest IH]; intros processed db; cbn [fold_left].
  - simpl. repeat split; try tauto. lia.
  - destruct (fails c) eqn:Ec; cbn [filter negb].
    + rewrite Ec. cbn [negb].
      destruct (IH processed db) as (Hn & Hu & Hkept & Hstored & Hlogs).
      repeat split; try assumption.
      intros customer [<-|Hin] Hok; [congruence|]. apply Hstored; assumption.
    + rewrite Ec. cbn [negb List.length].
      destruct (IH (processed + 1)
                  (snd (upsertCustomer c (clock c) db)))
        as (Hn & Hu & Hkept & Hstored & Hlogs).
      repeat split.
      * rewrite Hn. lia.
      * intros Hdb. apply Hu, upsertCustomer_unique, Hdb.
      * intros shopifyId Hs. apply Hkept, upsertCustomer_still_stored, Hs.
      * intros customer [<-|Hin] Hok; [|apply Hstored; assumption].
        apply Hkept. rewrite upsertCustomer_get_same. discriminate.
      * rewrite Hlogs. apply upsertCustomer_logs.
Qed.

(** X19. [upsertCustomers] returns the number of customers of the list whose
    statement did not throw, 0 for the empty list; every such customer is
    stored afterwards, and so is every customer that was stored before; no
    two rows share an external id afterwards if none did before. *)
Theorem upsertCustomers_stores (customerList : list InsertCustomer.t) (db : Db.t) :
  fst (upsertCustomers fails clock customerList db)
  = Z.of_nat (List.length (filter (fun c => negb (fails c)) customerList))
  /\ (unique_keys db ->
      unique_keys (snd (upsertCustomers fails clock customerList db)))
  /\ (forall shopifyId,
        getCustomerByShopifyId shopifyId db <> None ->
        getCustomerByShopifyId shopifyId
          (snd (upsertCustomers fails clock customerList db)) <> None)
  /\ (forall customer,
        In customer customerList -> fails customer = false ->
        getCustomerByShopifyId (InsertCustomer.shopifyCustomerId customer)
          (snd (upsertCustomers fails clock customerList db)) <> None).
Proof.
  destruct (upsertCustomers_from customerList 0 db)
    as (Hn & Hu & Hkept & Hstored & _).
  unfold upsertCustomers. repeat split; assumption.
Qed.

End UpsertLookup.

(** ** The signature of a webhook *)

Section WebhookSignature.

Import ShopifyClient Routes.

Context {rt : Js.Runtime} {database : DatabaseStorage.Database}
  {crypto : Crypto}.

(** [verifyWebhookSignature] returns true exactly when a secret is
    configured and the signature is the digest of the body under it. *)
Lemma verify_true (secret : option string) (body signature : string) :
  verifyWebhookSignature secret body signature = Verdict true
  <-> exists key,
        secret = Some key /\ key <> EmptyString
        /\ signature = hmacSha256Base64 key body.
Proof.
  unfold verifyWebhookSignature. split.
  - destruct secret as [key|]; [|discriminate].
    destruct (String.eqb_spec key "") as [|Hkey]; [discriminate|].
    destruct (Nat.eqb _ _); [|discriminate].
    destruct (String.eqb_spec (hmacSha256Base64 key body) signature) as [E|];
      [|discriminate].
    intros _. exists key. repeat split; [exact Hkey | symmetry; exact E].
  - intros (key & -> & Hkey & ->).
    destruct (String.eqb_spec key "") as [|_]; [contradiction|].
    rewrite Nat.eqb_refl, String.eqb_refl. reflexivity.
Qed.

Lemma signatureCheck_true (secret signature : option string) (rawBody : string) :
  signatureCheck secret signature rawBody = Some true ->
  exists key,
    secret = Some key /\ key <> EmptyString
    /\ signature = Some (hmacSha256Base64 key rawBody).
Proof.
  unfold signatureCheck. destruct signature as [given|]; [|discriminate].
  destruct (String.eqb given ""); [discriminate|].
  destruct (verifyWebhookSignature secret rawBody given) as [accepted|] eqn:E;
    [|discriminate].
  intros H. injection H as ->. apply verify_true in E.
  destruct E as (key & Hs & Hkey & ->). exists key. tauto.
Qed.

(** X20. A customer webhook whose signature header is not the digest of its
    body under the configured secret writes nothing and is not answered
    with 200, whether it asks for a creation or for an update. *)
Theorem webhook_needs_signature (secret signature : option string)
    (rawBody : string) (customer : WebhookBody.t) (now : Z) (db : Db.t) :
  (forall key, secret = Some key -> key <> EmptyString ->
               signature <> Some (hmacSha256Base64 key rawBody)) ->
  (snd (postCustomersCreate secret signature rawBody customer now db) = db
   /\ fst (postCustomersCreate secret signature rawBody customer now db)
      <> Some 200)
  /\ (snd (postCustomersUpdate secret signature rawBody customer now db) = db
      /\ fst (postCustomersUpdate secret signature rawBody customer now db)
         <> Some 200).
Proof.
  intros Hbad. unfold postCustomersCreate, postCustomersUpdate.
  destruct (signatureCheck secret signature rawBody) as [[|]|] eqn:E.
  - exfalso. apply signatureCheck_true in E.
    destruct E as (key & Hs & Hkey & Hsig). exact (Hbad key Hs Hkey Hsig).
  - simpl. repeat split; discriminate.
  - simpl. repeat split; discriminate.
Qed.

(** X21. A signature header whose number of bytes is not the one of the
    digest makes [verifyWebhookSignature] throw when a secret is
    configured: the handler sends no response of its own, not the 401 of a
    wrong signature, and writes nothing. *)
Theorem webhook_signature_of_other_length (key given rawBody : string)
    (customer : WebhookBody.t) (now : Z) (db : Db.t) :
  key <> EmptyString -> given <> EmptyString ->
  byteLength given <> byteLength (hmacSha256Base64 key rawBody) ->
  verifyWebhookSignature (Some key) rawBody given = RangeError
  /\ postCustomersCreate (Some key) (Some given) rawBody customer now db
     = (None, db)
  /\ postCustomersUpdate (Some key) (Some given) rawBody customer now db
     = (None, db).
Proof.
  intros Hkey Hgiven Hlen.
  assert (Hthrows : verifyWebhookSignature (Some key) rawBody given = RangeError).
  { unfold verifyWebhookSignature.
    destruct (String.eqb_spec key "") as [|_]; [contradiction|].
    destruct (Nat.eqb_spec (byteLength (hmacSha256Base64 key rawBody))
                (byteLength given)) as [E|_]; [|reflexivity].
    exfalso. apply Hlen. symmetry. exact E. }
  split; [exact Hthrows|].
  unfold postCustomersCreate, postCustomersUpdate, signatureCheck.
  destruct (String.eqb_spec given "") as [|_]; [contradiction|].
  rewrite Hthrows. split; reflexivity.
Qed.

End WebhookSignature.

(** A request signed with another secret, its signature as long as the
    digest: it is answered with 401 and the store stays empty. *)
Lemma webhook_needs_signature_witness :
  Routes.postCustomersCreate (rt := Notions.plainRuntime)
    (database := Notions.plainDatabase)
    (crypto := Notions.plainCrypto) (Some "s3cret") (Some "public!body")
    "body" Notions.sampleBody 10 Db.empty
  = (Some 401, Db.empty)
  /\ snd (Routes.postCustomersCreate (rt := Notions.plainRuntime)
    (database := Notions.plainDatabase)
            (crypto := Notions.plainCrypto) (Some "s3cret")
            (Some "public!body") "body" Notions.sampleBody 10 Db.empty)
     = Db.empty
  /\ fst (Routes.postCustomersCreate (rt := Notions.plainRuntime)
    (database := Notions.plainDatabase)
            (crypto := Notions.plainCrypto) (Some "s3cret")
            (Some "public!body") "body" Notions.sampleBody 10 Db.empty)
     <> Some 200.
Proof.
  split; [reflexivity|].
  assert (Hbad : forall key, Some "s3cret" = Some key -> key <> EmptyString ->
                 Some "public!body"
                 <> Some (ShopifyClient.hmacSha256Base64
                            (Crypto := Notions.plainCrypto) key "body")).
  { intros key E _. injection E as <-. discriminate. }
  exact (proj1 (webhook_needs_signature (rt := Notions.plainRuntime)
    (database := Notions.plainDatabase)
                  (crypto := Notions.plainCrypto) (Some "s3cret")
                  (Some "public!body") "body" Notions.sampleBody 10 Db.empty
                  Hbad)).
Defined.

(** A request whose signature is shorter than the digest. *)
Lemma webhook_signature_of_other_length_witness :
  Routes.postCustomersCreate (rt := Notions.plainRuntime)
    (database := Notions.plainDatabase)
    (crypto := Notions.plainCrypto) (Some "s3cret") (Some "short")
    "body" Notions.sampleBody 10 Db.empty
  = (None, Db.empty).
Proof.
  refine (proj1 (proj2 (webhook_signature_of_other_length
                          (rt := Notions.plainRuntime)
    (database := Notions.plainDatabase)
                          (crypto := Notions.plainCrypto) "s3cret" "short" "body"
                          Notions.sampleBody 10 Db.empty _ _ _)));
    simpl; discriminate.
Defined.

(** ** What the sync stores of a customer of the platform *)

Section TransformFacts.

Import DatabaseStorage ShopifyClient Notions.

Context {rt : Js.Runtime} {cfg : SyncJob.Config} {database : Database}.

Lemma string_or_null_not_blank (s : option string) :
  not_blank (string_or_null s).
Proof.
  unfold not_blank, string_or_null. destruct s as [x|]; [|discriminate].
  destruct (String.eqb_spec x "") as [|Hne]; [discriminate|].
  intros E. injection E as ->. apply Hne. reflexivity.
Qed.

Lemma number_or_zero_number (n : Js.number) :
  Js.number_or n Js.zero <> Js.NaN.
Proof.
  unfold Js.number_or. destruct n as [|q| |]; try discriminate.
  destruct (Qeq_bool q 0); discriminate.
Qed.

Lemma transformed_dates (customer : ShopifyCustomer.t)
    (existing : option Customer.t) :
  Js.Date_parse (ShopifyCustomer.created_at customer) = None
  \/ Js.Date_parse (ShopifyCustomer.updated_at customer) = None ->
  SyncJob.insertData (transformCustomer customer) existing = None.
Proof.
  unfold SyncJob.insertData, transformCustomer.
  cbn [TransformedCustomer.createdAtShopify TransformedCustomer.updatedAtShopify].
  intros [->| ->]; [reflexivity|].
  destruct (Js.Date_parse (ShopifyCustomer.created_at customer)); reflexivity.
Qed.

(** X22. A turn of the sync for a customer of the platform. When the store
    takes the lookup and one of the two dates of the customer does not
    parse, the turn throws the RangeError of the driver and writes
    nothing. When the turn does not throw, or leaves another store than it
    found, the row it has stored for the customer has no empty text in its
    city, country, province, postal code or tags (an empty text of the
    platform is stored as missing), and its total spent is what the column
    of type real holds of a number: of the platform's text read as one, of
    0 when that text does not read as a number or reads as 0. *)
Theorem sync_stores_cleaned (now : Z) (customer : ShopifyCustomer.t)
    (db : Db.t) (n : SyncJob.Counters) :
  let turn := SyncJob.syncOne now (transformCustomer customer) (db, n) in
  (rejects (GetCustomerByShopifyId (ShopifyCustomer.id customer)) db = None ->
   Js.Date_parse (ShopifyCustomer.created_at customer) = None
   \/ Js.Date_parse (ShopifyCustomer.updated_at customer) = None ->
   turn = ((db, n), Some SyncJob.invalidTime))
  /\ (snd turn = None \/ fst (fst turn) <> db ->
      exists r total,
        getCustomerByShopifyId (ShopifyCustomer.id customer) (fst (fst turn))
        = Some r
        /\ cleaned r
        /\ Customer.totalSpent r = Some (real total)
        /\ total
           = Js.number_or (Js.parseFloat (ShopifyCustomer.total_spent customer))
               Js.zero
        /\ total <> Js.NaN).
Proof.
  intros turn. unfold turn, SyncJob.syncOne.
  cbn [TransformedCustomer.shopifyCustomerId transformCustomer].
  split.
  - intros -> Hdates. rewrite (transformed_dates customer _ Hdates). reflexivity.
  - destruct (rejects (GetCustomerByShopifyId _) db);
      [intros [H|H]; [discriminate H | contradiction H; reflexivity]|].
    destruct (SyncJob.insertData (transformCustomer customer) _)
      as [payload|] eqn:Epayload;
      [|intros [H|H]; [discriminate H | contradiction H; reflexivity]].
    destruct (rejects (UpsertCustomer payload) db);
      [intros [H|H]; [discriminate H | contradiction H; reflexivity]|].
    intros _.
    pose proof (upsertCustomer_get_same payload now db) as Hget.
    pose proof (upsertCustomer_result payload now db) as Hresult.
    assert (Hkey : InsertCustomer.shopifyCustomerId payload
                   = ShopifyCustomer.id customer).
    { rewrite (insertData_key _ _ _ Epayload). reflexivity. }
    rewrite Hkey in Hget.
    assert (Hrow : exists r total,
               fst (upsertCustomer payload now db) = r
               /\ cleaned r
               /\ Customer.totalSpent r = Some (real total)
               /\ total
                  = Js.number_or
                      (Js.parseFloat (ShopifyCustomer.total_spent customer))
                      Js.zero
               /\ total <> Js.NaN).
    { rewrite Hresult. revert Epayload. unfold SyncJob.insertData, transformCustomer.
      cbn [TransformedCustomer.createdAtShopify
           TransformedCustomer.updatedAtShopify].
      destruct (Js.Date_parse (ShopifyCustomer.created_at customer));
        [|discriminate].
      destruct (Js.Date_parse (ShopifyCustomer.updated_at customer));
        [|discriminate].
      intros E. injection E as <-.
      eexists. eexists. split; [reflexivity|].
      destruct (getCustomerByShopifyId _ db);
        (split; [|split; [reflexivity|split; [reflexivity|]]]);
        unfold cleaned; simpl;
        repeat split; try apply string_or_null_not_blank;
        try apply number_or_zero_number;
        exact (string_or_null_not_blank (Some (ShopifyCustomer.tags customer))). }
    destruct Hrow as (r & total & Hr & Hrest).
    exists r, total. split; [|exact Hrest].
    clear Hresult. rewrite Hr in Hget.
    destruct (upsertCustomer payload now db) as [upserted db'].
    cbn [fst snd] in *. subst upserted.
    destruct (if (SyncJob.SYNC_GENDER_TO_TAGS
                  && SyncJob.known_gender (Customer.genderInferred r))%bool
              then SyncJob.applyGenderTag r else None); exact Hget.
Qed.

End TransformFacts.

Section TransformExamples.

Import DatabaseStorage ShopifyClient Notions.

Local Existing Instance plainRuntime.
Local Existing Instance plainConfig.
Local Existing Instance plainDatabase.

(** The first customer of the three pages, on an empty store. *)
Lemma sync_stores_cleaned_witness :
  snd (SyncJob.syncOne 150 (transformCustomer (sampleCustomer 1)) (Db.empty, SyncJob.noCounts))
  = None
  /\ exists r,
       getCustomerByShopifyId 1
         (fst (fst (SyncJob.syncOne 150 (transformCustomer (sampleCustomer 1))
                      (Db.empty, SyncJob.noCounts))))
       = Some r
       /\ cleaned r.
Proof.
  assert (Hturn : snd (SyncJob.syncOne 150 (transformCustomer (sampleCustomer 1))
                         (Db.empty, SyncJob.noCounts)) = None)
    by reflexivity.
  split; [exact Hturn|].
  destruct (proj2 (sync_stores_cleaned (rt := plainRuntime) (cfg := plainConfig)
                     (database := plainDatabase) 150 (sampleCustomer 1)
                     Db.empty SyncJob.noCounts) (or_introl Hturn))
    as (r & total & Hget & Hcleaned & _).
  exists r. split; [exact Hget | exact Hcleaned].
Defined.

End TransformExamples.

(** ** The page of customers that [getCustomers] returns *)

Section GetCustomersFacts.

Import DatabaseStorage Notions.

Context {database : Database}.

Lemma in_skipn {A : Type} (n : nat) (l : list A) (x : A) :
  In x (skipn n l) -> In x l.
Proof.
  intros H. rewrite <- (firstn_skipn n l). apply in_or_app. right. exact H.
Qed.

Lemma in_page {A : Type} (limit offset : nat) (l : list A) (x : A) :
  In x (firstn limit (skipn offset l)) -> In x l.
Proof.
  intros H. apply in_skipn with (n := offset).
  rewrite <- (firstn_skipn limit (skipn offset l)). apply in_or_app. left. exact H.
Qed.

Lemma ceilDiv_bounds (totalCount pageSize : Z) :
  0 < pageSize ->
  totalCount <= ceilDiv totalCount pageSize * pageSize < totalCount + pageSize.
Proof.
  intros Hpos. unfold ceilDiv.
  pose proof (Z.div_mod (totalCount + pageSize - 1) pageSize) as Hdm.
  pose proof (Z.mod_pos_bound (totalCount + pageSize - 1) pageSize Hpos) as Hm.
  assert (Hne : pageSize <> 0) by lia. specialize (Hdm Hne). nia.
Qed.

(** What the parts of a response are, for a call that did not reject. *)
Lemma getCustomers_parts (f : CustomerFilter.t) (db : Db.t)
    (response : CustomerListResponse.t) :
  getCustomers f db = Some response ->
  exists createdFrom createdTo lastOrderFrom lastOrderTo,
    dateBound (CustomerFilter.createdFrom f) = Some createdFrom
    /\ dateBound (CustomerFilter.createdTo f) = Some createdTo
    /\ dateBound (CustomerFilter.lastOrderFrom f) = Some lastOrderFrom
    /\ dateBound (CustomerFilter.lastOrderTo f) = Some lastOrderTo
    /\ let selected :=
         filter
           (whereClause
              (conditions f createdFrom createdTo lastOrderFrom lastOrderTo))
           (Db.customers db) in
       let page := orZ (CustomerFilter.page f) 1 in
       let pageSize := orZ (CustomerFilter.pageSize f) 25 in
       0 < pageSize /\ 0 <= (page - 1) * pageSize
       /\ response
          = CustomerListResponse.mk
              (firstn (Z.to_nat pageSize)
                 (skipn (Z.to_nat ((page - 1) * pageSize))
                    (orderBy (sortColumn (CustomerFilter.sortBy f))
                       (sortDirection (CustomerFilter.sortOrder f)) selected)))
              (Pagination.mk page pageSize (Z.of_nat (List.length selected))
                 (ceilDiv (Z.of_nat (List.length selected)) pageSize)).
Proof.
  unfold getCustomers.
  destruct (dateBound (CustomerFilter.createdFrom f)) as [createdFrom|]; [|discriminate].
  destruct (dateBound (CustomerFilter.createdTo f)) as [createdTo|]; [|discriminate].
  destruct (dateBound (CustomerFilter.lastOrderFrom f)) as [lastOrderFrom|];
    [|discriminate].
  destruct (dateBound (CustomerFilter.lastOrderTo f)) as [lastOrderTo|];
    [|discriminate].
  cbv zeta.
  destruct (Z.ltb_spec (orZ (CustomerFilter.pageSize f) 25) 0) as [|Hsize];
    [discriminate|].
  destruct (Z.ltb_spec ((orZ (CustomerFilter.page f) 1 - 1)
                        * orZ (CustomerFilter.pageSize f) 25) 0) as [|Hoffset];
    [discriminate|].
  cbn [orb]. intros H. injection H as <-.
  exists createdFrom, createdTo, lastOrderFrom, lastOrderTo.
  repeat split; try assumption.
  unfold orZ in *. destruct (CustomerFilter.pageSize f =? 0) eqn:E; [lia|].
  apply Z.eqb_neq in E. lia.
Qed.

(** A row of the page is a stored row that the conditions hold of. *)
Lemma data_selected (f : CustomerFilter.t) (db : Db.t)
    (response : CustomerListResponse.t) (r : Customer.t) :
  getCustomers f db = Some response ->
  In r (CustomerListResponse.data response) ->
  exists createdFrom createdTo lastOrderFrom lastOrderTo,
    dateBound (CustomerFilter.createdFrom f) = Some createdFrom
    /\ dateBound (CustomerFilter.createdTo f) = Some createdTo
    /\ In r (Db.customers db)
    /\ whereClause (conditions f createdFrom createdTo lastOrderFrom lastOrderTo) r
       = true.
Proof.
  intros Hget Hr.
  destruct (getCustomers_parts f db response Hget)
    as (cf & ct & lf & lt & Hcf & Hct & _ & _ & _ & _ & ->).
  cbn [CustomerListResponse.data] in Hr. apply in_page in Hr.
  apply (Permutation_in _ (orderBy_permutes _ _ _)) in Hr.
  apply filter_In in Hr. exists cf, ct, lf, lt. tauto.
Qed.

(** The page holds at most as many rows as its size. *)
Lemma data_length (f : CustomerFilter.t) (db : Db.t)
    (response : CustomerListResponse.t) :
  getCustomers f db = Some response ->
  Z.of_nat (List.length (CustomerListResponse.data response))
  <= orZ (CustomerFilter.pageSize f) 25.
Proof.
  intros Hget.
  destruct (getCustomers_parts f db response Hget)
    as (cf & ct & lf & lt & _ & _ & _ & _ & Hsize & _ & ->).
  cbn [CustomerListResponse.data]. rewrite length_firstn. lia.
Qed.

(** X23. A page that [getCustomers] returns: its size is positive (25 for a
    size of 0) and its number at least 1 (1 for a number of 0); it holds at
    most [pageSize] rows, the ones left after the pages before it; every
    row of it is a stored row; [totalCount] is at most the number of stored
    rows; and [totalPages] is the least number of pages of that size that
    hold [totalCount] rows. *)
Theorem getCustomers_page (f : CustomerFilter.t) (db : Db.t)
    (response : CustomerListResponse.t) :
  getCustomers f db = Some response ->
  let p := CustomerListResponse.pagination response in
  let data := CustomerListResponse.data response in
  0 < Pagination.pageSize p
  /\ 1 <= Pagination.page p
  /\ Z.of_nat (List.length data)
     = Z.max 0
         (Z.min (Pagination.pageSize p)
            (Pagination.totalCount p
             - (Pagination.page p - 1) * Pagination.pageSize p))
  /\ incl data (Db.customers db)
  /\ 0 <= Pagination.totalCount p <= Z.of_nat (List.length (Db.customers db))
  /\ Pagination.totalCount p
     <= Pagination.totalPages p * Pagination.pageSize p
     < Pagination.totalCount p + Pagination.pageSize p.
Proof.
  intros Hget.
  destruct (getCustomers_parts f db response Hget)
    as (cf & ct & lf & lt & _ & _ & _ & _ & Hsize & Hoffset & ->).
  cbn [CustomerListResponse.pagination CustomerListResponse.data
       Pagination.pageSize Pagination.page Pagination.totalCount
       Pagination.totalPages].
  set (selected := filter _ (Db.customers db)) in *.
  set (page := orZ (CustomerFilter.page f) 1) in *.
  set (pageSize := orZ (CustomerFilter.pageSize f) 25) in *.
  split; [exact Hsize|]. split; [nia|]. split; [|split; [|split]].
  - rewrite length_firstn, length_skipn.
    rewrite (Permutation_length (orderBy_permutes _ _ selected)). lia.
  - intros r Hr. apply in_page in Hr.
    apply (Permutation_in _ (orderBy_permutes _ _ selected)) in Hr.
    unfold selected in Hr. apply filter_In in Hr. tauto.
  - pose proof (filter_length_le
                  (whereClause (conditions f cf ct lf lt)) (Db.customers db)).
    fold selected in H. lia.
  - apply ceilDiv_bounds, Hsize.
Qed.

Lemma condition_holds {A : Type} (bound : option A)
    (holds : A -> Customer.t -> bool) (b : A) (r : Customer.t) :
  forallb (fun c => c r) (condition bound holds) = true ->
  bound = Some b -> holds b r = true.
Proof.
  intros H ->. simpl in H. apply andb_true_iff in H. tauto.
Qed.

Lemma eqAny_true (column : option string) (values : list string) :
  eqAny column values = true -> exists v, column = Some v /\ In v values.
Proof.
  unfold eqAny. destruct column as [c|]; [|discriminate].
  intros H. apply existsb_exists in H. destruct H as (v & Hv & E).
  apply String.eqb_eq in E. subst. exists v. tauto.
Qed.

Lemma gteZ_true (column : option Z) (value : Z) :
  gteZ column value = true -> exists c, column = Some c /\ value <= c.
Proof.
  unfold gteZ. destruct column as [c|]; [|discriminate].
  intros H. exists c. split; [reflexivity | lia].
Qed.

Lemma lteZ_true (column : option Z) (value : Z) :
  lteZ column value = true -> exists c, column = Some c /\ c <= value.
Proof.
  unfold lteZ. destruct column as [c|]; [|discriminate].
  intros H. exists c. split; [reflexivity | lia].
Qed.

(** X24. Every row of a page that [getCustomers] returns meets every
    condition of the filter at once: its gender, its city and its province
    are among the ones listed, its province is a state of the region, its
    creation is within the two dates and its number of orders within the
    two bounds. A row whose column is [NULL] is on no page that filters on
    the column. *)
Theorem getCustomers_conditions (f : CustomerFilter.t) (db : Db.t)
    (response : CustomerListResponse.t) (r : Customer.t) :
  getCustomers f db = Some response ->
  In r (CustomerListResponse.data response) ->
  (forall g genders,
      CustomerFilter.genderInferred f = Some (g :: genders) ->
      exists v, Customer.genderInferred r = Some v /\ In v (g :: genders))
  /\ (forall c cities,
        CustomerFilter.city f = Some (c :: cities) ->
        exists v, Customer.city r = Some v /\ In v (c :: cities))
  /\ (forall p provinces,
        CustomerFilter.province f = Some (p :: provinces) ->
        exists v, Customer.province r = Some v /\ In v (p :: provinces))
  /\ (forall region,
        CustomerFilter.region f = Some region ->
        exists v, Customer.province r = Some v /\ In v (regionStates region))
  /\ (forall text d,
        given (CustomerFilter.createdFrom f) = Some text ->
        newDate text = Some d ->
        exists c, Customer.createdAtShopify r = Some c /\ d <= c)
  /\ (forall text d,
        given (CustomerFilter.createdTo f) = Some text ->
        newDate text = Some d ->
        exists c, Customer.createdAtShopify r = Some c /\ c <= d)
  /\ (forall v,
        CustomerFilter.minOrdersCount f = Some v ->
        exists c, Customer.ordersCount r = Some c /\ v <= c)
  /\ (forall v,
        CustomerFilter.maxOrdersCount f = Some v ->
        exists c, Customer.ordersCount r = Some c /\ c <= v).
Proof.
  intros Hget Hin.
  destruct (data_selected f db response r Hget Hin)
    as (cf & ct & lf & lt & Hcf & Hct & _ & Hr).
  unfold whereClause, conditions in Hr. rewrite !forallb_app in Hr.
  repeat (apply andb_true_iff in Hr;
          let H := fresh "Hcond" in destruct Hr as [H Hr]).
  repeat split.
  - intros g genders E. apply eqAny_true.
    apply (condition_holds _ _ (g :: genders) r Hcond). rewrite E. reflexivity.
  - intros c cities E. apply eqAny_true.
    apply (condition_holds _ _ (c :: cities) r Hcond4). rewrite E. reflexivity.
  - intros p provinces E. apply eqAny_true.
    apply (condition_holds _ _ (p :: provinces) r Hcond6). rewrite E. reflexivity.
  - intros region E. apply eqAny_true.
    apply (condition_holds _ _ (regionStates region) r Hcond5).
    rewrite E. destruct region; reflexivity.
  - intros text d Etext Edate. apply gteZ_true.
    apply (condition_holds _ _ d r Hcond0).
    unfold dateBound in Hcf. rewrite Etext, Edate in Hcf. congruence.
  - intros text d Etext Edate. apply lteZ_true.
    apply (condition_holds _ _ d r Hcond1).
    unfold dateBound in Hct. rewrite Etext, Edate in Hct. congruence.
  - intros v E. apply gteZ_true. exact (condition_holds _ _ v r Hcond10 E).
  - intros v E. apply lteZ_true. exact (condition_holds _ _ v r Hr E).
Qed.

End GetCustomersFacts.

(** The first page of two of the customers inferred female, on the store of
    one enriched and two pending customers: one row, one page. *)
Lemma getCustomers_page_witness :
  DatabaseStorage.getCustomers (database := Notions.plainDatabase)
    Notions.femaleFilter Notions.pendingDb
  = Some (CustomerListResponse.mk [Notions.enrichedRow] (Pagination.mk 1 2 1 1))
  /\ incl [Notions.enrichedRow] (Db.customers Notions.pendingDb).
Proof.
  split; [reflexivity|].
  exact (proj1 (proj2 (proj2 (proj2
           (getCustomers_page (database := Notions.plainDatabase)
              Notions.femaleFilter Notions.pendingDb
              (CustomerListResponse.mk [Notions.enrichedRow] (Pagination.mk 1 2 1 1))
              eq_refl))))).
Defined.

Lemma getCustomers_conditions_witness :
  In Notions.enrichedRow [Notions.enrichedRow]
  /\ exists v,
       Customer.genderInferred Notions.enrichedRow = Some v /\ In v ["female"].
Proof.
  split; [left; reflexivity|].
  exact (proj1 (getCustomers_conditions (database := Notions.plainDatabase)
                  Notions.femaleFilter Notions.pendingDb
                  (CustomerListResponse.mk [Notions.enrichedRow]
                     (Pagination.mk 1 2 1 1))
                  Notions.enrichedRow eq_refl (or_introl eq_refl))
           "female" [] eq_refl).
Defined.

(** ** The bulk write-back of gender tags *)

Section BulkTags.

Import DatabaseStorage GenderTags Notions.

Context {database : Database}.

Variable rejects : Z * string -> bool.

(** The request that [applyGenderTag] makes is for the customer it is
    given, whose gender is known, and asks for the new tags. *)
Lemma applyGenderTag_request (customer : Customer.t) (request : Z * string) :
  applyGenderTag customer = Some request ->
  exists g,
    Customer.genderInferred customer = Some g
    /\ g <> EmptyString /\ g <> "unknown"
    /\ request
       = (Customer.shopifyCustomerId customer, newTags g (Customer.tags customer)).
Proof.
  unfold applyGenderTag.
  destruct (Customer.genderInferred customer) as [g|]; [|discriminate].
  destruct (String.eqb_spec g "") as [|Hne]; [discriminate|].
  destruct (String.eqb_spec g "unknown") as [|Hknown]; [discriminate|].
  cbn [orb].
  destruct (differs (Customer.tags customer) (newTags g (Customer.tags customer)));
    [|discriminate].
  intros H. injection H as <-. exists g. tauto.
Qed.

Lemma tagging_from (customers : list Customer.t) :
  forall (updatedCount : Z) (requests : list (Z * string)),
    let result := fold_left (tagOne rejects) customers (updatedCount, requests) in
    updatedCount <= fst result <= updatedCount + Z.of_nat (List.length customers)
    /\ (List.length (snd result)
        <= List.length requests + List.length customers)%nat
    /\ forall request,
         In request (snd result) ->
         In request requests
         \/ exists customer,
              In customer customers /\ applyGenderTag customer = Some request.
Proof.
  induction customers as [|c rest IH]; intros updatedCount requests;
    cbn [fold_left].
  - simpl. repeat split; try lia. tauto.
  - assert (Hstep : tagOne rejects (updatedCount, requests) c
                    = match applyGenderTag c with
                      | None => (updatedCount + 1, requests)
                      | Some request =>
                          if rejects request
                          then (updatedCount, requests ++ [request])
                          else (updatedCount + 1, requests ++ [request])
                      end) by reflexivity.
    rewrite Hstep. clear Hstep.
    destruct (applyGenderTag c) as [request|] eqn:E.
    + destruct (rejects request).
      * destruct (IH updatedCount (requests ++ [request])) as (Hn & Hlen & Hreq).
        rewrite length_app in Hlen. cbn [List.length] in *.
        repeat split; try lia.
        intros request' Hin. destruct (Hreq request' Hin) as [Hold|(c' & Hc' & E')].
        -- apply in_app_iff in Hold. destruct Hold as [Hold|[<-|[]]]; [tauto|].
           right. exists c. split; [left; reflexivity | exact E].
        -- right. exists c'. split; [right; exact Hc' | exact E'].
      * destruct (IH (updatedCount + 1) (requests ++ [request]))
          as (Hn & Hlen & Hreq).
        rewrite length_app in Hlen. cbn [List.length] in *.
        repeat split; try lia.
        intros request' Hin. destruct (Hreq request' Hin) as [Hold|(c' & Hc' & E')].
        -- apply in_app_iff in Hold. destruct Hold as [Hold|[<-|[]]]; [tauto|].
           right. exists c. split; [left; reflexivity | exact E].
        -- right. exists c'. split; [right; exact Hc' | exact E'].
    + destruct (IH (updatedCount + 1) requests) as (Hn & Hlen & Hreq).
      cbn [List.length] in *. repeat split; try lia.
      intros request' Hin. destruct (Hreq request' Hin) as [Hold|(c' & Hc' & E')];
        [tauto|].
      right. exists c'. split; [right; exact Hc' | exact E'].
Qed.

(** X10. [syncGenderTagsToShopify] never rejects for its query. It counts at
    most 10000 customers and asks the platform for at most 10000 tag
    updates, each for a stored customer inferred male or female: the tags
    asked for are that customer's other tags and the tag of that gender.
    A customer of another gender gets no update, and the customers
    after the first 10000 are not looked at. *)
Theorem syncGenderTagsToShopify_requests (db : Db.t) :
  exists updatedCount requests,
    syncGenderTagsToShopify rejects db = Some (updatedCount, requests)
    /\ 0 <= updatedCount <= 10000
    /\ Z.of_nat (List.length requests) <= 10000
    /\ forall request,
         In request requests ->
         exists customer g,
           In customer (Db.customers db)
           /\ Customer.genderInferred customer = Some g
           /\ In g ["male"; "female"]
           /\ request
              = (Customer.shopifyCustomerId customer,
                 newTags g (Customer.tags customer)).
Proof.
  unfold syncGenderTagsToShopify.
  destruct (getCustomers bulkFilter db) as [result|] eqn:Hget.
  - pose proof (data_length bulkFilter db result Hget) as Hlen.
    change (orZ (CustomerFilter.pageSize bulkFilter) 25) with 10000 in Hlen.
    destruct (tagging_from (CustomerListResponse.data result) 0 [])
      as (Hn & Hreqs & Hfrom).
    destruct (fold_left (tagOne rejects) (CustomerListResponse.data result) (0, []))
      as [updatedCount requests].
    cbn [fst snd List.length] in *.
    exists updatedCount, requests. split; [reflexivity|].
    split; [lia|]. split; [lia|].
    intros request Hin. destruct (Hfrom request Hin) as [[]|(c & Hc & E)].
    destruct (applyGenderTag_request c request E) as (g & Hg & _ & _ & ->).
    destruct (data_selected bulkFilter db result c Hget Hc)
      as (cf & ct & lf & lt & _ & _ & Hstored & Hwhere).
    exists c, g. split; [exact Hstored|]. split; [exact Hg|]. split; [|reflexivity].
    unfold whereClause, conditions in Hwhere. rewrite !forallb_app in Hwhere.
    apply andb_true_iff in Hwhere. destruct Hwhere as [Hgender _].
    pose proof (condition_holds _ _ ["male"; "female"] c Hgender eq_refl) as Hany.
    apply eqAny_true in Hany. destruct Hany as (v & Hv & Hvin).
    rewrite Hg in Hv. injection Hv as <-. exact Hvin.
  - exfalso. unfold getCustomers in Hget. simpl in Hget. discriminate.
Qed.

End BulkTags.

(** ** The pages that the pagination controls show *)

Section VisiblePages.

Import PaginationControls Notions.

(** Decides the comparisons of the goal that the hypotheses decide. *)
Ltac decide_comparisons :=
  repeat match goal with
         | |- context [Z.leb ?a ?b] => destruct (Z.leb_spec a b); try lia
         | |- context [Z.ltb ?a ?b] => destruct (Z.ltb_spec a b); try lia
         | |- context [Z.eqb ?a ?b] => destruct (Z.eqb_spec a b); try lia
         end.

(** Computes the turns of the loop once their number is known. *)
Ltac run_loop turns :=
  match goal with
  | |- context [Z.to_nat ?e] =>
      replace (Z.to_nat e) with turns by lia
  end;
  cbn [pushRange]; unfold pushNew, includes;
  repeat (cbn [existsb app orb]; progress decide_comparisons);
  cbn [existsb app orb].

(** What is shown for more than five pages, by the place of the current
    page. *)
Lemma visible_at_start (page totalPages : Z) :
  5 < totalPages -> 1 <= page <= 3 ->
  getVisiblePages page totalPages
  = PageNumber 1
    :: numbersFrom (Z.to_nat page) 2 ++ [Ellipsis; PageNumber totalPages].
Proof.
  intros Hmany Hpage. unfold getVisiblePages.
  destruct (Z.leb_spec totalPages 5); [lia|].
  destruct (Z.ltb_spec 3 page); [lia|].
  destruct (Z.ltb_spec page (totalPages - 2)); [|lia].
  assert (Hcases : page = 1 \/ page = 2 \/ page = 3) by lia.
  destruct Hcases as [->|[->| ->]].
  - rewrite Z.max_l, Z.min_r by lia. run_loop 1%nat. reflexivity.
  - rewrite Z.max_l, Z.min_r by lia. run_loop 2%nat. reflexivity.
  - rewrite Z.max_l, Z.min_r by lia. run_loop 3%nat. reflexivity.
Qed.

Lemma visible_in_middle (page totalPages : Z) :
  4 <= page <= totalPages - 3 ->
  getVisiblePages page totalPages
  = [PageNumber 1; Ellipsis; PageNumber (page - 1); PageNumber page;
     PageNumber (page + 1); Ellipsis; PageNumber totalPages].
Proof.
  intros Hpage. unfold getVisiblePages.
  destruct (Z.leb_spec totalPages 5); [lia|].
  destruct (Z.ltb_spec 3 page); [|lia].
  destruct (Z.ltb_spec page (totalPages - 2)); [|lia].
  rewrite Z.max_r, Z.min_r by lia. run_loop 3%nat.
  repeat f_equal; lia.
Qed.

Lemma visible_at_end (page totalPages : Z) :
  5 < totalPages -> totalPages - 2 <= page <= totalPages ->
  getVisiblePages page totalPages
  = [PageNumber 1; Ellipsis]
    ++ numbersFrom (Z.to_nat (totalPages - page + 2)) (page - 1).
Proof.
  intros Hmany Hpage. unfold getVisiblePages.
  destruct (Z.leb_spec totalPages 5); [lia|].
  destruct (Z.ltb_spec 3 page); [|lia].
  destruct (Z.ltb_spec page (totalPages - 2)); [lia|].
  assert (Hcases : page = totalPages - 2 \/ page = totalPages - 1
                   \/ page = totalPages) by lia.
  destruct Hcases as [->|[->| ->]].
  - rewrite Z.max_r, Z.min_l by lia. run_loop 3%nat.
    replace (Z.to_nat (totalPages - (totalPages - 2) + 2)) with 4%nat by lia.
    cbn [numbersFrom app]. repeat f_equal; lia.
  - rewrite Z.max_r, Z.min_l by lia. run_loop 2%nat.
    replace (Z.to_nat (totalPages - (totalPages - 1) + 2)) with 3%nat by lia.
    cbn [numbersFrom app]. repeat f_equal; lia.
  - rewrite Z.max_r, Z.min_l by lia. run_loop 1%nat.
    replace (Z.to_nat (totalPages - totalPages + 2)) with 2%nat by lia.
    cbn [numbersFrom app]. repeat f_equal; lia.
Qed.

(** X25. For a current page between 1 and the number of pages, the list that
    [getVisiblePages] makes tells no lie: it starts with page 1 and ends
    with the last page, two numbers side by side are two pages that follow
    each other, an ellipsis stands where at least one page is left out, the
    current page is in the list, and the list has at most seven entries. *)
Theorem getVisiblePages_faithful (page totalPages : Z) :
  1 <= page <= totalPages ->
  faithful (getVisiblePages page totalPages) = true
  /\ In page (numbers (getVisiblePages page totalPages))
  /\ hd_error (getVisiblePages page totalPages) = Some (PageNumber 1)
  /\ last (getVisiblePages page totalPages) Ellipsis = PageNumber totalPages
  /\ (List.length (getVisiblePages page totalPages) <= 7)%nat.
Proof.
  intros Hpage.
  destruct (Z.leb_spec totalPages 5) as [Hfew|Hmany].
  - unfold getVisiblePages. destruct (Z.leb_spec totalPages 5); [|lia].
    assert (Hcases : totalPages = 1 \/ totalPages = 2 \/ totalPages = 3
                     \/ totalPages = 4 \/ totalPages = 5) by lia.
    destruct Hcases as [->|[->|[->|[->| ->]]]]; vm_compute;
      repeat split; try reflexivity; lia.
  - destruct (Z.le_gt_cases page 3) as [Hstart|Hlater].
    + rewrite (visible_at_start page totalPages Hmany (conj (proj1 Hpage) Hstart)).
      assert (Hcases : page = 1 \/ page = 2 \/ page = 3) by lia.
      destruct Hcases as [->|[->| ->]];
        [change (Z.to_nat 1) with 1%nat
        |change (Z.to_nat 2) with 2%nat
        |change (Z.to_nat 3) with 3%nat];
        cbn [numbersFrom app faithful numbers In hd_error last List.length];
        decide_comparisons; cbn [andb]; repeat split; try reflexivity; lia.
    + destruct (Z.le_gt_cases page (totalPages - 3)) as [Hmiddle|Hend].
      * assert (Hfrom : 4 <= page) by lia.
        rewrite (visible_in_middle page totalPages (conj Hfrom Hmiddle)).
        cbn [faithful numbers In hd_error last List.length].
        decide_comparisons; cbn [andb]; repeat split; try reflexivity; lia.
      * assert (Hfrom : totalPages - 2 <= page) by lia.
        rewrite (visible_at_end page totalPages Hmany (conj Hfrom (proj2 Hpage))).
        assert (Hcases : page = totalPages - 2 \/ page = totalPages - 1
                         \/ page = totalPages) by lia.
        destruct Hcases as [->|[->| ->]].
        -- replace (Z.to_nat (totalPages - (totalPages - 2) + 2)) with 4%nat by lia.
           cbn [numbersFrom app faithful numbers In hd_error last List.length].
           decide_comparisons; cbn [andb]; repeat split; try reflexivity;
             try lia; f_equal; lia.
        -- replace (Z.to_nat (totalPages - (totalPages - 1) + 2)) with 3%nat by lia.
           cbn [numbersFrom app faithful numbers In hd_error last List.length].
           decide_comparisons; cbn [andb]; repeat split; try reflexivity;
             try lia; f_equal; lia.
        -- replace (Z.to_nat (totalPages - totalPages + 2)) with 2%nat by lia.
           cbn [numbersFrom app faithful numbers In hd_error last List.length].
           decide_comparisons; cbn [andb]; repeat split; try reflexivity;
             try lia; f_equal; lia.
Qed.

End VisiblePages.

(** Page 7 of 20: the first page, an ellipsis, pages 6, 7 and 8, an
    ellipsis, the last page. *)
Lemma getVisiblePages_faithful_witness :
  1 <= 7 <= 20
  /\ PaginationControls.getVisiblePages 7 20
     = [PaginationControls.PageNumber 1; PaginationControls.Ellipsis;
        PaginationControls.PageNumber 6; PaginationControls.PageNumber 7;
        PaginationControls.PageNumber 8; PaginationControls.Ellipsis;
        PaginationControls.PageNumber 20]
  /\ Notions.faithful (PaginationControls.getVisiblePages 7 20) = true.
Proof.
  assert (Hpage : 1 <= 7 <= 20) by lia.
  split; [exact Hpage|]. split; [reflexivity|].
  exact (proj1 (getVisiblePages_faithful 7 20 Hpage)).
Defined.

(** ** The range that the pagination controls announce *)

Section ShownRange.

Import DatabaseStorage PaginationControls.

Context {database : Database}.

(** X26. For a page that [getCustomers] returns with a row on it, the two
    numbers that the controls show, "Showing [startItem] - [endItem] of
    [totalCount]", count the rows of the page: the first is at most the
    second, the second at most the total, and there are as many numbers
    from the first to the second as rows on the page. *)
Theorem shown_range_counts_rows (f : CustomerFilter.t) (db : Db.t)
    (response : CustomerListResponse.t) :
  getCustomers f db = Some response ->
  CustomerListResponse.data response <> [] ->
  let p := CustomerListResponse.pagination response in
  let first := startItem (Pagination.page p) (Pagination.pageSize p) in
  let last :=
    endItem (Pagination.page p) (Pagination.pageSize p) (Pagination.totalCount p) in
  1 <= first <= last
  /\ last <= Pagination.totalCount p
  /\ last - first + 1
     = Z.of_nat (List.length (CustomerListResponse.data response)).
Proof.
  intros Hget Hrows.
  destruct (getCustomers_parts f db response Hget)
    as (cf & ct & lf & lt & _ & _ & _ & _ & Hsize & Hoffset & ->).
  cbn [CustomerListResponse.pagination CustomerListResponse.data
       Pagination.pageSize Pagination.page Pagination.totalCount] in *.
  set (selected := filter _ (Db.customers db)) in *.
  set (page := orZ (CustomerFilter.page f) 1) in *.
  set (pageSize := orZ (CustomerFilter.pageSize f) 25) in *.
  assert (Hlen : Z.of_nat
                   (List.length
                      (firstn (Z.to_nat pageSize)
                         (skipn (Z.to_nat ((page - 1) * pageSize))
                            (orderBy (sortColumn (CustomerFilter.sortBy f))
                               (sortDirection (CustomerFilter.sortOrder f))
                               selected))))
                 = Z.max 0
                     (Z.min pageSize
                        (Z.of_nat (List.length selected) - (page - 1) * pageSize))).
  { rewrite length_firstn, length_skipn.
    rewrite (Permutation_length (orderBy_permutes _ _ selected)). lia. }
  assert (Hsome : 0 < Z.of_nat
                        (List.length
                           (firstn (Z.to_nat pageSize)
                              (skipn (Z.to_nat ((page - 1) * pageSize))
                                 (orderBy (sortColumn (CustomerFilter.sortBy f))
                                    (sortDirection (CustomerFilter.sortOrder f))
                                    selected))))).
  { destruct (firstn _ _); [contradiction | simpl; lia]. }
  unfold startItem, endItem. lia.
Qed.

End ShownRange.

(** The one row of the first page of two of the customers inferred female:
    "Showing 1 - 1 of 1". *)
Lemma shown_range_counts_rows_witness :
  [Notions.enrichedRow] <> []
  /\ PaginationControls.startItem 1 2 = 1
  /\ PaginationControls.endItem 1 2 1 = 1
  /\ PaginationControls.endItem 1 2 1 - PaginationControls.startItem 1 2 + 1
     = Z.of_nat (List.length [Notions.enrichedRow]).
Proof.
  assert (Hrows : [Notions.enrichedRow] <> []) by discriminate.
  split; [exact Hrows|]. split; [reflexivity|]. split; [reflexivity|].
  exact (proj2 (proj2
           (shown_range_counts_rows (database := Notions.plainDatabase)
              Notions.femaleFilter Notions.pendingDb
              (CustomerListResponse.mk [Notions.enrichedRow] (Pagination.mk 1 2 1 1))
              eq_refl Hrows))).
Defined.

(** ** The customer-updated webhook *)

Section WebhookUpdate.

Import DatabaseStorage Routes Notions.

Context {rt : Js.Runtime} {database : Database}.

(** X27. A verified customer-updated webhook is answered with 200 or with
    500. It is answered with 200 exactly when the store takes the lookup,
    the two dates of the body parse, and the store takes the upsert; with
    500 the store is left as it was. With 200 it leaves a row for the
    customer, written at that instant. When the customer was stored, the
    row keeps its id, its source creation date and its three enrichment
    columns, and its email is the one of the body, or the stored one when
    the body has none. When the customer was not stored, the row is new:
    pending, with no gender and no confidence. *)
Theorem customersUpdate_upserts (customer : WebhookBody.t) (now : Z) (db : Db.t) :
  let answer := customersUpdate true customer now db in
  let existing := getCustomerByShopifyId (WebhookBody.id customer) db in
  (fst answer = 200 \/ answer = (500, db))
  /\ (fst answer = 200
      <-> rejects (GetCustomerByShopifyId (WebhookBody.id customer)) db = None
          /\ Js.Date_parse (WebhookBody.created_at customer) <> None
          /\ Js.Date_parse (WebhookBody.updated_at customer) <> None
          /\ exists payload,
               updatePayload customer existing = Some payload
               /\ rejects (UpsertCustomer payload) db = None)
  /\ (fst answer = 200 ->
      exists r',
        getCustomerByShopifyId (WebhookBody.id customer) (snd answer) = Some r'
        /\ Customer.updatedAt r' = now
        /\ match existing with
           | Some r =>
               Customer.id r' = Customer.id r
               /\ Customer.createdAtShopify r' = Customer.createdAtShopify r
               /\ enrichment r' = enrichment r
               /\ takes (WebhookBody.email customer) (Customer.email r)
                    (Customer.email r')
           | None =>
               Customer.id r' = Db.customers_seq db
               /\ enrichment r' = (None, None, pending)
               /\ takes (WebhookBody.email customer) None (Customer.email r')
           end).
Proof.
  intros answer existing. unfold answer, customersUpdate, upsertOr500.
  cbn [negb]. fold existing.
  destruct (rejects (GetCustomerByShopifyId (WebhookBody.id customer)) db)
    as [rejection|].
  { cbn [fst]. split; [right; reflexivity|]. split; [|discriminate].
    split; [discriminate | intros (H & _); discriminate H]. }
  unfold updatePayload.
  destruct (Js.Date_parse (WebhookBody.created_at customer))
    as [createdAtShopify|].
  2:{ cbn [fst]. split; [right; reflexivity|]. split; [|discriminate].
      split; [discriminate | intros (_ & H & _); contradiction H; reflexivity]. }
  destruct (Js.Date_parse (WebhookBody.updated_at customer))
    as [updatedAtShopify|].
  2:{ cbn [fst]. split; [right; reflexivity|]. split; [|discriminate].
      split; [discriminate|].
      intros (_ & _ & H & _); contradiction H; reflexivity. }
  match goal with
  | |- context [rejects (UpsertCustomer ?p) db] => set (payload := p)
  end.
  destruct (rejects (UpsertCustomer payload) db) as [rejection|] eqn:Etaken.
  { cbn [fst]. split; [right; reflexivity|]. split; [|discriminate].
    split; [discriminate|].
    intros (_ & _ & _ & p & Hp & Hrej). injection Hp as <-. congruence. }
  cbn [fst snd]. split; [left; reflexivity|]. split.
  - split; [|reflexivity]. intros _. split; [reflexivity|].
    split; [discriminate|]. split; [discriminate|].
    exists payload. split; [reflexivity | exact Etaken].
  - intros _.
    change (WebhookBody.id customer)
      with (InsertCustomer.shopifyCustomerId payload) at 1.
    rewrite upsertCustomer_get_same, upsertCustomer_result.
    change (InsertCustomer.shopifyCustomerId payload)
      with (WebhookBody.id customer).
    fold existing. eexists. split; [reflexivity|].
    destruct existing as [r|]; simpl.
    + repeat split. destruct (WebhookBody.email customer); reflexivity.
    + repeat split. destruct (WebhookBody.email customer); reflexivity.
Qed.

End WebhookUpdate.

Section WebhookUpdateExamples.

Import DatabaseStorage Routes Notions.

Local Existing Instance plainRuntime.
Local Existing Instance plainDatabase.

(** An update for the enriched customer. *)
Lemma customersUpdate_upserts_witness :
  fst (customersUpdate true sampleBody 30 enrichedDb) = 200
  /\ exists r',
       getCustomerByShopifyId (WebhookBody.id sampleBody)
         (snd (customersUpdate true sampleBody 30 enrichedDb)) = Some r'
       /\ Customer.updatedAt r' = 30.
Proof.
  assert (Hanswer : fst (customersUpdate true sampleBody 30 enrichedDb) = 200)
    by reflexivity.
  split; [exact Hanswer|].
  destruct (proj2 (proj2 (customersUpdate_upserts (rt := plainRuntime)
                            (database := plainDatabase) sampleBody 30 enrichedDb))
              Hanswer)
    as (r' & Hget & Hat & _).
  exists r'. split; [exact Hget | exact Hat].
Defined.

End WebhookUpdateExamples.
